(** * Address book assistant (Task_01.py): a shallow embedding and its properties

    The development follows the layout of the program:

    - [Py]: the Python values the program manipulates (text as a sequence of
      Unicode code points, exceptions, insertion-ordered dictionaries);
    - [Unicode]: the character tables behind [str.isdigit], the regular
      expression class [\d] and [int];
    - [Datetime]: the calendar arithmetic of the [datetime] module and the
      parser [datetime.strptime(_, "%d.%m.%Y")];
    - [Pickle]: object graphs and the instructions [pickle] stores for them;
    - the classes of Task_01.py ([Field], [Name], [Phone], [Birthday],
      [Record], [AddressBook]) and the functions [get_upcoming_birthdays],
      [save_data] and [load_data];
    - the commands behind [input_error], [parse_input] and the loop of
      [main];
    - the properties, one section per operation. *)

From Stdlib Require Import ZArith NArith List Bool String Ascii Lia.
From stdpp Require Import base option list gmap strings.

Set Default Proof Using "Type".
Set Warnings "-register-all,-clear-no-such-hyp".

(* ===================================================================== *)
(** * Python values                                                       *)
(* ===================================================================== *)

Module Py.

(** A Python [str] is a sequence of Unicode code points; [len] counts
code points. *)
Definition str : Type := list N.

(** ASCII literals of the program text, as code points. *)
Definition text (s : string) : str :=
map N_of_ascii (list_ascii_of_string s).

(** The built-in exception classes the program can meet.  [OSError]
stands for the errors of the operating system other than
[FileNotFoundError], which the program catches by name. *)
Inductive exn_class :=
| ValueError | KeyError | AttributeError | OverflowError | UnpicklingError
| FileNotFoundError | OSError | EOFError.

(** The exception messages.  The first five are the message texts of
Task_01.py; the others are produced by the library. *)
Inductive message :=
| msg_phone_10_digits
(* "Phone number must be 10 digits." *)
| msg_invalid_date_format
(* "Invalid date format. Use DD.MM.YYYY" *)
| msg_phone_not_found (old_phone name : str)
(* f"Phone '{old_phone}' not found for contact '{self.name.name}'." *)
| msg_contact_not_found (name : str)
(* f"Contact '{name}' not found in the address book." *)
| msg_key (key : str)
(* KeyError(key), raised by [del self.data[key]] *)
| msg_no_attribute (cls attr : string)
(* "'cls' object has no attribute 'attr'" *)
| msg_no_such_file (filename : str)
(* "[Errno 2] No such file or directory: " and repr(filename) *)
| msg_lib (what : string).

Record exn := Exn { exn_cls : exn_class; exn_msg : message }.

#[export] Instance exn_class_eq_dec : EqDecision exn_class.
Proof. solve_decision. Defined.

(** A call either returns or raises. *)
Inductive result (A : Type) :=
| Ok (a : A)
| Raise (e : exn).
Arguments Ok {A} a.
Arguments Raise {A} e.

#[export] Instance result_ret : MRet result := fun A a => Ok a.
#[export] Instance result_bind : MBind result :=
fun A B f m => match m with Ok a => f a | Raise e => Raise e end.
#[export] Instance result_fmap : FMap result :=
fun A B f m => match m with Ok a => Ok (f a) | Raise e => Raise e end.

Definition is_Ok {A} (m : result A) : Prop := exists a, m = Ok a.

(** ** Dictionaries

A [dict] keeps its items in insertion order.  Assigning to a key that
is present replaces the value where it stands; assigning to a new key
appends; [del] removes the item or raises [KeyError]. *)
Section dict.
Context {V : Type}.

Definition dict : Type := list (str * V).

Fixpoint dict_get (d : dict) (k : str) : option V :=
  match d with
  | [] => None
  | (k', v) :: d' => if decide (k' = k) then Some v else dict_get d' k
  end.

Definition dict_contains (d : dict) (k : str) : bool :=
  bool_decide (is_Some (dict_get d k)).

Fixpoint dict_setitem (d : dict) (k : str) (v : V) : dict :=
  match d with
  | [] => [(k, v)]
  | (k', v') :: d' =>
  if decide (k' = k) then (k', v) :: d'
  else (k', v') :: dict_setitem d' k v
  end.

Fixpoint dict_delitem (d : dict) (k : str) : result dict :=
  match d with
  | [] => Raise (Exn KeyError (msg_key k))
  | (k', v') :: d' =>
  if decide (k' = k) then Ok d'
  else d'' ← dict_delitem d' k; Ok ((k', v') :: d'')
  end.

Definition dict_keys (d : dict) : list str := d.*1.
Definition dict_values (d : dict) : list V := d.*2.
End dict.
Arguments dict V : clear implicits.

End Py.
Import Py.

(* ===================================================================== *)
(** * Character tables                                                    *)
(* ===================================================================== *)

Module Unicode.

Definition in_ranges (table : list (N * N)) (c : N) : bool :=
existsb (fun r => (fst r <=? c)%N && (c <=? snd r)%N) table.

(** Code points of general category Nd (Unicode 14.0, the database of
CPython 3.11): [str.isdecimal], the class [\d] of [re] on text, and
the digits [int] accepts.  Every range is a run of the ten digits
0..9 (the last one holds five such runs). *)
Definition decimal_ranges : list (N * N) :=
[(48, 57); (1632, 1641); (1776, 1785); (1984, 1993); (2406, 2415);
 (2534, 2543); (2662, 2671); (2790, 2799); (2918, 2927); (3046, 3055);
 (3174, 3183); (3302, 3311); (3430, 3439); (3558, 3567); (3664, 3673);
 (3792, 3801); (3872, 3881); (4160, 4169); (4240, 4249); (6112, 6121);
 (6160, 6169); (6470, 6479); (6608, 6617); (6784, 6793); (6800, 6809);
 (6992, 7001); (7088, 7097); (7232, 7241); (7248, 7257); (42528, 42537);
 (43216, 43225); (43264, 43273); (43472, 43481); (43504, 43513);
 (43600, 43609); (44016, 44025); (65296, 65305); (66720, 66729);
 (68912, 68921); (69734, 69743); (69872, 69881); (69942, 69951);
 (70096, 70105); (70384, 70393); (70736, 70745); (70864, 70873);
 (71248, 71257); (71360, 71369); (71472, 71481); (71904, 71913);
 (72016, 72025); (72784, 72793); (73040, 73049); (73120, 73129);
 (92768, 92777); (92864, 92873); (93008, 93017); (120782, 120831);
 (123200, 123209); (123632, 123641); (125264, 125273);
 (130032, 130041)]%N.

(** Code points whose Numeric_Type is Digit or Decimal: [str.isdigit].
Besides the decimal digits it holds superscripts (U+00B2, U+00B3,
U+00B9), subscripts, circled digits and the like. *)
Definition digit_ranges : list (N * N) :=
[(48, 57); (178, 179); (185, 185); (1632, 1641); (1776, 1785);
 (1984, 1993); (2406, 2415); (2534, 2543); (2662, 2671); (2790, 2799);
 (2918, 2927); (3046, 3055); (3174, 3183); (3302, 3311); (3430, 3439);
 (3558, 3567); (3664, 3673); (3792, 3801); (3872, 3881); (4160, 4169);
 (4240, 4249); (4969, 4977); (6112, 6121); (6160, 6169); (6470, 6479);
 (6608, 6618); (6784, 6793); (6800, 6809); (6992, 7001); (7088, 7097);
 (7232, 7241); (7248, 7257); (8304, 8304); (8308, 8313); (8320, 8329);
 (9312, 9320); (9332, 9340); (9352, 9360); (9450, 9450); (9461, 9469);
 (9471, 9471); (10102, 10110); (10112, 10120); (10122, 10130);
 (42528, 42537); (43216, 43225); (43264, 43273); (43472, 43481);
 (43504, 43513); (43600, 43609); (44016, 44025); (65296, 65305);
 (66720, 66729); (68160, 68163); (68912, 68921); (69216, 69224);
 (69714, 69722); (69734, 69743); (69872, 69881); (69942, 69951);
 (70096, 70105); (70384, 70393); (70736, 70745); (70864, 70873);
 (71248, 71257); (71360, 71369); (71472, 71481); (71904, 71913);
 (72016, 72025); (72784, 72793); (73040, 73049); (73120, 73129);
 (92768, 92777); (92864, 92873); (93008, 93017); (120782, 120831);
 (123200, 123209); (123632, 123641); (125264, 125273);
 (127232, 127242); (130032, 130041)]%N.

(** The white space [int] skips around a number. *)
Definition int_space_ranges : list (N * N) :=
[(9, 13); (32, 32); (133, 133); (160, 160); (5760, 5760); (8192, 8202);
 (8232, 8233); (8239, 8239); (8287, 8287); (12288, 12288)]%N.

Definition isdecimal (c : N) : bool := in_ranges decimal_ranges c.
Definition isdigit (c : N) : bool := in_ranges digit_ranges c.
Definition is_int_space (c : N) : bool := in_ranges int_space_ranges c.

(** The value of a decimal digit: its offset in its run of ten. *)
Definition decimal_value (c : N) : option Z :=
match find (fun r => (fst r <=? c)%N && (c <=? snd r)%N) decimal_ranges
with
| Some r => Some (Z.of_N ((c - fst r) mod 10))
| None => None
end.

(** [str.isdigit]: true when the text is not empty and all its characters
are digits. *)
Definition str_isdigit (s : str) : bool :=
negb (bool_decide (s = [])) && forallb isdigit s.

(** The ASCII digits ['0'..'9']. *)
Definition is_ascii_digit (c : N) : bool := (48 <=? c)%N && (c <=? 57)%N.

End Unicode.

(* ===================================================================== *)
(** * The [datetime] module                                               *)
(* ===================================================================== *)

Module Datetime.
Local Open Scope Z_scope.

Definition MINYEAR : Z := 1.
Definition MAXYEAR : Z := 9999.
Definition _MAXORDINAL : Z := 3652059.  (* date.max.toordinal() *)

(** [table[i]] for a list indexed by a non-negative integer. *)
Definition index (table : list Z) (i : Z) : Z := nth (Z.to_nat i) table 0.

(* -1 is a placeholder for indexing purposes. *)
Definition _DAYS_IN_MONTH : list Z :=
[-1; 31; 28; 31; 30; 31; 30; 31; 31; 30; 31; 30; 31].

(** The running sums of [_DAYS_IN_MONTH[1:]], as the module's start-up
loop builds them. *)
Definition _DAYS_BEFORE_MONTH : list Z :=
[-1; 0; 31; 59; 90; 120; 151; 181; 212; 243; 273; 304; 334].

Definition _is_leap (year : Z) : bool :=
(year mod 4 =? 0) && (negb (year mod 100 =? 0) || (year mod 400 =? 0)).

Definition _days_before_year (year : Z) : Z :=
let y := year - 1 in
y * 365 + y / 4 - y / 100 + y / 400.

Definition _days_in_month (year month : Z) : Z :=
if (month =? 2) && _is_leap year then 29
else index _DAYS_IN_MONTH month.

Definition _days_before_month (year month : Z) : Z :=
index _DAYS_BEFORE_MONTH month
+ (if (month >? 2) && _is_leap year then 1 else 0).

Definition _ymd2ord (year month day : Z) : Z :=
_days_before_year year + _days_before_month year month + day.

Definition _DI400Y : Z := _days_before_year 401.
Definition _DI100Y : Z := _days_before_year 101.
Definition _DI4Y : Z := _days_before_year 5.

Definition _ord2ymd (n : Z) : Z * Z * Z :=
let n := n - 1 in
let n400 := n / _DI400Y in
let n := n mod _DI400Y in
let year := n400 * 400 + 1 in
let n100 := n / _DI100Y in
let n := n mod _DI100Y in
let n4 := n / _DI4Y in
let n := n mod _DI4Y in
let n1 := n / 365 in
let n := n mod 365 in
let year := year + (n100 * 100 + n4 * 4 + n1) in
if (n1 =? 4) || (n100 =? 4) then (year - 1, 12, 31)
else
let leapyear := (n1 =? 3) && (negb (n4 =? 24) || (n100 =? 3)) in
let month := Z.shiftr (n + 50) 5 in
let preceding :=
index _DAYS_BEFORE_MONTH month
+ (if (month >? 2) && leapyear then 1 else 0) in
let '(month, preceding) :=
if preceding >? n then
(month - 1,
 preceding - (index _DAYS_IN_MONTH (month - 1)
    + (if (month - 1 =? 2) && leapyear then 1 else 0)))
else (month, preceding) in
let n := n - preceding in
(year, month, n + 1).

(** ** [date] *)

Record date := mkdate { year : Z; month : Z; day : Z }.

Definition _check_date_fields (y m d : Z) : result unit :=
if negb ((MINYEAR <=? y) && (y <=? MAXYEAR)) then
Raise (Exn ValueError (msg_lib "year is out of range"))
else if negb ((1 <=? m) && (m <=? 12)) then
Raise (Exn ValueError (msg_lib "month must be in 1..12"))
else if negb ((1 <=? d) && (d <=? _days_in_month y m)) then
Raise (Exn ValueError (msg_lib "day is out of range for month"))
else Ok tt.

(** [date(year, month, day)] *)
Definition date_new (y m d : Z) : result date :=
_ ← _check_date_fields y m d; Ok (mkdate y m d).

(** [self.replace(year=y)] *)
Definition date_replace_year (self : date) (y : Z) : result date :=
date_new y (month self) (day self).

Definition toordinal (self : date) : Z :=
_ymd2ord (year self) (month self) (day self).

Definition fromordinal (n : Z) : result date :=
let '(y, m, d) := _ord2ymd n in date_new y m d.

(** Monday is 0, Sunday is 6. *)
Definition weekday (self : date) : Z := (toordinal self + 6) mod 7.

(** [self < other]: the comparison of the triples (year, month, day). *)
Definition date_lt (self other : date) : bool :=
(year self <? year other)
|| ((year self =? year other)
&& ((month self <? month other)
|| ((month self =? month other) && (day self <? day other)))).

(** [(self - other).days] *)
Definition date_sub_days (self other : date) : Z :=
toordinal self - toordinal other.

(** [self + timedelta(days=n)] *)
Definition date_add_days (self : date) (n : Z) : result date :=
let o := toordinal self + n in
if (0 <? o) && (o <=? _MAXORDINAL) then fromordinal o
else Raise (Exn OverflowError (msg_lib "date value out of range")).

(** ** Formatting: [strftime("%Y.%m.%d")] *)

Fixpoint uint_digits (u : Decimal.uint) : str :=
match u with
| Decimal.Nil => []
| Decimal.D0 u => 48%N :: uint_digits u
| Decimal.D1 u => 49%N :: uint_digits u
| Decimal.D2 u => 50%N :: uint_digits u
| Decimal.D3 u => 51%N :: uint_digits u
| Decimal.D4 u => 52%N :: uint_digits u
| Decimal.D5 u => 53%N :: uint_digits u
| Decimal.D6 u => 54%N :: uint_digits u
| Decimal.D7 u => 55%N :: uint_digits u
| Decimal.D8 u => 56%N :: uint_digits u
| Decimal.D9 u => 57%N :: uint_digits u
end.

(** The decimal numeral of a non-negative integer. *)
Definition decimal (z : Z) : str := uint_digits (N.to_uint (Z.to_N z)).

(** [%m] and [%d]: two digits, zero padded. *)
Definition two_digits (z : Z) : str :=
if z <? 10 then 48%N :: decimal z else decimal z.

(** [%Y] prints the year as the C library does, without padding; from
year 1000 on it has four digits on every platform. *)
Definition strftime_Ymd (self : date) : str :=
decimal (year self) ++ text "." ++ two_digits (month self)
++ text "." ++ two_digits (day self).

(** ** [datetime] (naive: no tzinfo, fold 0) *)

Record datetime := mkdatetime {
dt_year : Z; dt_month : Z; dt_day : Z;
dt_hour : Z; dt_minute : Z; dt_second : Z; dt_microsecond : Z }.

(** [self.date()] *)
Definition datetime_date (self : datetime) : date :=
mkdate (dt_year self) (dt_month self) (dt_day self).

(** ** Parsing: [datetime.strptime(data_string, "%d.%m.%Y")]

[_strptime] turns the format into a regular expression, matches it at
the start of the text, refuses text left over, converts the groups
with [int] and builds the date.  A matcher returns the ways to match
a prefix, in the order the backtracking engine tries them, each as
(matched text, rest). *)

Definition matcher : Type := str -> list (str * str).

Definition re_class (p : N -> bool) : matcher := fun s =>
match s with
| c :: rest => if p c then [([c], rest)] else []
| [] => []
end.

Definition re_char (a : ascii) : matcher :=
re_class (N.eqb (N_of_ascii a)).

Definition re_range (lo hi : ascii) : matcher :=
re_class (fun c => (N_of_ascii lo <=? c)%N && (c <=? N_of_ascii hi)%N).

(** [\d] *)
Definition re_digit : matcher := re_class Unicode.isdecimal.

Definition re_seq (a b : matcher) : matcher := fun s =>
'(x, r) ← a s; '(y, r') ← b r; [(x ++ y, r')].

Definition re_alt (a b : matcher) : matcher := fun s => a s ++ b s.

Declare Scope re_scope.
Delimit Scope re_scope with re.
Bind Scope re_scope with matcher.
Infix "·" := re_seq (at level 40, left associativity) : re_scope.
Infix "|||" := re_alt (at level 50, left associativity) : re_scope.

(** ['d': r"(?P<d>3[0-1]|[1-2]\d|0[1-9]|[1-9]| [1-9])"] *)
Definition re_d : matcher :=
(re_char "3" · re_range "0" "1"
 ||| re_range "1" "2" · re_digit
 ||| re_char "0" · re_range "1" "9"
 ||| re_range "1" "9"
 ||| re_char " " · re_range "1" "9")%re.

(** ['m': r"(?P<m>1[0-2]|0[1-9]|[1-9])"] *)
Definition re_m : matcher :=
(re_char "1" · re_range "0" "2"
 ||| re_char "0" · re_range "1" "9"
 ||| re_range "1" "9")%re.

(** ['Y': r"(?P<Y>\d\d\d\d)"] *)
Definition re_Y : matcher :=
(re_digit · re_digit · re_digit · re_digit)%re.

(** The compiled format ["%d.%m.%Y"]: the three groups separated by
escaped dots.  Each way to match gives the groups and the rest.  (The
flag IGNORECASE changes nothing: no character folds to a digit, a dot
or a space.) *)
Definition format_regex (s : str) : list (str * str * str * str) :=
'(d, r1) ← re_d s;
'(_, r2) ← re_char "." r1;
'(m, r3) ← re_m r2;
'(_, r4) ← re_char "." r3;
'(y, r5) ← re_Y r4;
[(d, m, y, r5)].

Fixpoint drop_while {A} (p : A -> bool) (l : list A) : list A :=
match l with
| x :: l' => if p x then drop_while p l' else l
| [] => []
end.

Fixpoint digits_value (acc : Z) (s : str) : option Z :=
match s with
| [] => Some acc
| c :: rest =>
match Unicode.decimal_value c with
| Some v => digits_value (acc * 10 + v) rest
| None => None
end
end.

(** [int(s)] on the texts the groups can hold: decimal digits with white
space around them.  (Signs and underscores never reach it here and
are answered with the error.) *)
Definition py_int (s : str) : result Z :=
let body :=
rev (drop_while Unicode.is_int_space
 (rev (drop_while Unicode.is_int_space s))) in
match body, digits_value 0 body with
| _ :: _, Some z => Ok z
| _, _ => Raise (Exn ValueError (msg_lib "invalid literal for int()"))
end.

Definition strptime_dmY (data_string : str) : result datetime :=
match head (format_regex data_string) with
| None =>
Raise (Exn ValueError (msg_lib "time data does not match format"))
| Some (d, m, y, rest) =>
if negb (bool_decide (rest = [])) then
Raise (Exn ValueError (msg_lib "unconverted data remains"))
else
day ← py_int d;
month ← py_int m;
year ← py_int y;
_ ← date_new year month day;
Ok (mkdatetime year month day 0 0 0 0)
end.

End Datetime.
Import Datetime.

(* ===================================================================== *)
(** * Objects and [pickle]                                                *)
(* ===================================================================== *)

Module Objects.

(** The objects the program builds: [None], text, lists, dictionaries
keyed by text, [datetime] values, and instances of the classes of
Task_01.py, each with its class name and its [__dict__]. *)
Inductive pyobj :=
| PyNone
| PyStr (s : str)
| PyList (items : list pyobj)
| PyDict (items : dict pyobj)
| PyDatetime (d : datetime)
| PyInstance (cls : string) (attrs : dict pyobj).

(** [obj.attr]: instances keep their attributes in [__dict__]; none of
the classes here defines data attributes at class level. *)
Definition getattr (obj : pyobj) (attr : string) : result pyobj :=
match obj with
| PyInstance cls attrs =>
match dict_get attrs (text attr) with
| Some v => Ok v
| None => Raise (Exn AttributeError (msg_no_attribute cls attr))
end
| _ => Raise (Exn AttributeError (msg_no_attribute "object" attr))
end.

(** [str(obj)], for the two cases with a fixed text. *)
Definition py_str (obj : pyobj) : result str :=
match obj with
| PyStr s => Ok s
| PyNone => Ok (text "None")
| _ => Raise (Exn ValueError (msg_lib "str() of this object"))
end.

End Objects.
Import Objects.

Module Pickle.
Local Open Scope Z_scope.

(** What the pickler writes for an object, as the tree of the
instructions of protocol 4 (memo and framing left out: they share
and chunk the stream and do not change what it denotes). *)
Inductive pickled :=
| P_NONE                                   (* NONE *)
| P_UNICODE (s : str)                      (* SHORT_BINUNICODE, BINUNICODE *)
| P_BYTES (b : list Z)                     (* SHORT_BINBYTES *)
| P_TUPLE (items : list pickled)           (* EMPTY_TUPLE, TUPLE1 *)
| P_LIST (items : list pickled)            (* EMPTY_LIST MARK .. APPENDS *)
| P_DICT (items : list (pickled * pickled))(* EMPTY_DICT MARK .. SETITEMS *)
| P_GLOBAL (module name : string)          (* STACK_GLOBAL *)
| P_NEWOBJ (cls args : pickled) (state : option pickled)
                         (* cls args NEWOBJ [state BUILD] *)
| P_REDUCE (callable args : pickled).      (* callable args REDUCE *)

(** [bytes([...])] refuses integers outside [range(256)]. *)
Definition py_bytes (l : list Z) : result (list Z) :=
if forallb (fun b => (0 <=? b) && (b <? 256)) l then Ok l
else Raise (Exn ValueError (msg_lib "bytes must be in range(0, 256)")).

(** [datetime._getstate]: the ten bytes of a naive [datetime]. *)
Definition datetime_getstate (d : datetime) : result (list Z) :=
let yhi := dt_year d / 256 in
let ylo := dt_year d mod 256 in
let us2 := dt_microsecond d / 256 in
let us3 := dt_microsecond d mod 256 in
let us1 := us2 / 256 in
let us2 := us2 mod 256 in
py_bytes [yhi; ylo; dt_month d; dt_day d;
dt_hour d; dt_minute d; dt_second d; us1; us2; us3].

(** [datetime(b)] with ten bytes whose month byte is valid:
[datetime.__setstate]. *)
Definition datetime_setstate (b : list Z) : result datetime :=
match b with
| [yhi; ylo; m; d; hh; mm; ss; us1; us2; us3] =>
if (1 <=? Z.land m 127) && (Z.land m 127 <=? 12) && (m <=? 127)
then
Ok (mkdatetime (yhi * 256 + ylo) m d hh mm ss
(Z.lor (Z.shiftl (Z.lor (Z.shiftl us1 8) us2) 8) us3))
else Raise (Exn ValueError (msg_lib "bad datetime state"))
| _ => Raise (Exn ValueError (msg_lib "bad datetime state"))
end.

(** [Pickler.save]: text, [None], lists and dictionaries have their own
instructions; a [datetime] is reduced to its class and state bytes;
an instance of a plain class is reduced by [object.__reduce_ex__] to
[copyreg.__newobj__], its class, and its [__dict__] as state (no
state when the [__dict__] is empty). *)
Fixpoint save (obj : pyobj) : result pickled :=
match obj with
| PyNone => Ok P_NONE
| PyStr s => Ok (P_UNICODE s)
| PyList items => P_LIST <$> mapM save items
| PyDict items =>
P_DICT <$> mapM (fun kv => v ← save kv.2; Ok (P_UNICODE kv.1, v)) items
| PyDatetime d =>
b ← datetime_getstate d;
Ok (P_REDUCE (P_GLOBAL "datetime" "datetime") (P_TUPLE [P_BYTES b]))
| PyInstance cls attrs =>
state ← mapM (fun kv => v ← save kv.2; Ok (P_UNICODE kv.1, v)) attrs;
Ok (P_NEWOBJ (P_GLOBAL "__main__" cls) (P_TUPLE [])
(match state with [] => None | _ => Some (P_DICT state) end))
end.

(** The classes [find_class] can resolve: those of [__main__] (the
program) and [datetime.datetime]. *)
Definition main_classes : list string :=
["Field"; "Name"; "Phone"; "Birthday"; "Record"; "AddressBook"].

Inductive class_ref := C_datetime | C_main (cls : string).

Definition find_class (module name : string) : result class_ref :=
if bool_decide (module = "datetime" ∧ name = "datetime") then
Ok C_datetime
else if bool_decide (module = "__main__" ∧ name ∈ main_classes) then
Ok (C_main name)
else Raise (Exn AttributeError (msg_no_attribute module name)).

(** [d[k] = v] for each loaded item, in order, starting from [acc]. *)
Definition setitems (acc : dict pyobj) (items : list (str * pyobj))
: dict pyobj :=
foldl (fun d kv => dict_setitem d kv.1 kv.2) acc items.

Definition load_key (p : pickled) : result str :=
match p with
| P_UNICODE s => Ok s
| _ => Raise (Exn UnpicklingError (msg_lib "key is not text"))
end.

(** [Unpickler.load] on the trees above.  [NEWOBJ] calls
[cls.__new__(cls)] (no [__init__]); [BUILD] updates the fresh
[__dict__] with the state; [REDUCE] calls [datetime] on its bytes.
Trees of another shape are answered with [UnpicklingError]. *)
Fixpoint load (p : pickled) : result pyobj :=
match p with
| P_NONE => Ok PyNone
| P_UNICODE s => Ok (PyStr s)
| P_LIST items => PyList <$> mapM load items
| P_DICT items =>
kvs ← mapM (fun kv => k ← load_key kv.1; v ← load kv.2; Ok (k, v))
items;
Ok (PyDict (setitems [] kvs))
| P_REDUCE (P_GLOBAL module name) (P_TUPLE [P_BYTES b]) =>
c ← find_class module name;
match c with
| C_datetime => PyDatetime <$> datetime_setstate b
| C_main _ =>
Raise (Exn UnpicklingError (msg_lib "unsupported pickle"))
end
| P_NEWOBJ (P_GLOBAL module name) (P_TUPLE []) state =>
c ← find_class module name;
match c, state with
| C_main cls, None => Ok (PyInstance cls [])
| C_main cls, Some (P_DICT items) =>
kvs ← mapM (fun kv => k ← load_key kv.1; v ← load kv.2;
              Ok (k, v)) items;
Ok (PyInstance cls (setitems [] kvs))
| _, _ => Raise (Exn UnpicklingError (msg_lib "unsupported pickle"))
end
| _ => Raise (Exn UnpicklingError (msg_lib "unsupported pickle"))
end.

(** [pickle.dump] and [pickle.load] on a whole object. *)
Definition dumps (obj : pyobj) : result pickled := save obj.
Definition loads (blob : pickled) : result pyobj := load blob.

End Pickle.

(* ===================================================================== *)
(** * Task_01.py                                                          *)
(* ===================================================================== *)

(** ** Fields

    [Name.__init__] stores its argument as [self.name], [Phone.__init__] as
    [self.number]; neither calls [Field.__init__].  [Birthday.__init__]
    stores [self.date] and [self.value]. *)

Record Name := mkName { Name_name : str }.
Record Phone := mkPhone { Phone_number : str }.
Record Birthday := mkBirthday { Birthday_date : datetime; Birthday_value : str }.

Definition Name_init (name : str) : Name := mkName name.

Definition Phone_init (number : str) : result Phone :=
  if negb (length number =? 10)%nat || negb (Unicode.str_isdigit number) then
    Raise (Exn ValueError msg_phone_10_digits)
  else Ok (mkPhone number).

Definition Birthday_init (value : str) : result Birthday :=
  match strptime_dmY value with
  | Ok date => Ok (mkBirthday date value)
  | Raise e =>
      if decide (exn_cls e = ValueError) then
        Raise (Exn ValueError msg_invalid_date_format)
      else Raise e
  end.

(** The instances as objects: class name and [__dict__], the attributes in
    the order [__init__] assigns them. *)
Definition Name_obj (n : Name) : pyobj :=
  PyInstance "Name" [(text "name", PyStr (Name_name n))].

Definition Phone_obj (p : Phone) : pyobj :=
  PyInstance "Phone" [(text "number", PyStr (Phone_number p))].

Definition Birthday_obj (b : Birthday) : pyobj :=
  PyInstance "Birthday"
    [(text "date", PyDatetime (Birthday_date b));
     (text "value", PyStr (Birthday_value b))].

(** An instance of one of the three subclasses of [Field]. *)
Inductive Field :=
| F_Name (n : Name)
| F_Phone (p : Phone)
| F_Birthday (b : Birthday).

Definition Field_obj (self : Field) : pyobj :=
  match self with
  | F_Name n => Name_obj n
  | F_Phone p => Phone_obj p
  | F_Birthday b => Birthday_obj b
  end.

(** [Field.__str__]: [return str(self.value)], inherited by the three
    subclasses. *)
Definition Field_str (self : Field) : result str :=
  value ← getattr (Field_obj self) "value"; py_str value.

(** ** Record *)

Record Record_ := mkRecord {
  Record_name : Name;
  Record_phones : list Phone;
  Record_birthday : option Birthday }.

(** [Record(name, *phones, birthday=None)]; an empty text is false. *)
Definition Record_init (name : str) (phones : list str)
    (birthday : option str) : result Record_ :=
  let n := Name_init name in
  ps ← mapM Phone_init phones;
  b ← match birthday with
      | Some (c :: s) => Some <$> Birthday_init (c :: s)
      | Some [] | None => Ok None
      end;
  Ok (mkRecord n ps b).

Definition Record_add_phone (self : Record_) (phone : str) : result Record_ :=
  p ← Phone_init phone;
  Ok (mkRecord (Record_name self) (Record_phones self ++ [p])
        (Record_birthday self)).

Definition Record_remove_phone (self : Record_) (phone : str) : Record_ :=
  mkRecord (Record_name self)
    (filter (fun p => Phone_number p ≠ phone) (Record_phones self))
    (Record_birthday self).

(** The loop of [edit_phone]: the first phone whose number is [old_phone]
    gets [new_phone] as its number and the loop stops; [None] when the loop
    runs to its end (the [else] branch). *)
Fixpoint edit_phone_loop (phones : list Phone) (old_phone new_phone : str)
  : option (list Phone) :=
  match phones with
  | [] => None
  | p :: rest =>
      if decide (Phone_number p = old_phone) then
        Some (mkPhone new_phone :: rest)
      else (fun rest' => p :: rest') <$> edit_phone_loop rest old_phone new_phone
  end.

Definition Record_edit_phone (self : Record_) (old_phone new_phone : str)
  : result Record_ :=
  match edit_phone_loop (Record_phones self) old_phone new_phone with
  | Some phones => Ok (mkRecord (Record_name self) phones (Record_birthday self))
  | None =>
      Raise (Exn ValueError
               (msg_phone_not_found old_phone (Name_name (Record_name self))))
  end.

Fixpoint Record_find_phone_loop (phones : list Phone) (phone : str)
  : option Phone :=
  match phones with
  | [] => None
  | p :: rest =>
      if decide (Phone_number p = phone) then Some p
      else Record_find_phone_loop rest phone
  end.

Definition Record_find_phone (self : Record_) (phone : str) : option Phone :=
  Record_find_phone_loop (Record_phones self) phone.

Definition Record_add_birthday (self : Record_) (birthday : str)
  : result Record_ :=
  b ← Birthday_init birthday;
  Ok (mkRecord (Record_name self) (Record_phones self) (Some b)).

Definition Record_obj (r : Record_) : pyobj :=
  PyInstance "Record"
    [(text "name", Name_obj (Record_name r));
     (text "phones", PyList (Phone_obj <$> Record_phones r));
     (text "birthday", from_option Birthday_obj PyNone (Record_birthday r))].

(** ** AddressBook

    A [UserDict]: its items live in the attribute [data].  A record found
    with [find_record] is the object stored under that key, so a method
    that mutates it changes the value under the key and leaves the order of
    the items alone ([mutate_record]). *)

Record AddressBook := mkAddressBook { AddressBook_data : dict Record_ }.

(** [AddressBook()] *)
Definition AddressBook_init : AddressBook := mkAddressBook [].

Definition AddressBook_add_record (self : AddressBook) (record : Record_)
  : AddressBook :=
  mkAddressBook
    (dict_setitem (AddressBook_data self) (Name_name (Record_name record))
       record).

Definition AddressBook_delete_record (self : AddressBook) (name : str)
  : result AddressBook :=
  data ← dict_delitem (AddressBook_data self) name; Ok (mkAddressBook data).

Definition AddressBook_find_record (self : AddressBook) (name : str)
  : option Record_ :=
  if dict_contains (AddressBook_data self) name then
    dict_get (AddressBook_data self) name
  else None.

Definition mutate_record (self : AddressBook) (name : str) (record : Record_)
  : AddressBook :=
  mkAddressBook (dict_setitem (AddressBook_data self) name record).

Definition AddressBook_add_phone (self : AddressBook) (name phone : str)
  : result AddressBook :=
  match AddressBook_find_record self name with
  | Some record =>
      record' ← Record_add_phone record phone;
      Ok (mutate_record self name record')
  | None =>
      record ← Record_init name [phone] None;
      Ok (AddressBook_add_record self record)
  end.

Definition AddressBook_delete_phone (self : AddressBook) (name phone : str)
  : result AddressBook :=
  match AddressBook_find_record self name with
  | Some record =>
      Ok (mutate_record self name (Record_remove_phone record phone))
  | None => Raise (Exn KeyError (msg_contact_not_found name))
  end.

Definition AddressBook_change_phone (self : AddressBook)
    (name old_phone new_phone : str) : result AddressBook :=
  match AddressBook_find_record self name with
  | Some record =>
      record' ← Record_edit_phone record old_phone new_phone;
      Ok (mutate_record self name record')
  | None => Raise (Exn KeyError (msg_contact_not_found name))
  end.

Definition AddressBook_add_birthday (self : AddressBook) (name birthday : str)
  : result AddressBook :=
  match AddressBook_find_record self name with
  | Some record =>
      record' ← Record_add_birthday record birthday;
      Ok (mutate_record self name record')
  | None => Raise (Exn KeyError (msg_contact_not_found name))
  end.

Definition AddressBook_obj (a : AddressBook) : pyobj :=
  PyInstance "AddressBook"
    [(text "data", PyDict (prod_map id Record_obj <$> AddressBook_data a))].

(** ** Upcoming birthdays *)

Local Open Scope Z_scope.

(** One item of the returned list: the dictionary with the keys ["name"]
    and ["congratulation_date"]. *)
Record congratulation := mkCongratulation {
  cg_name : str;
  cg_congratulation_date : str }.

(** [birthday_this_year] as it stands before the window test: the birthday
    moved to this year, and to the next one when it is already past. *)
Definition birthday_this_year (today birthday : date) : result date :=
  this_year ← date_replace_year birthday (year today);
  if date_lt this_year today then date_replace_year this_year (year today + 1)
  else Ok this_year.

(** The weekend move of the loop body. *)
Definition weekend_shift (birthday_this_year : date) : result date :=
  let weekday := weekday birthday_this_year in
  if weekday =? 5 then date_add_days birthday_this_year 2
  else if weekday =? 6 then date_add_days birthday_this_year 1
  else Ok birthday_this_year.

(** The body of the loop over [address_book.values()]. *)
Definition upcoming_body (today : date) (days : Z)
    (upcoming_birthdays : list congratulation) (record : Record_)
  : result (list congratulation) :=
  match Record_birthday record with
  | Some b =>
      let birthday := datetime_date (Birthday_date b) in
      bty ← birthday_this_year today birthday;
      let days_until_birthday := date_sub_days bty today in
      if days_until_birthday <=? days then
        bty ← weekend_shift bty;
        Ok (upcoming_birthdays
              ++ [mkCongratulation (Name_name (Record_name record))
                    (strftime_Ymd bty)])
      else Ok upcoming_birthdays
  | None => Ok upcoming_birthdays
  end.

Fixpoint for_each {A S} (body : S -> A -> result S) (acc : S) (l : list A)
  : result S :=
  match l with
  | [] => Ok acc
  | x :: l' => acc' ← body acc x; for_each body acc' l'
  end.

(** [get_upcoming_birthdays(address_book, days)], with the value of
    [datetime.today().date()] as the argument [today]. *)
Definition get_upcoming_birthdays (address_book : AddressBook) (today : date)
    (days : Z) : result (list congratulation) :=
  for_each (upcoming_body today days) []
    (dict_values (AddressBook_data address_book)).

Local Close Scope Z_scope.

(** ** Persistence

    [open] turns the text of a path into a file of the host system, or
    raises.  What a text names is the business of the host: several texts
    can name one file, and some texts, the empty one among them, name
    none.  The right to read or to write a file is the host's business
    too.  Neither changes while the program runs.  The files considered
    hold a complete pickle or nothing, and a file once opened is written
    to its end. *)

Inductive open_mode := mode_rb | mode_wb.

Record host := mkHost {
  (* The file a path names, or the exception [open] raises for a path
     that names none: [FileNotFoundError] for the empty text or a missing
     directory, [ValueError] for a text with a null character. *)
  locate : str -> result str;
  (* The exception [open] raises for a file it may not open in a mode,
     [PermissionError] or [IsADirectoryError] (both [OSError]), if any. *)
  denied : str -> open_mode -> option exn }.

Inductive file_content :=
| Pickled (blob : Pickle.pickled)
| Empty.

(** The files that exist, under the names [locate] gives them. *)
Abbreviation filesystem := (gmap str file_content).

Definition default_filename : str := text "addressbook.pkl".

(** [open(filename, "rb")]: what the file holds. *)
Definition open_rb (h : host) (files : filesystem) (filename : str)
  : result file_content :=
  file ← locate h filename;
  match denied h file mode_rb with
  | Some e => Raise e
  | None =>
      match files !! file with
      | Some content => Ok content
      | None => Raise (Exn FileNotFoundError (msg_no_such_file filename))
      end
  end.

(** [open(filename, "wb")]: the file to write, which [open] creates or
    empties. *)
Definition open_wb (h : host) (filename : str) : result str :=
  file ← locate h filename;
  match denied h file mode_wb with
  | Some e => Raise e
  | None => Ok file
  end.

(** [save_data(book, filename)]: when [open] raises nothing is written;
    otherwise [pickle.dump] fills the emptied file, and leaves it empty
    when it raises. *)
Definition save_data (h : host) (book : AddressBook) (filename : str)
    (files : filesystem) : filesystem * result unit :=
  match open_wb h filename with
  | Raise e => (files, Raise e)
  | Ok file =>
      match Pickle.dumps (AddressBook_obj book) with
      | Ok blob => (<[file := Pickled blob]> files, Ok tt)
      | Raise e => (<[file := Empty]> files, Raise e)
      end
  end.

(** The objects the rest of the program can use as an address book. *)
Definition as_Name (o : pyobj) : option Name :=
  match o with
  | PyInstance cls [(k, PyStr s)] =>
      if bool_decide (cls = "Name"%string ∧ k = text "name") then Some (mkName s)
      else None
  | _ => None
  end.

Definition as_Phone (o : pyobj) : option Phone :=
  match o with
  | PyInstance cls [(k, PyStr s)] =>
      if bool_decide (cls = "Phone"%string ∧ k = text "number") then
        Some (mkPhone s)
      else None
  | _ => None
  end.

Definition as_Birthday (o : pyobj) : option Birthday :=
  match o with
  | PyInstance cls [(k1, PyDatetime d); (k2, PyStr s)] =>
      if bool_decide (cls = "Birthday"%string ∧ k1 = text "date"
                      ∧ k2 = text "value")
      then Some (mkBirthday d s) else None
  | _ => None
  end.

Definition as_Record (o : pyobj) : option Record_ :=
  match o with
  | PyInstance cls [(k1, n); (k2, PyList ps); (k3, b)] =>
      if bool_decide (cls = "Record"%string ∧ k1 = text "name"
                      ∧ k2 = text "phones" ∧ k3 = text "birthday")
      then
        n' ← as_Name n;
        ps' ← mapM as_Phone ps;
        b' ← match b with
             | PyNone => Some None
             | _ => Some <$> as_Birthday b
             end;
        Some (mkRecord n' ps' b')
      else None
  | _ => None
  end.

Definition as_AddressBook (o : pyobj) : option AddressBook :=
  match o with
  | PyInstance cls [(k, PyDict items)] =>
      if bool_decide (cls = "AddressBook"%string ∧ k = text "data") then
        mkAddressBook <$>
          mapM (fun kv => r ← as_Record kv.2; Some (kv.1, r)) items
      else None
  | _ => None
  end.

(** [pickle.load(f)]: the object of a pickle; [EOFError] on an empty
    file. *)
Definition pickle_load (content : file_content) : result pyobj :=
  match content with
  | Pickled blob => Pickle.loads blob
  | Empty => Raise (Exn EOFError (msg_lib "Ran out of input"))
  end.

(** [load_data(filename)]: the object the file holds, whatever it is; a
    new, empty address book when the [try] block raises
    [FileNotFoundError]; any other exception is raised. *)
Definition load_data (h : host) (filename : str) (files : filesystem)
  : result pyobj :=
  match content ← open_rb h files filename; pickle_load content with
  | Ok obj => Ok obj
  | Raise e =>
      if decide (exn_cls e = FileNotFoundError) then
        Ok (AddressBook_obj AddressBook_init)
      else Raise e
  end.

(** ** Commands

    What the program writes on its standard output: a line printed, the
    prompt of [input], or the line of [input_error], which is the text
    ["Input error: "] followed by [str(e)] (for a [KeyError] that is the
    [repr] of its message). *)
Inductive printed :=
| print_line (s : str)
| input_prompt (s : str)
| print_input_error (e : exn).

(** [sep.join(items)] *)
Fixpoint join (sep : str) (items : list str) : str :=
  match items with
  | [] => []
  | x :: rest =>
      match rest with
      | [] => x
      | _ :: _ => x ++ sep ++ join sep rest
      end
  end.

(** A command returns with the directory as it leaves it and the lines it
    printed, or raises. *)
Definition outcome : Type := AddressBook * list printed.

(** [except (KeyError, ValueError, IndexError)], over the classes the
    program can meet: no code of the program raises [IndexError]. *)
Definition caught_by_input_error (cls : exn_class) : bool :=
  match cls with
  | KeyError | ValueError => true
  | AttributeError | OverflowError | UnpicklingError
  | FileNotFoundError | OSError | EOFError => false
  end.

(** [@input_error]: the wrapper returns what the function returns and
    turns a caught exception into a printed line.  The functions it wraps
    raise before they change the directory or print, so the directory is
    then the one of the call. *)
Definition input_error (address_book : AddressBook) (call : result outcome)
  : result outcome :=
  match call with
  | Ok r => Ok r
  | Raise e =>
      if caught_by_input_error (exn_cls e) then
        Ok (address_book, [print_input_error e])
      else Raise e
  end.

(** [', '.join([p.number for p in record.phones])] *)
Definition numbers_text (record : Record_) : str :=
  join (text ", ") (Phone_number <$> Record_phones record).

Definition add_contact (address_book : AddressBook) (name : str)
    (numbers : list str) : result outcome :=
  input_error address_book
    (record ← Record_init name numbers None;
     Ok (AddressBook_add_record address_book record,
         [print_line
            (text "Contact '" ++ name ++ text "' with number(s) '"
             ++ join (text ", ") numbers ++ text "' added successfully.")])).

Definition change_contact (address_book : AddressBook)
    (name old_number new_number : str) : result outcome :=
  input_error address_book
    (address_book' ←
       AddressBook_change_phone address_book name old_number new_number;
     Ok (address_book',
         [print_line
            (text "Number for contact '" ++ name ++ text "' changed from '"
             ++ old_number ++ text "' to '" ++ new_number ++ text "'.")])).

Definition show_phone (address_book : AddressBook) (name : str)
  : result outcome :=
  input_error address_book
    (match AddressBook_find_record address_book name with
     | Some record =>
         Ok (address_book,
             [print_line
                (text "The phone number(s) for '" ++ name ++ text "' is/are "
                 ++ numbers_text record ++ text ".")])
     | None =>
         Ok (address_book,
             [print_line
                (text "No phone number found for contact '" ++ name
                 ++ text "'.")])
     end).

(** The lines of one turn of the loop of [show_all_contacts]. *)
Definition contact_lines (item : str * Record_) : list printed :=
  print_line (item.1 ++ text ": " ++ numbers_text item.2)
  :: match Record_birthday item.2 with
     | Some birthday => [print_line (text "Birthday: " ++ Birthday_value birthday)]
     | None => []
     end.

Definition show_all_contacts (address_book : AddressBook) : result outcome :=
  input_error address_book
    (Ok (address_book,
         print_line (text "All contacts in the address book:")
         :: concat (contact_lines <$> AddressBook_data address_book))).

Definition add_contact_birthday (address_book : AddressBook)
    (name birthday : str) : result outcome :=
  input_error address_book
    (address_book' ← AddressBook_add_birthday address_book name birthday;
     Ok (address_book',
         [print_line
            (text "Birthday '" ++ birthday ++ text "' added for contact '"
             ++ name ++ text "'.")])).

Definition show_birthday (address_book : AddressBook) (name : str)
  : result outcome :=
  input_error address_book
    (match AddressBook_find_record address_book name with
     | Some (mkRecord _ _ (Some birthday)) =>
         Ok (address_book,
             [print_line
                (text "The birthday for '" ++ name ++ text "' is "
                 ++ Birthday_value birthday ++ text ".")])
     | _ =>
         Ok (address_book,
             [print_line
                (text "No birthday found for contact '" ++ name
                 ++ text "'.")])
     end).

(** ** The main loop *)

(** [str.isspace] of one character; [str.strip] and [str.split] without
    arguments cut at these characters. *)
Definition space_ranges : list (N * N) :=
  [(9, 13); (28, 32); (133, 133); (160, 160); (5760, 5760); (8192, 8202);
   (8232, 8233); (8239, 8239); (8287, 8287); (12288, 12288)]%N.

Definition isspace (c : N) : bool := Unicode.in_ranges space_ranges c.

(** [s.strip()] *)
Definition str_strip (s : str) : str :=
  reverse (drop_while isspace (reverse (drop_while isspace s))).

(** [s.split()]: the words between runs of white space; [word] is the
    part of the current word already read. *)
Fixpoint split_from (word : str) (s : str) : list str :=
  match s with
  | [] => match word with [] => [] | _ :: _ => [word] end
  | c :: s' =>
      if isspace c then
        match word with
        | [] => split_from [] s'
        | _ :: _ => word :: split_from [] s'
        end
      else split_from (word ++ [c]) s'
  end.

Definition str_split (s : str) : list str := split_from [] s.

(** The [match cmd] statement of [main], with the value of
    [datetime.today().date()] as the argument [today]. *)
Definition invalid_arguments (address_book : AddressBook) (cmd : string)
  : result outcome :=
  Ok (address_book,
      [print_line
         (text "Invalid number of arguments for '" ++ text cmd
          ++ text "' command.")]).

Definition birthday_line (birthday : congratulation) : printed :=
  print_line
    (cg_name birthday ++ text " has a birthday on "
     ++ cg_congratulation_date birthday).

Definition dispatch (today : date) (address_book : AddressBook) (cmd : str)
    (args : list str) : result outcome :=
  if decide (cmd = text "hello") then
    Ok (address_book, [print_line (text "How can I help you?")])
  else if decide (cmd = text "add") then
    match args with
    | name :: ((_ :: _) as numbers) =>
        add_contact address_book name numbers
    | _ => invalid_arguments address_book "add"
    end
  else if decide (cmd = text "change") then
    match args with
    | [name; old_number; new_number] =>
        change_contact address_book name old_number new_number
    | _ => invalid_arguments address_book "change"
    end
  else if decide (cmd = text "phone") then
    match args with
    | [name] => show_phone address_book name
    | _ => invalid_arguments address_book "phone"
    end
  else if decide (cmd = text "all") then show_all_contacts address_book
  else if decide (cmd = text "add-birthday") then
    match args with
    | [name; birthday] => add_contact_birthday address_book name birthday
    | _ => invalid_arguments address_book "add-birthday"
    end
  else if decide (cmd = text "show-birthday") then
    match args with
    | [name] => show_birthday address_book name
    | _ => invalid_arguments address_book "show-birthday"
    end
  else if decide (cmd = text "birthdays") then
    upcoming_birthdays ← get_upcoming_birthdays address_book today 7;
    match upcoming_birthdays with
    | _ :: _ =>
        Ok (address_book,
            print_line (text "Upcoming birthdays in the next 7 days:")
            :: (birthday_line <$> upcoming_birthdays))
    | [] =>
        Ok (address_book,
            [print_line (text "No upcoming birthdays in the next 7 days.")])
    end
  else Ok (address_book, [print_line (text "Invalid command. Type again!")]).

(** How [main] ends: with the [break] that follows a save of the directory
    it holds; with an exception it does not catch; or, when [input] finds
    no further line, with the [EOFError] of [input], holding a directory
    it has not saved.  When [load_data] returns an object that is no
    address book of the program, [main] goes on with that object: this is
    not followed here. *)
Inductive ending :=
| Exited (address_book : AddressBook)
| Failed (e : exn)
| EndOfInput (address_book : AddressBook)
| Foreign (obj : pyobj).

Section main.
(** [str.lower], left open: the loop is the same whatever it answers. *)
Variable lower : str -> str.
Variable h : host.

Definition parse_input (command : str) : str * list str :=
  match str_split command with
  | part :: parts => (lower part, parts)
  | [] => ([], [])
  end.

(** The loop of [main], over the lines [input] will read, each with the
    date of the day it is read; the files and the output so far are
    threaded through. *)
Fixpoint main_loop (address_book : AddressBook) (files : filesystem)
    (out : list printed) (inputs : list (str * date))
  : list printed * ending * filesystem :=
  match inputs with
  | [] =>
      (out ++ [input_prompt (text "Enter a command: ")],
       EndOfInput address_book, files)
  | (line, today) :: inputs' =>
      let out := out ++ [input_prompt (text "Enter a command: ")] in
      let command := str_strip line in
      if bool_decide (lower command ∈ [text "close"; text "exit"]) then
        match save_data h address_book default_filename files with
        | (files', Ok _) =>
            (out ++ [print_line (text "Good bye!")], Exited address_book,
             files')
        | (files', Raise e) => (out, Failed e, files')
        end
      else
        let '(cmd, args) := parse_input command in
        match dispatch today address_book cmd args with
        | Ok (address_book', lines) =>
            main_loop address_book' files (out ++ lines) inputs'
        | Raise e => (out, Failed e, files)
        end
  end.

Definition main (files : filesystem) (inputs : list (str * date))
  : list printed * ending * filesystem :=
  let out := [print_line (text "Welcome to the assistant bot! ver 0.9")] in
  match load_data h default_filename files with
  | Ok obj =>
      match as_AddressBook obj with
      | Some address_book => main_loop address_book files out inputs
      | None => (out, Foreign obj, files)
      end
  | Raise e => (out, Failed e, files)
  end.
End main.

(* ===================================================================== *)
(** * Vocabulary of the specification                                     *)
(* ===================================================================== *)

(** The two recoverable errors.  [InvalidFormat] is what the field
    constructors raise; [NotFound] is a [KeyError], or the [ValueError]
    [edit_phone] raises for a missing number. *)
Definition InvalidFormat (e : exn) : Prop :=
  e = Exn ValueError msg_phone_10_digits
  \/ e = Exn ValueError msg_invalid_date_format.

Definition NotFound (e : exn) : Prop :=
  exn_cls e = KeyError
  \/ exists old_phone name,
       e = Exn ValueError (msg_phone_not_found old_phone name).

(** A decimal digit: a character of category Nd, the ASCII digits among
    them. *)
Definition decimal_digit (c : N) : Prop := Unicode.isdecimal c = true.
Definition ascii_digit (c : N) : Prop := Unicode.is_ascii_digit c = true.

(** A digit in the sense of [str.isdigit]. *)
Definition digit_character (c : N) : Prop := Unicode.isdigit c = true.

(** Ten times SUPERSCRIPT TWO (U+00B2). *)
Definition superscript_twos : str := repeat 178%N 10.

(** The texts [Phone] accepts (see [Phone_init_Ok]). *)
Definition valid_phone (s : str) : Prop :=
  length s = 10%nat /\ Forall digit_character s.

(** The invariant of the directory: every key is the name of its record. *)
Definition keys_match (book : AddressBook) : Prop :=
  Forall (fun kv => kv.1 = Name_name (Record_name kv.2))
    (AddressBook_data book).

(** The phone numbers of a record, as text. *)
Definition phone_numbers (r : Record_) : list str :=
  Phone_number <$> Record_phones r.

(** A [date] object always holds fields that [_check_date_fields]
    accepts; likewise a [datetime], whose time fields are in range. *)
Definition valid_date (d : date) : Prop :=
  (1 <= year d <= 9999
   /\ 1 <= month d <= 12
   /\ 1 <= day d <= _days_in_month (year d) (month d))%Z.

Definition valid_datetime (d : datetime) : Prop :=
  valid_date (datetime_date d)
  /\ (0 <= dt_hour d < 24 /\ 0 <= dt_minute d < 60 /\ 0 <= dt_second d < 60
      /\ 0 <= dt_microsecond d < 1000000)%Z.

(** The projected birthday of a record: the value of [birthday_this_year]
    when the window is tested, if the record has a birthday and moving it
    to the year raises nothing. *)
Definition projected (today : date) (record : Record_) : option date :=
  match Record_birthday record with
  | Some b =>
      match birthday_this_year today (datetime_date (Birthday_date b)) with
      | Ok p => Some p
      | Raise _ => None
      end
  | None => None
  end.

(** The records without a birthday and those whose birthday can be moved
    to the year. *)
Definition can_project (today : date) (record : Record_) : Prop :=
  forall b, Record_birthday record = Some b -> is_Some (projected today record).

(** The records the window lets in. *)
Definition included (today : date) (days : Z) (record : Record_) : bool :=
  match projected today record with
  | Some p => (date_sub_days p today <=? days)%Z
  | None => false
  end.

(** [item] congratulates [record] on its projected birthday [p], moved
    past the weekend: two days later when [p] is a Saturday, one day later
    when it is a Sunday, [p] itself otherwise.  "[k] days later" is the
    valid date whose day number is [k] more. *)
Definition congratulates (today : date) (record : Record_)
    (item : congratulation) : Prop :=
  exists p q,
    projected today record = Some p
    /\ cg_name item = Name_name (Record_name record)
    /\ cg_congratulation_date item = strftime_Ymd q
    /\ valid_date q
    /\ (weekday p = 5 -> toordinal q = toordinal p + 2)%Z
    /\ (weekday p = 6 -> toordinal q = toordinal p + 1)%Z
    /\ (weekday p <> 5 -> weekday p <> 6 -> q = p)%Z.

(** *** Well-formed objects and directories

    What every object of the running program satisfies: a [datetime] holds
    valid fields, a dictionary (a [__dict__] too) has no key twice, and an
    instance belongs to a class of the program. *)
Fixpoint wf_obj (o : pyobj) : Prop :=
  match o with
  | PyNone | PyStr _ => True
  | PyList items => foldr (fun x acc => wf_obj x /\ acc) True items
  | PyDict items =>
      NoDup (dict_keys items)
      /\ foldr (fun kv acc => wf_obj kv.2 /\ acc) True items
  | PyDatetime d => valid_datetime d
  | PyInstance cls attrs =>
      cls ∈ Pickle.main_classes /\ NoDup (dict_keys attrs)
      /\ foldr (fun kv acc => wf_obj kv.2 /\ acc) True attrs
  end.

Definition wf_record (r : Record_) : Prop :=
  forall b, Record_birthday r = Some b -> valid_datetime (Birthday_date b).

Definition wf_book (book : AddressBook) : Prop :=
  NoDup (dict_keys (AddressBook_data book))
  /\ Forall (fun kv => wf_record kv.2) (AddressBook_data book).

(** *** Sessions

    The operations of the directory, and saving and loading, applied in
    sequence to the directory in use and the files.  An operation that
    raises leaves the directory as it was: every method raises before its
    first assignment.  A load that raises, or that finds an object that is
    no address book of the program, leaves the directory in use. *)
Inductive operation :=
| op_add_record (record : Record_)
| op_delete_record (name : str)
| op_add_phone (name phone : str)
| op_delete_phone (name phone : str)
| op_change_phone (name old_phone new_phone : str)
| op_add_birthday (name birthday : str)
| op_save (filename : str)
| op_load (filename : str).

Record session := mkSession {
  session_book : AddressBook;
  session_files : filesystem }.

Definition keep (s : session) (outcome : result AddressBook) : session :=
  match outcome with
  | Ok book => mkSession book (session_files s)
  | Raise _ => s
  end.

(** The address book a load brings, if it brings one. *)
Definition loaded_book (loaded : result pyobj) : option AddressBook :=
  match loaded with
  | Ok obj => as_AddressBook obj
  | Raise _ => None
  end.

Definition step (h : host) (s : session) (o : operation) : session :=
  let book := session_book s in
  match o with
  | op_add_record record => keep s (Ok (AddressBook_add_record book record))
  | op_delete_record name => keep s (AddressBook_delete_record book name)
  | op_add_phone name phone => keep s (AddressBook_add_phone book name phone)
  | op_delete_phone name phone =>
      keep s (AddressBook_delete_phone book name phone)
  | op_change_phone name old_phone new_phone =>
      keep s (AddressBook_change_phone book name old_phone new_phone)
  | op_add_birthday name birthday =>
      keep s (AddressBook_add_birthday book name birthday)
  | op_save filename =>
      mkSession book (save_data h book filename (session_files s)).1
  | op_load filename =>
      match loaded_book (load_data h filename (session_files s)) with
      | Some book' => mkSession book' (session_files s)
      | None => s
      end
  end.

Definition run (h : host) (ops : list operation) (s : session) : session :=
  foldl (step h) s ops.

(** A session starts with an empty directory; the first one finds no
    file. *)
Definition new_session : session := mkSession AddressBook_init ∅.

(** The records handed to [add_record] are objects of the program. *)
Definition wf_operation (o : operation) : Prop :=
  match o with
  | op_add_record record => wf_record record
  | _ => True
  end.

(** *** The texts [strptime] reads with the format ["%d.%m.%Y"]

    The day is "30" or "31", or "1" or "2" and a decimal digit, or "0" and
    a digit from 1 to 9, or one digit from 1 to 9, alone or after a space;
    the month is "10", "11" or "12", or a digit from 1 to 9, alone or after
    "0"; the year is four decimal digits.  Each text comes with the number
    it stands for. *)
Definition char_in (lo hi : ascii) (c : N) : Prop :=
  (N_of_ascii lo <= c <= N_of_ascii hi)%N.

Definition ascii_value (c : N) : Z := (Z.of_N c - 48)%Z.

Inductive day_text : str -> Z -> Prop :=
| day_3x c :
    char_in "0" "1" c -> day_text [51%N; c] (30 + ascii_value c)
| day_12x a c v :
    char_in "1" "2" a -> Unicode.decimal_value c = Some v ->
    day_text [a; c] (10 * ascii_value a + v)
| day_0x c :
    char_in "1" "9" c -> day_text [48%N; c] (ascii_value c)
| day_x c :
    char_in "1" "9" c -> day_text [c] (ascii_value c)
| day_space_x c :
    char_in "1" "9" c -> day_text [32%N; c] (ascii_value c).

Inductive month_text : str -> Z -> Prop :=
| month_1x c :
    char_in "0" "2" c -> month_text [49%N; c] (10 + ascii_value c)
| month_0x c :
    char_in "1" "9" c -> month_text [48%N; c] (ascii_value c)
| month_x c :
    char_in "1" "9" c -> month_text [c] (ascii_value c).

Inductive year_text : str -> Z -> Prop :=
| year_4 c1 c2 c3 c4 v1 v2 v3 v4 :
    Unicode.decimal_value c1 = Some v1 ->
    Unicode.decimal_value c2 = Some v2 ->
    Unicode.decimal_value c3 = Some v3 ->
    Unicode.decimal_value c4 = Some v4 ->
    year_text [c1; c2; c3; c4] (1000 * v1 + 100 * v2 + 10 * v3 + v4).

(** [s] is a day, a dot, a month, a dot, a year and [rest]. *)
Definition reads_as (s D M Y rest : str) (d m y : Z) : Prop :=
  s = D ++ text "." ++ M ++ text "." ++ Y ++ rest
  /\ day_text D d /\ month_text M m /\ year_text Y y.

(** The pattern DD.MM.YYYY of the specification: two digits, a dot, two
    digits, a dot, four digits. *)
Definition matches_DD_MM_YYYY (s : str) : Prop :=
  exists d1 d2 m1 m2 y1 y2 y3 y4,
    s = [d1; d2; 46%N; m1; m2; 46%N; y1; y2; y3; y4]
    /\ Forall ascii_digit [d1; d2; m1; m2; y1; y2; y3; y4].

(** The language of a matcher: [m] finds exactly the prefixes in [L]. *)
Definition matches_exactly (m : matcher) (L : str -> Prop) : Prop :=
  forall s x r, (x, r) ∈ m s <-> s = x ++ r /\ L x.

(** The next birthday, on or after [today], of someone born on
    [birthday]: the same month and day, in the year of [today] when that
    day is not past, in the next year when it is. *)
Definition next_birthday (today birthday : date) : date :=
  if ((month birthday <? month today)
      || ((month birthday =? month today) && (day birthday <? day today)))%Z
  then mkdate (year today + 1) (month birthday) (day birthday)
  else mkdate (year today) (month birthday) (day birthday).

(** The day of birth of a record that has one. *)
Definition born (record : Record_) (birthday : date) : Prop :=
  exists b, Record_birthday record = Some b
            /\ birthday = datetime_date (Birthday_date b).

(** The records whose next birthday is at most [days] days after
    [today]. *)
Definition in_window (today : date) (days : Z) (record : Record_) : bool :=
  match Record_birthday record with
  | Some b =>
      (toordinal (next_birthday today (datetime_date (Birthday_date b)))
       - toordinal today <=? days)%Z
  | None => false
  end.

(** A birthday that is a date of the calendar other than a 29th of
    February (or no birthday). *)
Definition every_year (record : Record_) : Prop :=
  forall birthday,
    born record birthday ->
    valid_date birthday /\ ~ (month birthday = 2 /\ day birthday = 29)%Z.

(** [item] is for [record], and its date is the next birthday of the
    record moved past the weekend: two days later when it is a Saturday
    (5), one day later when it is a Sunday (6), itself otherwise. *)
Definition congratulated (today : date) (record : Record_)
    (item : congratulation) : Prop :=
  cg_name item = Name_name (Record_name record)
  /\ exists birthday q,
       born record birthday
       /\ cg_congratulation_date item = strftime_Ymd q
       /\ valid_date q
       /\ (weekday (next_birthday today birthday) = 5 ->
           toordinal q = toordinal (next_birthday today birthday) + 2)%Z
       /\ (weekday (next_birthday today birthday) = 6 ->
           toordinal q = toordinal (next_birthday today birthday) + 1)%Z
       /\ (weekday (next_birthday today birthday) <> 5 ->
           weekday (next_birthday today birthday) <> 6 ->
           q = next_birthday today birthday)%Z.

(** [item] is for [record]; the next birthday [p] of the record is a date
    of the calendar with the month and day of birth, today or at most
    [days] days (and less than a year) ahead; the date printed is a date
    of the calendar, [p] or up to two days later, and falls on a day from
    Monday (0) to Friday (4). *)
Definition reported (today : date) (days : Z) (record : Record_)
    (item : congratulation) : Prop :=
  cg_name item = Name_name (Record_name record)
  /\ exists birthday p q,
       born record birthday
       /\ p = next_birthday today birthday
       /\ valid_date p
       /\ month p = month birthday /\ day p = day birthday
       /\ (0 <= toordinal p - toordinal today <= days)%Z
       /\ (toordinal p - toordinal today <= 365)%Z
       /\ cg_congratulation_date item = strftime_Ymd q
       /\ valid_date q
       /\ (toordinal p <= toordinal q <= toordinal p + 2)%Z
       /\ (0 <= weekday q <= 4)%Z.

(** A birthday on a 29th of February. *)
Definition born_on_29_february (record : Record_) : Prop :=
  exists b, Record_birthday record = Some b
            /\ dt_month (Birthday_date b) = 2%Z
            /\ dt_day (Birthday_date b) = 29%Z.

(** Two contacts for the examples: Alice, born on 08.06.1990, and Bob, born
    on 15.06.1990; and Carol, born on a 29th of February. *)
Definition alice : Record_ :=
  mkRecord (mkName (text "Alice")) [mkPhone (text "5555555555")]
    (Some (mkBirthday (mkdatetime 1990 6 8 0 0 0 0) (text "08.06.1990"))).

Definition bob : Record_ :=
  mkRecord (mkName (text "Bob"))
    [mkPhone (text "1111111111"); mkPhone (text "2222222222")]
    (Some (mkBirthday (mkdatetime 1990 6 15 0 0 0 0) (text "15.06.1990"))).

Definition carol : Record_ :=
  mkRecord (mkName (text "Carol")) [mkPhone (text "3333333333")]
    (Some (mkBirthday (mkdatetime 2000 2 29 0 0 0 0) (text "29.02.2000"))).

Definition alice_and_bob : AddressBook :=
  mkAddressBook [(text "Alice", alice); (text "Bob", bob)].

Definition only_carol : AddressBook :=
  mkAddressBook [(text "Carol", carol)].

(* ===================================================================== *)
(** * Auxiliary definitions used by the proofs                            *)
(* ===================================================================== *)

(** Every range of [small] lies within a range of [big]. *)
Definition covers (big small : list (N * N)) : bool :=
  forallb (fun r =>
    existsb (fun r' => (fst r' <=? fst r)%N && (snd r <=? snd r')%N) big)
    small.

(** No range of [t1] meets a range of [t2]. *)
Definition disjoint_ranges (t1 t2 : list (N * N)) : bool :=
  forallb (fun r1 =>
    forallb (fun r2 => (snd r1 <? fst r2)%N || (snd r2 <? fst r1)%N) t2) t1.

(** Loading what was saved for [o] gives [o] back. *)
Definition roundtrips (o : pyobj) : Prop :=
  exists p, Pickle.save o = Ok p /\ Pickle.load p = Ok o.

(** What holds of a directory all along a session, and of the files: each
    key is the name of its record, no key occurs twice, the dates are
    valid; and each pickle in a file was made from such a directory. *)
Definition book_inv (book : AddressBook) : Prop :=
  NoDup (dict_keys (AddressBook_data book))
  /\ Forall (fun kv => kv.1 = Name_name (Record_name kv.2) /\ wf_record kv.2)
       (AddressBook_data book).

Definition session_inv (s : session) : Prop :=
  book_inv (session_book s)
  /\ forall filename blob,
       session_files s !! filename = Some (Pickled blob) ->
       exists book,
         Pickle.dumps (AddressBook_obj book) = Ok blob /\ book_inv book.

(** The path of the address book names a file that may be read, and this
    file is absent or holds what [save_data] wrote for a directory of the
    program. *)
Definition program_file (h : host) (files : filesystem) : Prop :=
  exists file,
    locate h default_filename = Ok file
    /\ denied h file mode_rb = None
    /\ (files !! file = None
        \/ exists book blob,
             files !! file = Some (Pickled blob)
             /\ Pickle.dumps (AddressBook_obj book) = Ok blob
             /\ book_inv book).

(** A host for the examples: every text but the empty one names a file of
    its own, which may be read and written. *)
Definition plain_host : host :=
  mkHost
    (fun filename =>
       match filename with
       | [] => Raise (Exn FileNotFoundError (msg_no_such_file []))
       | _ :: _ => Ok filename
       end)
    (fun _ _ => None).

(** White space and words, for [str.split]. *)
Definition blank (s : str) : Prop := Forall (fun c => isspace c = true) s.
Definition word (s : str) : Prop :=
  s <> [] /\ Forall (fun c => isspace c = false) s.

(** A property [Q] of directories kept along a session: it holds of the
    directory in use and of every directory saved in a file. *)
Definition session_inv_with (Q : AddressBook -> Prop) (s : session) : Prop :=
  book_inv (session_book s) /\ Q (session_book s)
  /\ forall filename blob,
       session_files s !! filename = Some (Pickled blob) ->
       exists book,
         Pickle.dumps (AddressBook_obj book) = Ok blob
         /\ book_inv book /\ Q book.

(** Every phone of the directory holds a number [Phone] accepts. *)
Definition phones_valid (book : AddressBook) : Prop :=
  Forall (fun record => Forall valid_phone (phone_numbers record))
    (dict_values (AddressBook_data book)).

(** The operations that hand over checked numbers only: the records given
    to [add_record] hold valid numbers, and so does every new number given
    to [change_phone], which does not check it. *)
Definition checked_operation (o : operation) : Prop :=
  match o with
  | op_add_record record =>
      wf_record record /\ Forall valid_phone (phone_numbers record)
  | op_change_phone _ _ new_phone => valid_phone new_phone
  | _ => True
  end.

(** A birthday whose date is the one its text parses to. *)
Definition birthday_parsed (record : Record_) : Prop :=
  forall b, Record_birthday record = Some b ->
            Birthday_init (Birthday_value b) = Ok b.

Definition birthdays_parsed (book : AddressBook) : Prop :=
  Forall birthday_parsed (dict_values (AddressBook_data book)).

Definition parsed_operation (o : operation) : Prop :=
  match o with
  | op_add_record record => birthday_parsed record
  | _ => True
  end.

(** The lines that end the loop of [main]. *)
Definition exit_line (lower : str -> str) (line : str) : Prop :=
  lower (str_strip line) ∈ [text "close"; text "exit"].

(** The last part of [_ord2ymd]: month and day from the offset [n] within
    the year. *)
Definition month_day_of_offset (leapyear : bool) (n : Z) : Z * Z :=
  (let month := Z.shiftr (n + 50) 5 in
   let preceding :=
     index _DAYS_BEFORE_MONTH month
     + (if (month >? 2) && leapyear then 1 else 0) in
   let '(month, preceding) :=
     if preceding >? n then
       (month - 1,
        preceding - (index _DAYS_IN_MONTH (month - 1)
                     + (if (month - 1 =? 2) && leapyear then 1 else 0)))
     else (month, preceding) in
   (month, n - preceding + 1))%Z.

(** The test that [month_day_of_offset] inverts the count of days before a
    month, run over a whole year in the proof. *)
Definition month_day_ok (leapyear : bool) (n : Z) : bool :=
  (let '(m, d) := month_day_of_offset leapyear n in
   (1 <=? m) && (m <=? 12) && (1 <=? d)
   && (d <=? (if (m =? 2) && leapyear then 29 else index _DAYS_IN_MONTH m))
   && (index _DAYS_BEFORE_MONTH m
       + (if (m >? 2) && leapyear then 1 else 0) + d =? n + 1))%Z.

(* ===================================================================== *)
(** * Properties                                                          *)
(* ===================================================================== *)

(** ** Calls that return or raise *)

Section result_facts.
Context {A B : Type}.

Lemma bind_Ok (m : result A) (f : A -> result B) (b : B) :
  m ≫= f = Ok b <-> exists a, m = Ok a /\ f a = Ok b.
Proof. destruct m as [a|e]; simpl; naive_solver. Qed.

Lemma bind_Raise (m : result A) (f : A -> result B) (e : exn) :
  m ≫= f = Raise e <->
  m = Raise e \/ exists a, m = Ok a /\ f a = Raise e.
Proof. destruct m as [a|e']; simpl; naive_solver. Qed.

Lemma fmap_Ok (m : result A) (f : A -> B) (b : B) :
  f <$> m = Ok b <-> exists a, m = Ok a /\ b = f a.
Proof. destruct m as [a|e]; simpl; naive_solver. Qed.

(** [mapM] over calls that all return. *)
Lemma mapM_Ok_map (f : A -> result B) (g : A -> B) (l : list A) :
  Forall (fun x => f x = Ok (g x)) l -> mapM f l = Ok (g <$> l).
Proof.
  induction 1 as [|x l Hx _ IH]; simpl; [done|].
  rewrite Hx; simpl. rewrite IH. done.
Qed.
End result_facts.

(** ** Dictionaries *)

Section dict_facts.
Context {V : Type}.
Implicit Types (d : dict V) (k : str) (v : V).

Lemma dict_contains_get d k :
  dict_contains d k = true <-> is_Some (dict_get d k).
Proof. unfold dict_contains. apply bool_decide_eq_true. Qed.

Lemma dict_get_setitem_eq d k v : dict_get (dict_setitem d k v) k = Some v.
Proof.
  induction d as [|[k' v'] d IH]; simpl.
  - by rewrite decide_True.
  - destruct (decide (k' = k)); simpl.
    + by rewrite decide_True.
    + by rewrite decide_False.
Qed.

Lemma dict_get_setitem_ne d k k' v :
  k <> k' -> dict_get (dict_setitem d k v) k' = dict_get d k'.
Proof.
  intros Hne. induction d as [|[k0 v0] d IH]; simpl.
  - by rewrite decide_False.
  - destruct (decide (k0 = k)) as [->|]; simpl.
    + by rewrite !decide_False.
    + by rewrite IH.
Qed.

(** Storing the value that is already there changes nothing. *)
Lemma dict_setitem_id d k v : dict_get d k = Some v -> dict_setitem d k v = d.
Proof.
  induction d as [|[k0 v0] d IH]; simpl; [done|].
  destruct (decide (k0 = k)) as [->|].
  - by intros [= ->].
  - intros H. by rewrite IH.
Qed.

(** A new key goes to the end. *)
Lemma dict_setitem_fresh d k v :
  dict_get d k = None -> dict_setitem d k v = d ++ [(k, v)].
Proof.
  induction d as [|[k0 v0] d IH]; simpl; [done|].
  destruct (decide (k0 = k)); [done|].
  intros H. by rewrite IH.
Qed.

(** A present key keeps its place. *)
Lemma dict_keys_setitem_present d k v :
  is_Some (dict_get d k) -> dict_keys (dict_setitem d k v) = dict_keys d.
Proof.
  unfold dict_keys.
  induction d as [|[k0 v0] d IH]; simpl; [by intros [? ?]|].
  destruct (decide (k0 = k)) as [->|]; simpl; [done|].
  intros H. f_equal. by apply IH.
Qed.

Lemma dict_get_None_keys d k : dict_get d k = None <-> k ∉ dict_keys d.
Proof.
  unfold dict_keys.
  induction d as [|[k0 v0] d IH]; simpl.
  - split; [intros _; apply not_elem_of_nil|done].
  - rewrite not_elem_of_cons. destruct (decide (k0 = k)) as [->|].
    + split; [done|]. intros [? _]; done.
    + rewrite IH. split; [|tauto]. intros ?; split; [congruence|done].
Qed.

Lemma dict_get_Some_elem d k v : dict_get d k = Some v -> (k, v) ∈ d.
Proof.
  induction d as [|[k0 v0] d IH]; simpl; [done|].
  destruct (decide (k0 = k)) as [->|].
  - intros [= ->]. left.
  - intros H. right. auto.
Qed.

Lemma dict_setitem_elem d k v kv :
  kv ∈ dict_setitem d k v -> kv = (k, v) \/ kv ∈ d.
Proof.
  induction d as [|[k0 v0] d IH]; simpl.
  - rewrite list_elem_of_singleton. auto.
  - destruct (decide (k0 = k)) as [->|]; rewrite !elem_of_cons.
    + intros [->|?]; auto.
    + intros [->|H]; [auto|]. destruct (IH H); auto.
Qed.

Lemma dict_delitem_elem d k d' kv :
  dict_delitem d k = Ok d' -> kv ∈ d' -> kv ∈ d.
Proof.
  revert d'. induction d as [|[k0 v0] d IH]; simpl; intros d'; [done|].
  destruct (decide (k0 = k)) as [->|].
  - intros [= ->] ?. by right.
  - intros H. apply bind_Ok in H as (d'' & Hd & [= <-]).
    rewrite !elem_of_cons. intros [->|?]; [auto|]. right. eauto.
Qed.

(** [del d[k]] raises exactly when the key is missing. *)
Lemma dict_delitem_Raise d k :
  dict_get d k = None <-> dict_delitem d k = Raise (Exn KeyError (msg_key k)).
Proof.
  induction d as [|[k0 v0] d IH]; simpl; [done|].
  destruct (decide (k0 = k)); [done|].
  rewrite IH, bind_Raise. naive_solver.
Qed.
End dict_facts.

(** ** Character tables *)

Module UnicodeFacts.
Import Unicode.

Lemma in_ranges_covers big small c :
  covers big small = true ->
  in_ranges small c = true -> in_ranges big c = true.
Proof.
  unfold covers, in_ranges.
  rewrite forallb_forall, !existsb_exists.
  intros Hcov (r & Hr & Hc).
  apply Hcov in Hr. apply existsb_exists in Hr as (r' & Hr' & Hrr').
  exists r'. split; [done|].
  apply andb_true_iff in Hc as [? ?]. apply andb_true_iff in Hrr' as [? ?].
  apply andb_true_iff. split; apply N.leb_le; apply N.leb_le in H, H0, H1, H2; lia.
Qed.

(** Every decimal digit is a digit for [str.isdigit]. *)
Lemma isdecimal_isdigit c : isdecimal c = true -> isdigit c = true.
Proof. apply in_ranges_covers. vm_compute. reflexivity. Qed.

(** The ASCII digits are decimal digits. *)
Lemma ascii_digit_isdecimal c : is_ascii_digit c = true -> isdecimal c = true.
Proof.
  intros H. apply (in_ranges_covers _ [(48, 57)%N]); [by vm_compute|].
  unfold in_ranges; simpl. unfold is_ascii_digit in H. by rewrite H.
Qed.

Lemma str_isdigit_spec s :
  str_isdigit s = true <-> s <> [] /\ Forall (fun c => isdigit c = true) s.
Proof.
  unfold str_isdigit.
  rewrite andb_true_iff, negb_true_iff, bool_decide_eq_false.
  rewrite forallb_forall, Forall_forall.
  split; intros [? H]; (split; [done|]); intros c Hc; apply H;
    by apply list_elem_of_In.
Qed.
End UnicodeFacts.

(** ** Phone *)

Lemma Phone_init_Ok (s : str) (p : Phone) :
  Phone_init s = Ok p <->
  length s = 10%nat /\ Forall digit_character s /\ p = mkPhone s.
Proof.
  unfold Phone_init, digit_character.
  destruct (Nat.eqb_spec (length s) 10) as [Hlen|Hlen]; simpl.
  - destruct (Unicode.str_isdigit s) eqn:Hd; simpl.
    + apply UnicodeFacts.str_isdigit_spec in Hd as [_ Hd]. naive_solver.
    + split; [done|]. intros (_ & Hall & _).
      assert (Unicode.str_isdigit s = true) as Hd'; [|congruence].
      apply UnicodeFacts.str_isdigit_spec. split; [|done].
      intros ->. done.
  - naive_solver.
Qed.

Lemma Phone_init_Raise (s : str) (e : exn) :
  Phone_init s = Raise e -> e = Exn ValueError msg_phone_10_digits.
Proof. unfold Phone_init. case_match; congruence. Qed.

Lemma Phone_init_valid (s : str) :
  length s = 10%nat -> Forall digit_character s -> Phone_init s = Ok (mkPhone s).
Proof. intros. by apply Phone_init_Ok. Qed.

(** What [Phone] accepts: the texts of ten characters that [str.isdigit]
    takes for digits.  The decimal digits are among these, so every text of
    ten decimal digits is accepted; the number is stored as given; every
    other text raises the [ValueError] "Phone number must be 10 digits."
    and no [Phone] comes into being. *)
Lemma Phone_init_accepts_ten_digit_characters (s : str) :
  (is_Ok (Phone_init s) <-> length s = 10%nat /\ Forall digit_character s)
  /\ (forall p, Phone_init s = Ok p -> Phone_number p = s)
  /\ (forall e, Phone_init s = Raise e ->
        e = Exn ValueError msg_phone_10_digits /\ InvalidFormat e)
  /\ (~ (length s = 10%nat /\ Forall digit_character s) ->
        Phone_init s = Raise (Exn ValueError msg_phone_10_digits))
  /\ (length s = 10%nat /\ Forall decimal_digit s -> is_Ok (Phone_init s)).
Proof.
  split_and!.
  - split.
    + intros [p Hp]. apply Phone_init_Ok in Hp. tauto.
    + intros [? ?]. exists (mkPhone s). by apply Phone_init_valid.
  - intros p Hp. apply Phone_init_Ok in Hp as (_ & _ & ->). done.
  - intros e He. apply Phone_init_Raise in He as ->. split; [done|]. by left.
  - intros Hn. destruct (Phone_init s) as [p|e] eqn:Hp.
    + apply Phone_init_Ok in Hp. tauto.
    + f_equal. by apply Phone_init_Raise in Hp.
  - intros [Hlen Hdec]. exists (mkPhone s). apply Phone_init_valid; [done|].
    eapply Forall_impl; [exact Hdec|].
    intros c. apply UnicodeFacts.isdecimal_isdigit.
Qed.

(** C2 at an input where the code departs from it: [Phone] tests the text
    with [str.isdigit], which also holds of characters that are no decimal
    digits.  Ten times SUPERSCRIPT TWO is accepted and stored as a phone
    number, though none of its characters is a decimal digit (hence none
    an ASCII digit); the message of the very check is "Phone number must
    be 10 digits." *)
Theorem Phone_init_accepts_superscript_twos :
  Phone_init superscript_twos = Ok (mkPhone superscript_twos)
  /\ length superscript_twos = 10%nat
  /\ Forall (fun c => ~ decimal_digit c) superscript_twos
  /\ Forall (fun c => ~ ascii_digit c) superscript_twos.
Proof.
  split_and!; [reflexivity|reflexivity| |];
    repeat constructor; intros H; vm_compute in H; discriminate.
Qed.

(** ** Field.__str__ *)

Lemma Field_str_Name (n : Name) :
  Field_str (F_Name n)
  = Raise (Exn AttributeError (msg_no_attribute "Name" "value")).
Proof. reflexivity. Qed.

Lemma Field_str_Phone (p : Phone) :
  Field_str (F_Phone p)
  = Raise (Exn AttributeError (msg_no_attribute "Phone" "value")).
Proof. reflexivity. Qed.

Lemma Field_str_Birthday (b : Birthday) :
  Field_str (F_Birthday b) = Ok (Birthday_value b).
Proof. reflexivity. Qed.

(** C6 at the inputs where the code departs from it: [str] of a [Name] and
    of a [Phone] raises [AttributeError], because [Field.__str__] reads
    [self.value] and these two constructors never set it. *)
Theorem Field_str_raises_for_Name_and_Phone :
  Field_str (F_Name (Name_init (text "Bob")))
  = Raise (Exn AttributeError (msg_no_attribute "Name" "value"))
  /\ (p ← Phone_init (text "1234567890"); Field_str (F_Phone p))
     = Raise (Exn AttributeError (msg_no_attribute "Phone" "value")).
Proof. split; reflexivity. Qed.

(** ** Record *)

(** The loop of [edit_phone] changes the first phone that carries the old
    number and nothing else. *)
Lemma edit_phone_loop_Some phones old_phone new_phone phones' :
  edit_phone_loop phones old_phone new_phone = Some phones' <->
  exists before p after,
    phones = before ++ p :: after
    /\ Forall (fun q => Phone_number q <> old_phone) before
    /\ Phone_number p = old_phone
    /\ phones' = before ++ mkPhone new_phone :: after.
Proof.
  revert phones'. induction phones as [|q rest IH]; intros phones'; simpl.
  - split; [done|]. intros (before & p & after & Heq & _).
    by destruct before.
  - destruct (decide (Phone_number q = old_phone)) as [Hq|Hq].
    + split.
      * intros [= <-]. exists [], q, rest. simpl. by rewrite Forall_nil.
      * intros (before & p & after & Heq & Hbefore & Hp & ->).
        destruct before as [|b before]; simpl in *.
        -- by injection Heq as -> ->.
        -- injection Heq as -> ->. by apply Forall_inv in Hbefore.
    + split.
      * intros H. apply fmap_Some in H as (rest' & Hrest & ->).
        apply IH in Hrest as (before & p & after & -> & ? & ? & ->).
        exists (q :: before), p, after. split_and!; try done.
        by constructor.
      * intros (before & p & after & Heq & Hbefore & Hp & ->).
        destruct before as [|b before]; simpl in *.
        -- injection Heq as -> ->. done.
        -- injection Heq as -> ->. apply Forall_cons in Hbefore as [_ ?].
           apply fmap_Some. eexists. split; [|done].
           apply IH. by exists before, p, after.
Qed.

Lemma edit_phone_loop_None phones old_phone new_phone :
  edit_phone_loop phones old_phone new_phone = None <->
  old_phone ∉ (Phone_number <$> phones).
Proof.
  induction phones as [|q rest IH]; simpl.
  - split; [intros _; apply not_elem_of_nil|done].
  - rewrite not_elem_of_cons.
    destruct (decide (Phone_number q = old_phone)) as [Hq|Hq].
    + split; [done|]. intros [? _]. congruence.
    + rewrite fmap_None, IH. naive_solver.
Qed.

(** What [edit_phone] does: the first phone equal to the old number takes
    the new one, whatever text that is; without such a phone it raises the
    "not found" [ValueError]. *)
Lemma Record_edit_phone_spec (self : Record_) (old_phone new_phone : str) :
  (forall before after,
      phone_numbers self = before ++ old_phone :: after ->
      old_phone ∉ before ->
      exists self',
        Record_edit_phone self old_phone new_phone = Ok self'
        /\ phone_numbers self' = before ++ new_phone :: after
        /\ Record_name self' = Record_name self
        /\ Record_birthday self' = Record_birthday self)
  /\ (old_phone ∉ phone_numbers self ->
      exists e, Record_edit_phone self old_phone new_phone = Raise e
                /\ NotFound e).
Proof.
  unfold Record_edit_phone, phone_numbers. split.
  - intros before after Heq Hbefore.
    apply fmap_app_inv in Heq as (pb & pa & -> & Hpa & Heq).
    destruct pa as [|p pa]; [done|]. simpl in Hpa. injection Hpa as Hp ->.
    assert (edit_phone_loop (Record_phones self) old_phone new_phone
            = Some (pb ++ mkPhone new_phone :: pa)) as ->.
    { apply edit_phone_loop_Some. exists pb, p, pa. split_and!; try done.
      apply Forall_forall. intros q Hq Heq'. apply Hbefore.
      rewrite <- Heq'. by apply list_elem_of_fmap_2. }
    eexists. split; [done|]. simpl. by rewrite fmap_app.
  - intros Hnot. apply (edit_phone_loop_None _ _ new_phone) in Hnot as ->.
    eexists. split; [done|]. right. eauto.
Qed.

(** C3 at an input where the code departs from it: [edit_phone] does not
    validate the new number.  Replacing "1111111111" by "abc" succeeds and
    stores "abc", a text that [Phone] itself refuses. *)
Theorem Record_edit_phone_stores_unvalidated_number :
  exists r r',
    Record_init (text "Bob") [text "1111111111"] None = Ok r
    /\ Record_edit_phone r (text "1111111111") (text "abc") = Ok r'
    /\ phone_numbers r' = [text "abc"]
    /\ Phone_init (text "abc") = Raise (Exn ValueError msg_phone_10_digits).
Proof. do 2 eexists. split_and!; reflexivity. Qed.

(** ** AddressBook *)

Lemma find_record_get (book : AddressBook) (name : str) :
  AddressBook_find_record book name = dict_get (AddressBook_data book) name.
Proof.
  unfold AddressBook_find_record, dict_contains.
  case_bool_decide as H; [done|].
  destruct (dict_get _ _) eqn:E; [|done]. destruct H. eauto.
Qed.

Lemma find_record_None_keys (book : AddressBook) (name : str) :
  AddressBook_find_record book name = None
  <-> name ∉ dict_keys (AddressBook_data book).
Proof. rewrite find_record_get. apply dict_get_None_keys. Qed.

Lemma find_record_mutate_eq book name record :
  AddressBook_find_record (mutate_record book name record) name = Some record.
Proof. rewrite find_record_get. apply dict_get_setitem_eq. Qed.

Lemma find_record_mutate_ne book name record other :
  name <> other ->
  AddressBook_find_record (mutate_record book name record) other
  = AddressBook_find_record book other.
Proof. intros. rewrite !find_record_get. by apply dict_get_setitem_ne. Qed.

Lemma Record_eta (r : Record_) :
  mkRecord (Record_name r) (Record_phones r) (Record_birthday r) = r.
Proof. by destruct r. Qed.

Lemma mutate_record_id book name record :
  AddressBook_find_record book name = Some record ->
  mutate_record book name record = book.
Proof.
  rewrite find_record_get. intros H. unfold mutate_record.
  rewrite dict_setitem_id by done. by destruct book.
Qed.

(** Whatever the phone text, [add_phone] can only fail with the
    [ValueError] of the [Phone] constructor. *)
Lemma AddressBook_add_phone_Raise book name phone e :
  AddressBook_add_phone book name phone = Raise e ->
  e = Exn ValueError msg_phone_10_digits.
Proof.
  unfold AddressBook_add_phone, Record_add_phone, Record_init.
  destruct (AddressBook_find_record book name); simpl;
    destruct (Phone_init phone) eqn:Hp; simpl; try done;
    intros [= <-]; by apply Phone_init_Raise in Hp.
Qed.

(** C8: with a valid phone text, [add_phone] appends the phone to the
    record found under the name (the other entries and the order of the
    directory stay as they are), and without such a record it adds, at the
    end, a new record of that name whose only phone is the given one.  It
    does not raise, so in particular never signals NotFound. *)
Theorem AddressBook_add_phone_upsert (book : AddressBook) (name phone : str) :
  length phone = 10%nat -> Forall digit_character phone ->
  exists book',
    AddressBook_add_phone book name phone = Ok book'
    /\ (forall record,
          AddressBook_find_record book name = Some record ->
          AddressBook_find_record book' name
          = Some (mkRecord (Record_name record)
                    (Record_phones record ++ [mkPhone phone])
                    (Record_birthday record))
          /\ dict_keys (AddressBook_data book')
             = dict_keys (AddressBook_data book)
          /\ forall other, other <> name ->
               AddressBook_find_record book' other
               = AddressBook_find_record book other)
    /\ (AddressBook_find_record book name = None ->
          AddressBook_data book'
          = AddressBook_data book
            ++ [(name, mkRecord (mkName name) [mkPhone phone] None)])
    /\ (forall e, AddressBook_add_phone book name phone = Raise e ->
          ~ NotFound e).
Proof.
  intros Hlen Hdig.
  pose proof (Phone_init_valid phone Hlen Hdig) as Hp.
  unfold AddressBook_add_phone, Record_add_phone, Record_init.
  simpl. rewrite Hp. simpl.
  destruct (AddressBook_find_record book name) as [record|] eqn:Hfind.
  - eexists. split; [done|]. split_and!; try done.
    intros ? [= <-]. split_and!.
    + apply find_record_mutate_eq.
    + apply dict_keys_setitem_present. rewrite <- find_record_get. eauto.
    + intros other Hne. by apply find_record_mutate_ne.
  - eexists. split; [done|]. split_and!; try done.
    intros _. unfold AddressBook_add_record, Name_init. simpl.
    apply dict_setitem_fresh. by rewrite <- find_record_get.
Qed.

Lemma AddressBook_add_phone_upsert_witness :
  exists book',
    AddressBook_add_phone AddressBook_init (text "Alice") (text "5555555555")
    = Ok book'
    /\ AddressBook_data book'
       = [(text "Alice",
           mkRecord (mkName (text "Alice")) [mkPhone (text "5555555555")] None)].
Proof.
  destruct (AddressBook_add_phone_upsert AddressBook_init (text "Alice")
              (text "5555555555")) as (book' & Hok & _ & Hnew & _).
  - reflexivity.
  - repeat (constructor; [reflexivity|]). constructor.
  - exists book'. split; [exact Hok|]. apply Hnew. reflexivity.
Defined.

Lemma filter_no_match (phones : list Phone) (phone : str) :
  phone ∉ (Phone_number <$> phones) ->
  filter (fun p => Phone_number p ≠ phone) phones = phones.
Proof.
  induction phones as [|p phones IH]; simpl; [done|].
  rewrite not_elem_of_cons. intros [Hp Hrest].
  rewrite filter_cons_True by congruence. by rewrite IH.
Qed.

(** C9: [delete_phone] raises exactly when the name is not in the
    directory, and then it is the NotFound [KeyError]; when the name is
    there and none of its phones is the given one, it returns normally and
    the directory, hence the record with its phones and birthday, is what
    it was. *)
Theorem AddressBook_delete_phone_not_found_iff_name_absent
    (book : AddressBook) (name phone : str) :
  ((exists e, AddressBook_delete_phone book name phone = Raise e)
     <-> name ∉ dict_keys (AddressBook_data book))
  /\ (forall e, AddressBook_delete_phone book name phone = Raise e ->
        e = Exn KeyError (msg_contact_not_found name) /\ NotFound e)
  /\ (forall record,
        AddressBook_find_record book name = Some record ->
        phone ∉ phone_numbers record ->
        AddressBook_delete_phone book name phone = Ok book
        /\ Record_remove_phone record phone = record).
Proof.
  unfold AddressBook_delete_phone. rewrite <- find_record_None_keys.
  destruct (AddressBook_find_record book name) as [record|] eqn:Hfind.
  - split_and!.
    + split; [by intros [? ?]|done].
    + done.
    + intros ? [= <-] Hnot.
      assert (Record_remove_phone record phone = record) as ->.
      { unfold Record_remove_phone. rewrite filter_no_match by done.
        apply Record_eta. }
      by rewrite mutate_record_id.
  - split_and!.
    + split; [done|]. intros _. eauto.
    + intros e [= <-]. split; [done|]. by left.
    + done.
Qed.

(** ** Calendar arithmetic *)

Module DatetimeFacts.
Local Open Scope Z_scope.

Lemma date_new_Ok y m d x :
  date_new y m d = Ok x <-> valid_date (mkdate y m d) /\ x = mkdate y m d.
Proof.
  unfold date_new, _check_date_fields, valid_date, MINYEAR, MAXYEAR; simpl.
  repeat (case_match; simpl); naive_solver lia.
Qed.

Lemma date_new_valid y m d :
  valid_date (mkdate y m d) -> date_new y m d = Ok (mkdate y m d).
Proof. intros. by apply date_new_Ok. Qed.

Lemma date_new_Raise y m d e :
  date_new y m d = Raise e -> ~ valid_date (mkdate y m d) /\ exn_cls e = ValueError.
Proof.
  unfold date_new, _check_date_fields, valid_date, MINYEAR, MAXYEAR; simpl.
  repeat (case_match; simpl); naive_solver lia.
Qed.

(** A bounded check by evaluation. *)
Lemma forallb_seqZ (P : Z -> bool) (lo len : Z) :
  forallb P (seqZ lo len) = true ->
  forall n, lo <= n < lo + len -> P n = true.
Proof.
  rewrite forallb_forall. intros H n Hn. apply H.
  apply list_elem_of_In, elem_of_seqZ. lia.
Qed.

Lemma month_day_of_offset_ok leapyear n :
  0 <= n < 365 -> month_day_ok leapyear n = true.
Proof.
  intros Hn. destruct leapyear.
  - apply (forallb_seqZ (month_day_ok true) 0 365); [by vm_compute|lia].
  - apply (forallb_seqZ (month_day_ok false) 0 365); [by vm_compute|lia].
Qed.

Lemma month_day_of_offset_spec y n m d :
  0 <= n < 365 ->
  month_day_of_offset (_is_leap y) n = (m, d) ->
  1 <= m <= 12 /\ 1 <= d <= _days_in_month y m
  /\ _days_before_month y m + d = n + 1.
Proof.
  intros Hn Hmd.
  pose proof (month_day_of_offset_ok (_is_leap y) n Hn) as Hok.
  unfold month_day_ok in Hok. rewrite Hmd in Hok.
  unfold _days_in_month, _days_before_month.
  repeat (apply andb_true_iff in Hok as [Hok ?]). lia.
Qed.
Lemma days_before_year_cycles n400 n100 n4 n1 :
  0 <= n100 <= 3 -> 0 <= n4 <= 24 -> 0 <= n1 <= 3 ->
  _days_before_year (n400 * 400 + 1 + (n100 * 100 + n4 * 4 + n1))
  = n400 * 146097 + n100 * 36524 + n4 * 1461 + n1 * 365.
Proof.
  intros. unfold _days_before_year.
  Z.div_mod_to_equations. lia.
Qed.

Lemma is_leap_cycles n400 n100 n4 n1 :
  0 <= n100 <= 3 -> 0 <= n4 <= 24 -> 0 <= n1 <= 3 ->
  _is_leap (n400 * 400 + 1 + (n100 * 100 + n4 * 4 + n1))
  = (n1 =? 3) && (negb (n4 =? 24) || (n100 =? 3)).
Proof.
  intros. unfold _is_leap.
  repeat match goal with
         | |- context [?a =? ?b] => destruct (Z.eqb_spec a b)
         end; simpl; try reflexivity; exfalso;
    Z.div_mod_to_equations; lia.
Qed.

Lemma ord2ymd_unfold n :
  _ord2ymd n =
  let n0 := n - 1 in
  let n400 := n0 / 146097 in
  let r1 := n0 mod 146097 in
  let n100 := r1 / 36524 in
  let r2 := r1 mod 36524 in
  let n4 := r2 / 1461 in
  let r3 := r2 mod 1461 in
  let n1 := r3 / 365 in
  let r4 := r3 mod 365 in
  let year := n400 * 400 + 1 + (n100 * 100 + n4 * 4 + n1) in
  if (n1 =? 4) || (n100 =? 4) then (year - 1, 12, 31)
  else
    let '(m, d) :=
      month_day_of_offset ((n1 =? 3) && (negb (n4 =? 24) || (n100 =? 3))) r4 in
    (year, m, d).
Proof.
  unfold _ord2ymd, month_day_of_offset.
  change _DI400Y with 146097. change _DI100Y with 36524.
  change _DI4Y with 1461. cbv zeta.
  destruct (_ || _); [reflexivity|].
  destruct (_ >? _); reflexivity.
Qed.

Lemma ord2ymd_spec n y m d :
  1 <= n -> _ord2ymd n = (y, m, d) ->
  1 <= y /\ 1 <= m <= 12 /\ 1 <= d <= _days_in_month y m
  /\ _ymd2ord y m d = n.
Proof.
  intros Hn. rewrite ord2ymd_unfold. cbv zeta.
  set (n0 := n - 1).
  pose proof (Z.div_mod n0 146097 ltac:(lia)) as E1.
  pose proof (Z.mod_pos_bound n0 146097 ltac:(lia)) as B1.
  set (n400 := n0 / 146097) in *. set (r1 := n0 mod 146097) in *.
  pose proof (Z.div_mod r1 36524 ltac:(lia)) as E2.
  pose proof (Z.mod_pos_bound r1 36524 ltac:(lia)) as B2.
  set (n100 := r1 / 36524) in *. set (r2 := r1 mod 36524) in *.
  pose proof (Z.div_mod r2 1461 ltac:(lia)) as E3.
  pose proof (Z.mod_pos_bound r2 1461 ltac:(lia)) as B3.
  set (n4 := r2 / 1461) in *. set (r3 := r2 mod 1461) in *.
  pose proof (Z.div_mod r3 365 ltac:(lia)) as E4.
  pose proof (Z.mod_pos_bound r3 365 ltac:(lia)) as B4.
  set (n1 := r3 / 365) in *. set (r4 := r3 mod 365) in *.
  assert (0 <= n400) as Hn400 by lia.
  assert (0 <= n100 <= 4) as Hn100 by lia.
  assert (0 <= n4 <= 24) as Hn4 by lia.
  assert (0 <= n1 <= 4) as Hn1 by lia.
  destruct (Z.eqb_spec n1 4) as [Hc1|Hc1]; simpl.
  - (* the last day of a four-year cycle *)
    intros [= <- <- <-].
    assert (n100 <= 3) by lia. assert (r4 = 0) by lia. assert (n4 <= 23) by lia.
    replace (n400 * 400 + 1 + (n100 * 100 + n4 * 4 + n1) - 1)
      with (n400 * 400 + 1 + (n100 * 100 + n4 * 4 + 3)) by lia.
    unfold _ymd2ord, _days_in_month, _days_before_month.
    rewrite days_before_year_cycles, is_leap_cycles by lia.
    replace (n4 =? 24) with false by (symmetry; apply Z.eqb_neq; lia).
    simpl. unfold index; simpl. lia.
  - destruct (Z.eqb_spec n100 4) as [Hc100|Hc100]; simpl.
    + (* the last day of a 400-year cycle *)
      intros [= <- <- <-].
      assert (r2 = 0) as Hr2 by lia.
      assert (n4 = 0) by (subst n4; rewrite Hr2; reflexivity).
      assert (r3 = 0) as Hr3 by (subst r3; rewrite Hr2; reflexivity).
      assert (n1 = 0) by (subst n1; rewrite Hr3; reflexivity).
      replace (n400 * 400 + 1 + (n100 * 100 + n4 * 4 + n1) - 1)
        with (n400 * 400 + 1 + (3 * 100 + 24 * 4 + 3)) by lia.
      unfold _ymd2ord, _days_in_month, _days_before_month.
      rewrite days_before_year_cycles, is_leap_cycles by lia.
      simpl. unfold index; simpl. lia.
    + destruct (month_day_of_offset _ r4) as [m' d'] eqn:Hmd.
      intros [= <- <- <-].
      rewrite <- (is_leap_cycles n400 n100 n4 n1) in Hmd by lia.
      apply month_day_of_offset_spec in Hmd as (? & ? & ?); [|lia].
      split_and!; try lia.
      unfold _ymd2ord. rewrite days_before_year_cycles by lia. lia.
Qed.

Lemma days_before_year_succ y :
  _days_before_year (y + 1)
  = _days_before_year y + 365 + (if _is_leap y then 1 else 0).
Proof.
  unfold _days_before_year, _is_leap.
  repeat match goal with
         | |- context [?a =? ?b] => destruct (Z.eqb_spec a b)
         end; simpl; Z.div_mod_to_equations; lia.
Qed.

Lemma days_before_year_mono y1 y2 :
  y1 <= y2 -> _days_before_year y1 <= _days_before_year y2.
Proof. unfold _days_before_year. intros. Z.div_mod_to_equations. lia. Qed.

Lemma day_of_year_bounds y m d :
  1 <= m <= 12 -> 1 <= d <= _days_in_month y m ->
  1 <= _days_before_month y m + d <= 365 + (if _is_leap y then 1 else 0).
Proof.
  intros Hm. unfold _days_in_month, _days_before_month.
  assert (m = 1 \/ m = 2 \/ m = 3 \/ m = 4 \/ m = 5 \/ m = 6 \/ m = 7
          \/ m = 8 \/ m = 9 \/ m = 10 \/ m = 11 \/ m = 12) as Hcases by lia.
  destruct (_is_leap y);
    repeat (destruct Hcases as [->|Hcases]); try subst m;
    unfold index; simpl; lia.
Qed.

Lemma days_in_month_le_31 y m : (1 <= m <= 12 -> _days_in_month y m <= 31).
Proof.
  intros Hm. unfold _days_in_month.
  assert (m = 1 \/ m = 2 \/ m = 3 \/ m = 4 \/ m = 5 \/ m = 6 \/ m = 7
          \/ m = 8 \/ m = 9 \/ m = 10 \/ m = 11 \/ m = 12) as Hcases by lia.
  destruct (_is_leap y);
    repeat (destruct Hcases as [->|Hcases]); try subst m;
    unfold index; simpl; lia.
Qed.

Lemma toordinal_bounds d :
  valid_date d -> 1 <= toordinal d <= _MAXORDINAL.
Proof.
  intros (Hy & Hm & Hd). unfold toordinal, _ymd2ord, _MAXORDINAL.
  pose proof (day_of_year_bounds _ _ _ Hm Hd).
  pose proof (days_before_year_succ (year d)).
  pose proof (days_before_year_mono 1 (year d) ltac:(lia)) as H1.
  pose proof (days_before_year_mono (year d + 1) 10000 ltac:(lia)) as H2.
  change (_days_before_year 1) with 0 in H1.
  change (_days_before_year 10000) with 3652059 in H2.
  lia.
Qed.

Lemma fromordinal_spec n :
  1 <= n <= _MAXORDINAL ->
  exists d, fromordinal n = Ok d /\ valid_date d /\ toordinal d = n.
Proof.
  intros [Hlo Hhi]. unfold fromordinal.
  destruct (_ord2ymd n) as [[y m] d] eqn:E.
  apply ord2ymd_spec in E as (Hy & Hm & Hd & Hord); [|done].
  assert (y <= 9999) as Hy'.
  { destruct (Z_le_gt_dec y 9999) as [|Hbig]; [done|exfalso].
    pose proof (days_before_year_mono 10000 y ltac:(lia)) as H.
    change (_days_before_year 10000) with 3652059 in H.
    pose proof (day_of_year_bounds _ _ _ Hm Hd).
    unfold _ymd2ord, _MAXORDINAL in *. lia. }
  exists (mkdate y m d). split; [|split; [|done]].
  - apply date_new_valid. unfold valid_date; simpl. lia.
  - unfold valid_date; simpl. lia.
Qed.

Lemma date_add_days_spec d k :
  valid_date d -> 0 < toordinal d + k <= _MAXORDINAL ->
  exists d', date_add_days d k = Ok d' /\ valid_date d'
             /\ toordinal d' = toordinal d + k.
Proof.
  intros Hd Hk. unfold date_add_days.
  replace ((0 <? toordinal d + k) && (toordinal d + k <=? _MAXORDINAL))
    with true by (symmetry; apply andb_true_iff; lia).
  apply fromordinal_spec. lia.
Qed.

Lemma weekday_bounds d : 0 <= weekday d < 7.
Proof. unfold weekday. apply Z.mod_pos_bound. lia. Qed.

(** The weekend move never leaves the calendar: the last day of year 9999
    is a Friday. *)
Lemma weekend_shift_spec p :
  valid_date p ->
  exists q,
    weekend_shift p = Ok q /\ valid_date q
    /\ (weekday p = 5 -> toordinal q = toordinal p + 2 /\ weekday q = 0)
    /\ (weekday p = 6 -> toordinal q = toordinal p + 1 /\ weekday q = 0)
    /\ (weekday p <> 5 -> weekday p <> 6 -> q = p).
Proof.
  intros Hp. pose proof (toordinal_bounds p Hp) as Hb.
  unfold weekend_shift.
  destruct (Z.eqb_spec (weekday p) 5) as [H5|H5].
  - destruct (date_add_days_spec p 2 Hp) as (q & -> & Hq & Hord).
    { unfold weekday, _MAXORDINAL in *. Z.div_mod_to_equations. lia. }
    exists q. split_and!; try done; try lia.
    intros _. split; [done|].
    unfold weekday in *. rewrite Hord. Z.div_mod_to_equations. lia.
  - destruct (Z.eqb_spec (weekday p) 6) as [H6|H6].
    + destruct (date_add_days_spec p 1 Hp) as (q & -> & Hq & Hord).
      { unfold weekday, _MAXORDINAL in *. Z.div_mod_to_equations. lia. }
      exists q. split_and!; try done; try lia.
      intros _. split; [done|].
      unfold weekday in *. rewrite Hord. Z.div_mod_to_equations. lia.
    + exists p. split_and!; try done.
Qed.

Lemma date_replace_year_Ok d y d' :
  date_replace_year d y = Ok d' ->
  valid_date d' /\ d' = mkdate y (month d) (day d).
Proof.
  unfold date_replace_year. intros H.
  by apply date_new_Ok in H as [Hv ->].
Qed.

Lemma birthday_this_year_Ok today birthday p :
  birthday_this_year today birthday = Ok p ->
  valid_date p /\ month p = month birthday /\ day p = day birthday
  /\ (year p = year today \/ year p = year today + 1).
Proof.
  unfold birthday_this_year. intros H.
  apply bind_Ok in H as (d1 & H1 & H).
  apply date_replace_year_Ok in H1 as [Hv1 ->].
  case_match.
  - apply date_replace_year_Ok in H as [Hv ->]. simpl. auto.
  - injection H as <-. simpl. auto.
Qed.
End DatetimeFacts.

(** ** Upcoming birthdays *)

Section upcoming.
Import DatetimeFacts.
Local Open Scope Z_scope.
Variables (today : date) (days : Z).

Lemma projected_Some record p :
projected today record = Some p <->
exists b, Record_birthday record = Some b
          /\ birthday_this_year today (datetime_date (Birthday_date b)) = Ok p.
Proof.
unfold projected. destruct (Record_birthday record) as [b|].
- destruct (birthday_this_year _ _) eqn:E.
  + split; [intros [= <-]; eauto|]. intros (b' & [= <-] & Hb). congruence.
  + split; [done|]. intros (b' & [= <-] & Hb). congruence.
- split; [done|]. by intros (b' & ? & _).
Qed.

Lemma projected_valid record p :
projected today record = Some p -> valid_date p.
Proof.
intros (b & _ & H)%projected_Some.
by apply birthday_this_year_Ok in H as [? _].
Qed.

(** One turn of the loop, for a record whose birthday can be projected. *)
Lemma upcoming_body_spec acc record :
can_project today record ->
if included today days record then
  exists item, upcoming_body today days acc record = Ok (acc ++ [item])
               /\ congratulates today record item
else upcoming_body today days acc record = Ok acc.
Proof.
intros Hcan. unfold included, upcoming_body.
destruct (Record_birthday record) as [b|] eqn:Hb.
- destruct (Hcan b Hb) as [p Hp]. rewrite Hp.
  pose proof Hp as Hp'.
  apply projected_Some in Hp' as (b' & Hb' & Hbty).
  rewrite Hb in Hb'. injection Hb' as <-. rewrite Hbty. simpl.
  destruct (date_sub_days p today <=? days); [|done].
  destruct (weekend_shift_spec p) as (q & -> & Hq & H5 & H6 & Hother).
  { by eapply projected_valid. }
  simpl. eexists. split; [done|].
  exists p, q. simpl. split_and!; try done.
  + intros H. by apply H5.
  + intros H. by apply H6.
- unfold projected. rewrite Hb. done.
Qed.

Lemma upcoming_loop_spec records acc :
Forall (can_project today) records ->
exists out,
  for_each (upcoming_body today days) acc records = Ok (acc ++ out)
  /\ Forall2 (congratulates today)
       (filter (fun r => included today days r = true) records) out.
Proof.
intros Hall. revert acc.
induction Hall as [|record records Hcan _ IH]; intros acc; simpl.
- exists []. by rewrite app_nil_r.
- pose proof (upcoming_body_spec acc record Hcan) as Hbody.
  destruct (included today days record) eqn:Hin.
  + destruct Hbody as (item & -> & Hitem). simpl.
    destruct (IH (acc ++ [item])) as (out & -> & Hout).
    exists (item :: out). rewrite <- app_assoc. split; [done|].
    rewrite filter_cons_True by done. by constructor.
  + rewrite Hbody. simpl. destruct (IH acc) as (out & -> & Hout).
    exists out. split; [done|].
    rewrite filter_cons_False by (rewrite Hin; done). done.
Qed.

(** A birthday that is not a 29th of February can be moved to any year. *)
Lemma birthday_this_year_total birthday :
valid_date today -> year today <= 9998 ->
valid_date birthday -> ~ (month birthday = 2 /\ day birthday = 29) ->
is_Ok (birthday_this_year today birthday).
Proof.
intros (Hty & _) Hmax (Hy & Hm & Hd) Hfeb.
assert (forall y, 1 <= y <= 9999 ->
          valid_date (mkdate y (month birthday) (day birthday))) as Hv.
{ intros y Hy'. unfold valid_date; simpl. split_and!; try lia.
  revert Hd. unfold _days_in_month.
  destruct (Z.eqb_spec (month birthday) 2) as [H2|H2]; simpl; [|lia].
  rewrite H2 in *. unfold index; simpl.
  destruct (_is_leap (year birthday)), (_is_leap y); lia. }
unfold birthday_this_year, date_replace_year.
rewrite (date_new_valid _ _ _ (Hv _ Hty)). simpl.
case_match; [|by eexists].
rewrite date_new_valid by (apply Hv; lia). by eexists.
Qed.
End upcoming.

(** The example of the specification: on Monday 10 June 2024 Alice's
    birthday (8 June) is a year away and left out; Bob's (15 June, a
    Saturday) is congratulated on Monday 17 June. *)
Example upcoming_on_2024_06_10 :
  get_upcoming_birthdays alice_and_bob (mkdate 2024 6 10) 7
  = Ok [mkCongratulation (text "Bob") (text "2024.06.17")].
Proof. reflexivity. Qed.

(** An instance of the failure: with a birthday on a 29th of February and
    a current year that is no leap year,
    [birthday.replace(year=today.year)] raises [ValueError] and so does the
    whole computation. *)
Example upcoming_raises_on_29_february :
  Birthday_init (text "29.02.2000") = Ok (mkBirthday (mkdatetime 2000 2 29 0 0 0 0) (text "29.02.2000"))
  /\ get_upcoming_birthdays only_carol (mkdate 2023 3 1) 7
     = Raise (Exn ValueError (msg_lib "day is out of range for month")).
Proof. split; reflexivity. Qed.

(** X14 (get_upcoming_birthdays): the computation returns whenever the
    current date is valid and its year is before 9999 and every birthday
    is a valid date other than a 29th of February: no turn of the loop
    raises. *)
Lemma upcoming_returns_without_29_february
    (book : AddressBook) (today : date) (days : Z) :
  valid_date today -> (year today <= 9998)%Z ->
  Forall (fun record => forall b,
            Record_birthday record = Some b ->
            valid_date (datetime_date (Birthday_date b))
            /\ ~ (dt_month (Birthday_date b) = 2
                  /\ dt_day (Birthday_date b) = 29)%Z)
    (dict_values (AddressBook_data book)) ->
  is_Ok (get_upcoming_birthdays book today days).
Proof.
  intros Htoday Hmax Hall.
  unfold get_upcoming_birthdays.
  destruct (upcoming_loop_spec today days
              (dict_values (AddressBook_data book)) []) as (out & Hout & _).
  - eapply Forall_impl; [exact Hall|]. intros record Hrec b Hb.
    destruct (Hrec b Hb) as [Hv Hfeb].
    destruct (birthday_this_year_total today _ Htoday Hmax Hv Hfeb) as [p Hp].
    exists p. unfold projected. by rewrite Hb, Hp.
  - by exists out.
Qed.

(** ** Parsing birthdays *)

Module StrptimeFacts.
Import Unicode UnicodeFacts.

(** *** Matchers and their languages *)

Lemma re_class_exactly p :
  matches_exactly (re_class p) (fun x => exists c, x = [c] /\ p c = true).
Proof.
  intros s x r. unfold re_class. destruct s as [|c s].
  - split; [by intros ?%elem_of_nil|]. intros [? (c & -> & _)]. done.
  - destruct (p c) eqn:Hp.
    + rewrite list_elem_of_singleton. split.
      * intros [= -> ->]. eauto.
      * intros [Hs (c' & -> & _)]. by injection Hs as <- <-.
    + split; [by intros ?%elem_of_nil|].
      intros [Hs (c' & -> & ?)]. injection Hs as <- <-. congruence.
Qed.

Lemma re_seq_exactly a b La Lb :
  matches_exactly a La -> matches_exactly b Lb ->
  matches_exactly (re_seq a b)
    (fun x => exists x1 x2, x = x1 ++ x2 /\ La x1 /\ Lb x2).
Proof.
  intros Ha Hb s x r. unfold re_seq. rewrite list_elem_of_bind. split.
  - intros ([x1 r1] & Hin & H1). apply Ha in H1 as [-> H1].
    apply list_elem_of_bind in Hin as ([x2 r2] & Hin & H2).
    apply Hb in H2 as [-> H2].
    apply list_elem_of_singleton in Hin as [= -> ->].
    rewrite app_assoc. eauto 10.
  - intros [-> (x1 & x2 & -> & H1 & H2)].
    exists (x1, x2 ++ r). split.
    + apply list_elem_of_bind. exists (x2, r). split.
      * by apply list_elem_of_singleton.
      * by apply Hb.
    + apply Ha. by rewrite app_assoc.
Qed.

Lemma re_alt_exactly a b La Lb :
  matches_exactly a La -> matches_exactly b Lb ->
  matches_exactly (re_alt a b) (fun x => La x \/ Lb x).
Proof.
  intros Ha Hb s x r. unfold re_alt.
  rewrite elem_of_app, (Ha s x r), (Hb s x r). tauto.
Qed.

Lemma matches_exactly_iff m L L' :
  (forall x, L x <-> L' x) -> matches_exactly m L -> matches_exactly m L'.
Proof. intros HL Hm s x r. rewrite (Hm s x r), HL. done. Qed.

(** *** Digits and their values *)

Lemma in_ranges_disjoint t1 t2 c :
  disjoint_ranges t1 t2 = true ->
  in_ranges t1 c = true -> in_ranges t2 c = false.
Proof.
  unfold disjoint_ranges, in_ranges. rewrite forallb_forall, existsb_exists.
  intros Hdis (r1 & Hr1 & Hc1).
  apply not_true_is_false. rewrite existsb_exists. intros (r2 & Hr2 & Hc2).
  specialize (Hdis r1 Hr1). rewrite forallb_forall in Hdis.
  specialize (Hdis r2 Hr2).
  apply andb_true_iff in Hc1 as [?%N.leb_le ?%N.leb_le].
  apply andb_true_iff in Hc2 as [?%N.leb_le ?%N.leb_le].
  apply orb_true_iff in Hdis as [?%N.ltb_lt|?%N.ltb_lt]; lia.
Qed.

Lemma decimal_value_isdecimal c :
  isdecimal c = true <-> is_Some (decimal_value c).
Proof.
  unfold isdecimal, in_ranges, decimal_value.
  generalize decimal_ranges. intros l. induction l as [|r l IH]; simpl.
  - split; [done|]. by intros [? ?].
  - destruct (_ && _); simpl; [|done]. split; [eauto|done].
Qed.

Lemma decimal_value_not_space c v :
  decimal_value c = Some v -> is_int_space c = false.
Proof.
  intros H. apply (in_ranges_disjoint decimal_ranges); [by vm_compute|].
  apply decimal_value_isdecimal. eauto.
Qed.

Lemma decimal_value_digit c v :
  decimal_value c = Some v -> (0 <= v <= 9)%Z.
Proof.
  unfold decimal_value. destruct (find _ _) as [r|]; [|done]. intros [= <-].
  pose proof (N.mod_upper_bound (c - r.1) 10 ltac:(done)) as Hk.
  revert Hk. generalize ((c - r.1) mod 10)%N. intros k Hk. lia.
Qed.

(** A character in a range of ASCII digits is one of finitely many. *)
Ltac enum_char H :=
  match type of H with
  | char_in ?lo ?hi ?c =>
      let l := eval vm_compute in (N_of_ascii lo) in
      let h := eval vm_compute in (N_of_ascii hi) in
      change (l <= c <= h)%N in H;
      let rec go k :=
        (first [ constr_eq k h; assert (c = h) as -> by lia
               | destruct (N.eq_dec c k) as [->|?];
                 [|let k' := eval vm_compute in (N.succ k) in go k'] ])
      in go l
  end.

Lemma py_int_day x v : day_text x v -> py_int x = Ok v.
Proof.
  destruct 1 as [c Hc|a c v Ha Hc|c Hc|c Hc|c Hc].
  - enum_char Hc; vm_compute; reflexivity.
  - pose proof (decimal_value_not_space c v Hc) as Hsp.
    enum_char Ha; unfold py_int, ascii_value;
      cbn [drop_while rev app]; change (is_int_space 49) with false;
      change (is_int_space 50) with false; cbn [drop_while rev app];
      rewrite Hsp; cbn [drop_while rev app digits_value];
      change (decimal_value 49) with (Some 1%Z);
      change (decimal_value 50) with (Some 2%Z);
      cbn [digits_value]; rewrite Hc; f_equal; lia.
  - enum_char Hc; vm_compute; reflexivity.
  - enum_char Hc; vm_compute; reflexivity.
  - enum_char Hc; vm_compute; reflexivity.
Qed.

Lemma py_int_month x v : month_text x v -> py_int x = Ok v.
Proof.
  destruct 1 as [c Hc|c Hc|c Hc]; enum_char Hc; vm_compute; reflexivity.
Qed.

Lemma py_int_year x v : year_text x v -> py_int x = Ok v.
Proof.
  destruct 1 as [c1 c2 c3 c4 v1 v2 v3 v4 H1 H2 H3 H4].
  unfold py_int. cbn [drop_while rev app].
  rewrite (decimal_value_not_space _ _ H1). cbn [drop_while rev app].
  rewrite (decimal_value_not_space _ _ H4).
  cbn [drop_while rev app digits_value].
  rewrite H1, H2, H3, H4. f_equal. lia.
Qed.

(** *** The three groups *)

Lemma re_char_exactly a :
  matches_exactly (re_char a) (fun x => x = [N_of_ascii a]).
Proof.
  eapply matches_exactly_iff; [|apply re_class_exactly].
  intros x. split.
  - intros (c & -> & ->%N.eqb_eq). done.
  - intros ->. eexists. split; [done|]. apply N.eqb_refl.
Qed.

Lemma re_range_exactly lo hi :
  matches_exactly (re_range lo hi) (fun x => exists c, x = [c] /\ char_in lo hi c).
Proof.
  eapply matches_exactly_iff; [|apply re_class_exactly].
  intros x. unfold char_in. split.
  - intros (c & -> & [?%N.leb_le ?%N.leb_le]%andb_true_iff). eauto.
  - intros (c & -> & [? ?]). eexists. split; [done|].
    apply andb_true_iff. split; by apply N.leb_le.
Qed.

Lemma re_digit_exactly :
  matches_exactly re_digit
    (fun x => exists c v, x = [c] /\ decimal_value c = Some v).
Proof.
  eapply matches_exactly_iff; [|apply re_class_exactly].
  intros x. split.
  - intros (c & -> & [v Hv]%decimal_value_isdecimal). eauto.
  - intros (c & v & -> & Hv). eexists. split; [done|].
    apply decimal_value_isdecimal. eauto.
Qed.

Lemma re_d_exactly : matches_exactly re_d (fun x => exists v, day_text x v).
Proof.
  eapply matches_exactly_iff;
    [|unfold re_d;
      repeat first [ apply re_alt_exactly | apply re_seq_exactly
                   | apply re_char_exactly | apply re_range_exactly
                   | apply re_digit_exactly ]].
  intros x. simpl. split.
  - intros [[[[H|H]|H]|H]|H].
    + destruct H as (? & ? & -> & -> & (c & -> & Hc)).
      eexists. by apply day_3x.
    + destruct H as (? & ? & -> & (a & -> & Ha) & (c & v & -> & Hc)).
      eexists. by eapply day_12x.
    + destruct H as (? & ? & -> & -> & (c & -> & Hc)).
      eexists. by apply day_0x.
    + destruct H as (c & -> & Hc). eexists. by apply day_x.
    + destruct H as (? & ? & -> & -> & (c & -> & Hc)).
      eexists. by apply day_space_x.
  - intros [v [c Hc|a c v' Ha Hc|c Hc|c Hc|c Hc]].
    + do 4 left. exists [51%N], [c]. eauto 10.
    + do 3 left. right. exists [a], [c]. eauto 10.
    + do 2 left. right. exists [48%N], [c]. eauto 10.
    + left. right. eauto.
    + right. exists [32%N], [c]. eauto 10.
Qed.

Lemma re_m_exactly : matches_exactly re_m (fun x => exists v, month_text x v).
Proof.
  eapply matches_exactly_iff;
    [|unfold re_m;
      repeat first [ apply re_alt_exactly | apply re_seq_exactly
                   | apply re_char_exactly | apply re_range_exactly ]].
  intros x. simpl. split.
  - intros [[H|H]|H].
    + destruct H as (? & ? & -> & -> & (c & -> & Hc)).
      eexists. by apply month_1x.
    + destruct H as (? & ? & -> & -> & (c & -> & Hc)).
      eexists. by apply month_0x.
    + destruct H as (c & -> & Hc). eexists. by apply month_x.
  - intros [v [c Hc|c Hc|c Hc]].
    + do 2 left. exists [49%N], [c]. eauto 10.
    + left. right. exists [48%N], [c]. eauto 10.
    + right. eauto.
Qed.

Lemma re_Y_exactly : matches_exactly re_Y (fun x => exists v, year_text x v).
Proof.
  eapply matches_exactly_iff;
    [|unfold re_Y;
      repeat first [ apply re_seq_exactly | apply re_digit_exactly ]].
  intros x. simpl. split.
  - intros (? & ? & -> & (? & ? & -> & (? & ? & -> & (c1 & v1 & -> & H1)
              & (c2 & v2 & -> & H2)) & (c3 & v3 & -> & H3))
              & (c4 & v4 & -> & H4)).
    eexists. by eapply year_4.
  - intros [v [c1 c2 c3 c4 v1 v2 v3 v4 H1 H2 H3 H4]].
    exists [c1; c2; c3], [c4]. split; [done|]. split; [|eauto].
    exists [c1; c2], [c3]. split; [done|]. split; [|eauto].
    exists [c1], [c2]. eauto 10.
Qed.

(** *** The whole pattern *)

Lemma format_regex_elem s D M Y rest :
  (D, M, Y, rest) ∈ format_regex s <->
  exists d m y, reads_as s D M Y rest d m y.
Proof.
  unfold format_regex, reads_as. change (text ".") with [46%N]. split.
  - intros H.
    apply list_elem_of_bind in H as ([D' r1] & H & HD).
    apply list_elem_of_bind in H as ([dot1 r2] & H & Hdot1).
    apply list_elem_of_bind in H as ([M' r3] & H & HM).
    apply list_elem_of_bind in H as ([dot2 r4] & H & Hdot2).
    apply list_elem_of_bind in H as ([Y' r5] & H & HY).
    apply list_elem_of_singleton in H as [= <- <- <- <-].
    apply re_d_exactly in HD as [-> [d Hd]].
    apply (re_char_exactly ".") in Hdot1 as [-> ->].
    apply re_m_exactly in HM as [-> [m Hm]].
    apply (re_char_exactly ".") in Hdot2 as [-> ->].
    apply re_Y_exactly in HY as [-> [y Hy]].
    exists d, m, y. done.
  - intros (d & m & y & -> & Hd & Hm & Hy).
    apply list_elem_of_bind.
    exists (D, [46%N] ++ M ++ [46%N] ++ Y ++ rest).
    split; [|apply re_d_exactly; eauto].
    apply list_elem_of_bind. exists ([46%N], M ++ [46%N] ++ Y ++ rest).
    split; [|by apply (re_char_exactly ".")].
    apply list_elem_of_bind. exists (M, [46%N] ++ Y ++ rest).
    split; [|apply re_m_exactly; eauto].
    apply list_elem_of_bind. exists ([46%N], Y ++ rest).
    split; [|by apply (re_char_exactly ".")].
    apply list_elem_of_bind. exists (Y, rest).
    split; [|apply re_Y_exactly; eauto].
    by apply list_elem_of_singleton.
Qed.

Lemma decimal_value_dot : decimal_value 46 = None.
Proof. reflexivity. Qed.

Local Ltac clash :=
  repeat match goal with
         | H : char_in ?lo ?hi ?c |- _ =>
             let l := eval vm_compute in (N_of_ascii lo) in
             let h := eval vm_compute in (N_of_ascii hi) in
             change (l <= c <= h)%N in H
         | H : decimal_value 46 = Some _ |- _ =>
             rewrite decimal_value_dot in H; discriminate H
         end;
  try lia.

Lemma day_text_unique D D' t t' d d' :
  day_text D d -> day_text D' d' ->
  D ++ 46%N :: t = D' ++ 46%N :: t' -> D = D' /\ t = t'.
Proof.
  destruct 1; destruct 1; simpl; intros ?; simplify_eq; try done; clash.
Qed.

Lemma month_text_unique M M' t t' m m' :
  month_text M m -> month_text M' m' ->
  M ++ 46%N :: t = M' ++ 46%N :: t' -> M = M' /\ t = t'.
Proof.
  destruct 1; destruct 1; simpl; intros ?; simplify_eq; try done; clash.
Qed.

Lemma year_text_unique Y Y' t t' y y' :
  year_text Y y -> year_text Y' y' -> Y ++ t = Y' ++ t' -> Y = Y' /\ t = t'.
Proof. destruct 1; destruct 1; simpl; intros ?; by simplify_eq. Qed.

Lemma reads_as_unique s D M Y rest d m y D' M' Y' rest' d' m' y' :
  reads_as s D M Y rest d m y -> reads_as s D' M' Y' rest' d' m' y' ->
  D = D' /\ M = M' /\ Y = Y' /\ rest = rest'
  /\ d = d' /\ m = m' /\ y = y'.
Proof.
  unfold reads_as. change (text ".") with [46%N]. simpl.
  intros (-> & Hd & Hm & Hy) (Heq & Hd' & Hm' & Hy').
  destruct (day_text_unique _ _ _ _ _ _ Hd Hd' Heq) as [<- Heq1].
  destruct (month_text_unique _ _ _ _ _ _ Hm Hm' Heq1) as [<- Heq2].
  destruct (year_text_unique _ _ _ _ _ _ Hy Hy' Heq2) as [<- <-].
  split_and!; try done.
  - apply py_int_day in Hd, Hd'. congruence.
  - apply py_int_month in Hm, Hm'. congruence.
  - apply py_int_year in Hy, Hy'. congruence.
Qed.

(** The match the engine reports is the one reading of the text. *)
Lemma head_format_regex s D M Y rest :
  head (format_regex s) = Some (D, M, Y, rest) <->
  exists d m y, reads_as s D M Y rest d m y.
Proof.
  rewrite <- format_regex_elem. split.
  - intros H. destruct (format_regex s); [done|].
    injection H as ->. left.
  - intros Hin. destruct (format_regex s) as [|[[[D' M'] Y'] rest'] l] eqn:E.
    + by apply elem_of_nil in Hin.
    + simpl. f_equal.
      assert ((D', M', Y', rest') ∈ format_regex s) as Hin'
        by (rewrite E; left).
      rewrite <- E in Hin.
      apply format_regex_elem in Hin as (d & m & y & H).
      apply format_regex_elem in Hin' as (d' & m' & y' & H').
      destruct (reads_as_unique _ _ _ _ _ _ _ _ _ _ _ _ _ _ _ H H')
        as (-> & -> & -> & -> & _). done.
Qed.
(** *** [strptime] and [Birthday] *)

Lemma strptime_dmY_Ok s dt :
  strptime_dmY s = Ok dt <->
  exists D M Y d m y,
    reads_as s D M Y [] d m y /\ valid_date (mkdate y m d)
    /\ dt = mkdatetime y m d 0 0 0 0.
Proof.
  unfold strptime_dmY. split.
  - destruct (head (format_regex s)) as [[[[D M] Y] rest]|] eqn:E; [|done].
    case_bool_decide as Hrest; simpl; [subst rest|done].
    apply head_format_regex in E as (d & m & y & H).
    pose proof H as (_ & Hd & Hm & Hy).
    rewrite (py_int_day _ _ Hd), (py_int_month _ _ Hm), (py_int_year _ _ Hy).
    simpl. intros Hnew. apply bind_Ok in Hnew as (x & Hx & [= <-]).
    apply DatetimeFacts.date_new_Ok in Hx as [Hv _].
    exists D, M, Y, d, m, y. done.
  - intros (D & M & Y & d & m & y & H & Hv & ->).
    pose proof H as (_ & Hd & Hm & Hy).
    assert (head (format_regex s) = Some (D, M, Y, [])) as ->
      by (apply head_format_regex; eauto).
    simpl.
    rewrite (py_int_day _ _ Hd), (py_int_month _ _ Hm), (py_int_year _ _ Hy).
    simpl. by rewrite (DatetimeFacts.date_new_valid _ _ _ Hv).
Qed.

Lemma py_int_Raise x e : py_int x = Raise e -> exn_cls e = ValueError.
Proof. unfold py_int. repeat case_match; naive_solver. Qed.

Lemma strptime_dmY_Raise s e :
  strptime_dmY s = Raise e -> exn_cls e = ValueError.
Proof.
  unfold strptime_dmY. repeat case_match; try naive_solver.
  intros Hraise.
  repeat match goal with
         | H : _ ≫= _ = Raise _ |- _ =>
             apply bind_Raise in H as [H|(? & _ & H)]
         | H : py_int _ = Raise _ |- _ => by apply py_int_Raise in H
         | H : date_new _ _ _ = Raise _ |- _ =>
             by apply DatetimeFacts.date_new_Raise in H as [_ ?]
         end; done.
Qed.

Lemma Birthday_init_Ok s b :
  Birthday_init s = Ok b <->
  exists D M Y d m y,
    reads_as s D M Y [] d m y /\ valid_date (mkdate y m d)
    /\ b = mkBirthday (mkdatetime y m d 0 0 0 0) s.
Proof.
  unfold Birthday_init. split.
  - destruct (strptime_dmY s) as [dt|e] eqn:E; [|case_match; done].
    intros [= <-].
    apply strptime_dmY_Ok in E as (D & M & Y & d & m & y & H & Hv & ->).
    exists D, M, Y, d, m, y. done.
  - intros (D & M & Y & d & m & y & H & Hv & ->).
    assert (strptime_dmY s = Ok (mkdatetime y m d 0 0 0 0)) as ->; [|done].
    apply strptime_dmY_Ok. exists D, M, Y, d, m, y. done.
Qed.

Lemma Birthday_init_Raise s e :
  Birthday_init s = Raise e -> e = Exn ValueError msg_invalid_date_format.
Proof.
  unfold Birthday_init. destruct (strptime_dmY s) as [dt|e'] eqn:E; [done|].
  apply strptime_dmY_Raise in E. rewrite decide_True by done. congruence.
Qed.

Lemma Birthday_init_valid_datetime s b :
  Birthday_init s = Ok b -> valid_datetime (Birthday_date b).
Proof.
  intros (D & M & Y & d & m & y & _ & Hv & ->)%Birthday_init_Ok.
  split; [done|]. simpl. lia.
Qed.

Lemma ascii_digit_value c :
  ascii_digit c -> decimal_value c = Some (ascii_value c) /\ char_in "0" "9" c.
Proof.
  unfold ascii_digit, is_ascii_digit.
  intros [?%N.leb_le ?%N.leb_le]%andb_true_iff.
  assert (char_in "0" "9" c) as Hc by (unfold char_in; simpl; lia).
  split; [|done]. enum_char Hc; reflexivity.
Qed.

(** A text DD.MM.YYYY reads as the numbers its digits spell, provided
    these make a date. *)
Lemma DD_MM_YYYY_reads_as d1 d2 m1 m2 y1 y2 y3 y4 :
  Forall ascii_digit [d1; d2; m1; m2; y1; y2; y3; y4] ->
  let d := (10 * ascii_value d1 + ascii_value d2)%Z in
  let m := (10 * ascii_value m1 + ascii_value m2)%Z in
  let y := (1000 * ascii_value y1 + 100 * ascii_value y2
            + 10 * ascii_value y3 + ascii_value y4)%Z in
  valid_date (mkdate y m d) ->
  reads_as [d1; d2; 46%N; m1; m2; 46%N; y1; y2; y3; y4]
    [d1; d2] [m1; m2] [y1; y2; y3; y4] [] d m y.
Proof.
  intros Hall d m y (Hy & Hm & Hd). simpl in Hy, Hm, Hd.
  assert (1 <= d <= 31)%Z as Hd'
    by (pose proof (DatetimeFacts.days_in_month_le_31 y m Hm); lia).
  clear Hy Hd.
  repeat match goal with
         | H : Forall _ (_ :: _) |- _ =>
             apply Forall_cons in H as [[? ?]%ascii_digit_value H]
         end.
  split; [done|]. split_and!.
  - clear Hm. subst d. clearbody m y.
    match goal with H : char_in _ _ d1 |- _ => enum_char H end;
    match goal with H : char_in _ _ d2 |- _ => enum_char H end;
      first [ exfalso; unfold ascii_value in Hd'; simpl in Hd'; lia
            | apply (day_0x _); vm_compute; split; discriminate
            | apply (day_3x _); vm_compute; split; discriminate
            | match goal with
              | |- day_text [?a; ?c] _ =>
                  apply (day_12x a c (ascii_value c));
                  [vm_compute; split; discriminate|reflexivity]
              end ].
  - clear Hd'. subst m. clearbody d y.
    match goal with H : char_in _ _ m1 |- _ => enum_char H end;
    match goal with H : char_in _ _ m2 |- _ => enum_char H end;
      first [ exfalso; unfold ascii_value in Hm; simpl in Hm; lia
            | apply (month_0x _); vm_compute; split; discriminate
            | apply (month_1x _); vm_compute; split; discriminate ].
  - subst y. by apply year_4.
Qed.
End StrptimeFacts.


(** X16 (Birthday.__init__): a [Birthday] is built exactly from the texts
    that read as a day, a dot, a month, a dot and a four-digit year (day
    and month with one or two digits, see [day_text] and [month_text]) and
    whose numbers make a date of the calendar; it then holds the text as
    given and the date at midnight.  Every text DD.MM.YYYY that spells a
    date is among them.  Every other text raises the [ValueError] "Invalid
    date format. Use DD.MM.YYYY"; so do "30.02.2024" and "13/05/2024". *)
Theorem Birthday_init_accepts_day_month_year_texts :
  (forall s b,
      Birthday_init s = Ok b <->
      exists D M Y d m y,
        reads_as s D M Y [] d m y /\ valid_date (mkdate y m d)
        /\ b = mkBirthday (mkdatetime y m d 0 0 0 0) s)
  /\ (forall s e,
        Birthday_init s = Raise e ->
        e = Exn ValueError msg_invalid_date_format /\ InvalidFormat e)
  /\ (forall d1 d2 m1 m2 y1 y2 y3 y4,
        Forall ascii_digit [d1; d2; m1; m2; y1; y2; y3; y4] ->
        valid_date
          (mkdate (1000 * ascii_value y1 + 100 * ascii_value y2
                   + 10 * ascii_value y3 + ascii_value y4)
                  (10 * ascii_value m1 + ascii_value m2)
                  (10 * ascii_value d1 + ascii_value d2)) ->
        is_Ok (Birthday_init [d1; d2; 46%N; m1; m2; 46%N; y1; y2; y3; y4]))
  /\ Birthday_init (text "30.02.2024")
     = Raise (Exn ValueError msg_invalid_date_format)
  /\ Birthday_init (text "13/05/2024")
     = Raise (Exn ValueError msg_invalid_date_format).
Proof.
  split_and!.
  - apply StrptimeFacts.Birthday_init_Ok.
  - intros s e ->%StrptimeFacts.Birthday_init_Raise. split; [done|]. by right.
  - intros d1 d2 m1 m2 y1 y2 y3 y4 Hall Hv.
    eexists. apply StrptimeFacts.Birthday_init_Ok.
    do 6 eexists. split; [|split; [exact Hv|reflexivity]].
    by apply StrptimeFacts.DD_MM_YYYY_reads_as.
  - reflexivity.
  - reflexivity.
Qed.

(** An instance: "1.5.2024" does not have the form DD.MM.YYYY, and a
    [Birthday] is built from it, for 1 May 2024. *)
Lemma Birthday_init_accepts_unpadded_text :
  Birthday_init (text "1.5.2024")
  = Ok (mkBirthday (mkdatetime 2024 5 1 0 0 0 0) (text "1.5.2024"))
  /\ ~ matches_DD_MM_YYYY (text "1.5.2024").
Proof.
  split; [reflexivity|].
  intros (d1 & d2 & m1 & m2 & y1 & y2 & y3 & y4 & Heq & _). discriminate Heq.
Qed.

(** ** Pickling *)

Module PickleFacts.
Import Pickle.
Local Open Scope Z_scope.

(** An induction principle that reaches the objects inside lists,
  dictionaries and instances. *)
Section pyobj_induction.
Variable P : pyobj -> Prop.
Hypothesis HNone : P PyNone.
Hypothesis HStr : forall s, P (PyStr s).
Hypothesis HList : forall items, Forall P items -> P (PyList items).
Hypothesis HDict :
  forall items, Forall (fun kv => P kv.2) items -> P (PyDict items).
Hypothesis HDatetime : forall d, P (PyDatetime d).
Hypothesis HInstance :
  forall cls attrs, Forall (fun kv => P kv.2) attrs -> P (PyInstance cls attrs).

Fixpoint pyobj_nested_ind (o : pyobj) : P o :=
  match o with
  | PyNone => HNone
  | PyStr s => HStr s
  | PyList items =>
  HList items
    ((fix go (l : list pyobj) : Forall P l :=
        match l with
        | [] => List.Forall_nil P
        | x :: l' => List.Forall_cons P x l' (pyobj_nested_ind x) (go l')
        end) items)
  | PyDict items =>
  HDict items
    ((fix go (l : list (str * pyobj)) : Forall (fun kv => P kv.2) l :=
        match l with
        | [] => List.Forall_nil _
        | kv :: l' =>
            List.Forall_cons (fun kv => P kv.2) kv l'
              (pyobj_nested_ind kv.2) (go l')
        end) items)
  | PyDatetime d => HDatetime d
  | PyInstance cls attrs =>
  HInstance cls attrs
    ((fix go (l : list (str * pyobj)) : Forall (fun kv => P kv.2) l :=
        match l with
        | [] => List.Forall_nil _
        | kv :: l' =>
            List.Forall_cons (fun kv => P kv.2) kv l'
              (pyobj_nested_ind kv.2) (go l')
        end) attrs)
  end.
End pyobj_induction.

(** *** The state of a [datetime] *)

Lemma lor_shiftl_8 a b :
0 <= a -> 0 <= b < 256 -> Z.lor (Z.shiftl a 8) b = a * 256 + b.
Proof.
intros Ha Hb.
rewrite <- Z.add_lor_land, Z.shiftl_mul_pow2 by lia.
change (2 ^ 8) with 256.
assert (Z.land (a * 256) b = 0) as ->; [|lia].
apply Z.bits_inj'. intros n Hn.
rewrite Z.land_spec, Z.bits_0.
destruct (Z.lt_ge_cases n 8) as [Hlt|Hge].
- change 256 with (2 ^ 8). rewrite Z.mul_pow2_bits_low by lia. done.
- assert (Z.testbit b n = false) as ->; [|by rewrite andb_false_r].
  destruct (Z.eq_dec b 0) as [->|]; [apply Z.bits_0|].
  apply Z.bits_above_log2; [lia|].
  assert (Z.log2 b < 8); [|lia].
  apply Z.log2_lt_pow2; lia.
Qed.

Lemma py_bytes_Ok l :
  Forall (fun b => 0 <= b < 256) l -> py_bytes l = Ok l.
Proof.
  intros H. unfold py_bytes.
  replace (forallb _ l) with true; [done|].
  symmetry. apply forallb_forall. intros b Hb%list_elem_of_In.
  rewrite Forall_forall in H. specialize (H b Hb). lia.
Qed.

Lemma datetime_state_roundtrip d :
  valid_datetime d ->
  exists b, datetime_getstate d = Ok b /\ datetime_setstate b = Ok d.
Proof.
  destruct d as [y m dd hh mi ss us].
  intros ((Hy & Hm & Hd) & Hh & Hmi & Hs & Hus). simpl in *.
  pose proof (DatetimeFacts.days_in_month_le_31 y m Hm) as H31.
  unfold datetime_getstate. cbv zeta.
  cbn [dt_year dt_month dt_day dt_hour dt_minute dt_second dt_microsecond].
  set (yhi := y / 256). set (ylo := y mod 256).
  set (us3 := us mod 256). set (us2 := us / 256 mod 256).
  set (us1 := us / 256 / 256).
  assert (0 <= yhi < 256 /\ 0 <= ylo < 256 /\ y = yhi * 256 + ylo)
    as (? & ? & Hyeq)
    by (subst yhi ylo; Z.div_mod_to_equations; lia).
  assert (0 <= us1 < 256 /\ 0 <= us2 < 256 /\ 0 <= us3 < 256
          /\ us = (us1 * 256 + us2) * 256 + us3) as (? & ? & ? & Huseq)
    by (subst us1 us2 us3; Z.div_mod_to_equations; lia).
  rewrite py_bytes_Ok by (repeat constructor; lia).
  eexists. split; [done|].
  unfold datetime_setstate.
  assert (Z.land m 127 = m) as ->.
  { assert (m = 1 \/ m = 2 \/ m = 3 \/ m = 4 \/ m = 5 \/ m = 6 \/ m = 7
            \/ m = 8 \/ m = 9 \/ m = 10 \/ m = 11 \/ m = 12) as Hc by lia.
    repeat (destruct Hc as [->|Hc]); try subst m; reflexivity. }
  replace ((1 <=? m) && (m <=? 12) && (m <=? 127)) with true
    by (symmetry; rewrite !andb_true_iff; lia).
  rewrite (lor_shiftl_8 us1 us2) by lia. rewrite lor_shiftl_8 by lia.
  by rewrite <- Hyeq, <- Huseq.
Qed.

(** *** Saving and loading objects *)

Lemma wf_list_Forall items :
  foldr (fun x acc => wf_obj x /\ acc) True items <-> Forall wf_obj items.
Proof.
  induction items as [|x items IH]; simpl.
  - split; [constructor|done].
  - rewrite IH, Forall_cons. done.
Qed.

Lemma wf_items_Forall (items : dict pyobj) :
  foldr (fun kv acc => wf_obj kv.2 /\ acc) True items
  <-> Forall (fun kv => wf_obj kv.2) items.
Proof.
  induction items as [|x items IH]; simpl.
  - split; [constructor|done].
  - rewrite IH, Forall_cons. done.
Qed.

Lemma setitems_app (acc items : dict pyobj) :
  NoDup (dict_keys (acc ++ items)) -> setitems acc items = acc ++ items.
Proof.
  unfold setitems, dict_keys. revert acc.
  induction items as [|[k v] items IH]; intros acc Hnd; simpl.
  - by rewrite app_nil_r.
  - assert (dict_setitem acc k v = acc ++ [(k, v)]) as ->.
    { apply dict_setitem_fresh, dict_get_None_keys. unfold dict_keys.
      rewrite fmap_app in Hnd. apply NoDup_app in Hnd as (_ & Hdis & _).
      intros Hin. apply (Hdis k Hin). simpl. left. }
    rewrite IH; rewrite <- app_assoc; done.
Qed.

Lemma setitems_nil (items : dict pyobj) :
  NoDup (dict_keys items) -> setitems [] items = items.
Proof. intros. by apply (setitems_app []). Qed.

Lemma mapM_save_load items :
  Forall roundtrips items ->
  exists ps, mapM save items = Ok ps /\ mapM load ps = Ok items.
Proof.
  induction 1 as [|o items (p & Hs & Hl) _ (ps & Hss & Hls)]; simpl.
  - by exists [].
  - exists (p :: ps). rewrite Hs; simpl. rewrite Hss; simpl.
    split; [done|]. rewrite Hl; simpl. by rewrite Hls.
Qed.

Lemma mapM_items_save_load (items : dict pyobj) :
  Forall (fun kv => roundtrips kv.2) items ->
  exists ps,
    mapM (fun kv => v ← save kv.2; Ok (P_UNICODE kv.1, v)) items = Ok ps
    /\ mapM (fun kv => k ← load_key kv.1; v ← load kv.2; Ok (k, v)) ps
       = Ok items
    /\ (ps = [] -> items = []).
Proof.
  induction 1 as [|[k o] items (p & Hs & Hl) _ (ps & Hss & Hls & _)]; simpl.
  - by exists [].
  - simpl in Hs, Hl. exists ((P_UNICODE k, p) :: ps).
    rewrite Hs; simpl. rewrite Hss; simpl.
    split; [done|]. rewrite Hl; simpl. rewrite Hls. done.
Qed.

(** Every well-formed object is saved without error and loaded back as it
    was. *)
Lemma save_load o : wf_obj o -> roundtrips o.
Proof.
  induction o as [|s|items IH|items IH|d|cls attrs IH]
    using pyobj_nested_ind; intros Hwf.
  - by exists P_NONE.
  - by exists (P_UNICODE s).
  - simpl in Hwf. apply wf_list_Forall in Hwf.
    destruct (mapM_save_load items) as (ps & Hs & Hl).
    { rewrite Forall_forall in *. auto. }
    exists (P_LIST ps). unfold roundtrips. simpl.
    rewrite Hs. simpl. by rewrite Hl.
  - simpl in Hwf. destruct Hwf as [Hnd Hwf]. apply wf_items_Forall in Hwf.
    destruct (mapM_items_save_load items) as (ps & Hs & Hl & _).
    { rewrite Forall_forall in *. auto. }
    exists (P_DICT ps). simpl.
    rewrite Hs. simpl. rewrite Hl. simpl. by rewrite setitems_nil.
  - simpl in Hwf.
    destruct (datetime_state_roundtrip d Hwf) as (b & Hg & Hset).
    eexists. simpl. rewrite Hg. simpl. split; [done|].
    simpl. by rewrite Hset.
  - simpl in Hwf. destruct Hwf as (Hcls & Hnd & Hwf).
    apply wf_items_Forall in Hwf.
    destruct (mapM_items_save_load attrs) as (ps & Hs & Hl & Hnil).
    { rewrite Forall_forall in *. auto. }
    eexists. simpl. rewrite Hs. simpl. split; [done|].
    assert (find_class "__main__" cls = Ok (C_main cls)) as Hfind.
    { unfold find_class. rewrite bool_decide_eq_false_2 by (by intros [? _]).
      by rewrite bool_decide_eq_true_2. }
    destruct ps as [|p ps].
    + rewrite (Hnil eq_refl). simpl. by rewrite Hfind.
    + simpl. rewrite Hfind. simpl. simpl in Hl. rewrite Hl. simpl.
      by rewrite setitems_nil.
Qed.
End PickleFacts.

(** *** The classes of the program as objects *)

Lemma as_Name_obj n : as_Name (Name_obj n) = Some n.
Proof. by destruct n. Qed.

Lemma as_Phone_obj p : as_Phone (Phone_obj p) = Some p.
Proof. by destruct p. Qed.

Lemma as_Birthday_obj b : as_Birthday (Birthday_obj b) = Some b.
Proof. by destruct b. Qed.

Lemma mapM_as_Phone phones : mapM as_Phone (Phone_obj <$> phones) = Some phones.
Proof.
  induction phones as [|p phones IH]; [done|].
  rewrite fmap_cons. cbn [mapM]. rewrite as_Phone_obj. simpl.
  by rewrite IH.
Qed.

Lemma as_Record_obj r : as_Record (Record_obj r) = Some r.
Proof.
  destruct r as [n phones b]. unfold Record_obj, as_Record.
  cbn [Record_name Record_phones Record_birthday].
  rewrite bool_decide_eq_true_2 by done.
  rewrite as_Name_obj. simpl. rewrite mapM_as_Phone. simpl.
  destruct b as [b|]; simpl; [|done].
  by destruct b.
Qed.

Lemma as_AddressBook_obj book : as_AddressBook (AddressBook_obj book) = Some book.
Proof.
  destruct book as [data]. unfold AddressBook_obj, as_AddressBook.
  cbn [AddressBook_data]. rewrite bool_decide_eq_true_2 by done.
  assert (mapM (fun kv : str * pyobj => r ← as_Record kv.2; Some (kv.1, r))
            (prod_map id Record_obj <$> data) = Some data) as ->; [|done].
  induction data as [|[k r] data IH]; [done|].
  rewrite fmap_cons. cbn [mapM].
  change (prod_map id Record_obj (k, r)) with (k, Record_obj r).
  cbn [fst snd]. rewrite as_Record_obj. simpl.
  by rewrite IH.
Qed.

Lemma wf_obj_Record r : wf_record r -> wf_obj (Record_obj r).
Proof.
  intros Hwf. destruct r as [[n] phones b]. unfold Record_obj.
  cbn [Record_name Record_phones Record_birthday wf_obj foldr snd].
  split_and!; try done.
  - set_solver.
  - unfold dict_keys. simpl. apply NoDup_ListNoDup.
    repeat (constructor; [simpl; intuition discriminate|]). constructor.
  - split; [set_solver|]. split; [|done].
    unfold dict_keys. simpl. apply NoDup_singleton.
  - apply PickleFacts.wf_list_Forall, Forall_fmap, Forall_forall.
    intros [p] _. simpl. split_and!; try done; [set_solver|].
    unfold dict_keys. simpl. apply NoDup_singleton.
  - destruct b as [[d v]|]; simpl; [|done].
    split_and!; try done.
    + set_solver.
    + unfold dict_keys. simpl. apply NoDup_ListNoDup.
      repeat (constructor; [simpl; intuition discriminate|]). constructor.
    + by apply (Hwf (mkBirthday d v)).
Qed.

Lemma wf_obj_AddressBook book : wf_book book -> wf_obj (AddressBook_obj book).
Proof.
  intros [Hnd Hwf]. destruct book as [data]. unfold AddressBook_obj.
  cbn [AddressBook_data wf_obj foldr snd] in *.
  split_and!; try done.
  - set_solver.
  - unfold dict_keys. simpl. apply NoDup_singleton.
  - unfold dict_keys in *. rewrite <- list_fmap_compose.
    erewrite list_fmap_ext; [exact Hnd|]. by intros i [k r].
  - apply PickleFacts.wf_items_Forall, Forall_fmap.
    eapply Forall_impl; [exact Hwf|]. intros [k r] Hr. simpl.
    by apply wf_obj_Record.
Qed.

(** The pickle of a well-formed directory exists and loads as that
    directory. *)
Lemma dumps_book book :
  wf_book book ->
  exists blob,
    Pickle.dumps (AddressBook_obj book) = Ok blob
    /\ Pickle.loads blob = Ok (AddressBook_obj book).
Proof.
  intros Hwf.
  destruct (PickleFacts.save_load _ (wf_obj_AddressBook book Hwf))
    as (blob & Hsave & Hload).
  by exists blob.
Qed.

(** ** Files *)

Lemma open_wb_Ok h filename file :
  open_wb h filename = Ok file <->
  locate h filename = Ok file /\ denied h file mode_wb = None.
Proof.
  unfold open_wb. destruct (locate h filename) as [f|e]; simpl.
  - destruct (denied h f mode_wb) eqn:E; naive_solver.
  - naive_solver.
Qed.

Lemma load_data_stored h files filename file blob obj :
  locate h filename = Ok file -> denied h file mode_rb = None ->
  files !! file = Some (Pickled blob) -> Pickle.loads blob = Ok obj ->
  load_data h filename files = Ok obj.
Proof.
  intros Hloc Hden Hfile Hload. unfold load_data, open_rb.
  rewrite Hloc. simpl. rewrite Hden, Hfile. simpl. by rewrite Hload.
Qed.

Lemma load_data_absent h files filename file :
  locate h filename = Ok file -> denied h file mode_rb = None ->
  files !! file = None ->
  load_data h filename files = Ok (AddressBook_obj AddressBook_init).
Proof.
  intros Hloc Hden Hfile. unfold load_data, open_rb.
  rewrite Hloc. simpl. by rewrite Hden, Hfile.
Qed.

(** What [load_data] returns is a new address book or the object of a
    pickle that some file holds. *)
Lemma load_data_Ok h filename files obj :
  load_data h filename files = Ok obj ->
  obj = AddressBook_obj AddressBook_init
  \/ exists file blob,
       files !! file = Some (Pickled blob) /\ Pickle.loads blob = Ok obj.
Proof.
  unfold load_data, open_rb.
  destruct (locate h filename) as [file|e]; simpl;
    [|try case_decide; naive_solver].
  destruct (denied h file mode_rb) as [e|]; simpl;
    [try case_decide; naive_solver|].
  destruct (files !! file) as [[blob|]|] eqn:Hfile; simpl.
  - destruct (Pickle.loads blob) as [o|e] eqn:Hload; simpl.
    + intros [= <-]. right. by exists file, blob.
    + try case_decide; naive_solver.
  - try case_decide; naive_solver.
  - try case_decide; naive_solver.
Qed.

Lemma save_data_Ok h book filename files file blob :
  open_wb h filename = Ok file ->
  Pickle.dumps (AddressBook_obj book) = Ok blob ->
  save_data h book filename files = (<[file := Pickled blob]> files, Ok tt).
Proof. intros Hopen Hdump. unfold save_data. by rewrite Hopen, Hdump. Qed.

Lemma save_data_open_Raise h book filename files e :
  open_wb h filename = Raise e ->
  save_data h book filename files = (files, Raise e).
Proof. intros Hopen. unfold save_data. by rewrite Hopen. Qed.

(** X17 (save_data, load_data): for a directory with no name twice and
    valid dates, and a path that [open] opens for writing, [save_data]
    returns, changes no other file, and, when the file may be read,
    [load_data] on the same path then returns the directory as it was
    saved: the same names in the same order, each record with its phones
    in order and its birthday, text and date.  When [open] raises (the
    empty path, a file that may not be written), [save_data] raises that
    exception and writes nothing. *)
Theorem save_load_roundtrip
    (h : host) (book : AddressBook) (filename : str) (files : filesystem) :
  wf_book book ->
  (forall file,
      open_wb h filename = Ok file ->
      exists files',
        save_data h book filename files = (files', Ok tt)
        /\ (forall other, other <> file -> files' !! other = files !! other)
        /\ (denied h file mode_rb = None ->
            load_data h filename files' = Ok (AddressBook_obj book)
            /\ as_AddressBook (AddressBook_obj book) = Some book))
  /\ (forall e,
        open_wb h filename = Raise e ->
        save_data h book filename files = (files, Raise e)).
Proof.
  intros Hwf. destruct (dumps_book book Hwf) as (blob & Hdump & Hload).
  split.
  - intros file Hopen. eexists. split; [by apply save_data_Ok|]. split.
    + intros other Hne. by rewrite lookup_insert_ne.
    + intros Hden. split; [|apply as_AddressBook_obj].
      apply open_wb_Ok in Hopen as [Hloc _].
      eapply load_data_stored; eauto. apply lookup_insert_eq.
  - intros e. apply save_data_open_Raise.
Qed.

Lemma save_load_roundtrip_witness :
  (forall file,
      open_wb plain_host default_filename = Ok file ->
      exists files',
        save_data plain_host alice_and_bob default_filename ∅
        = (files', Ok tt)
        /\ (forall other, other <> file -> files' !! other = (∅ : filesystem) !! other)
        /\ (denied plain_host file mode_rb = None ->
            load_data plain_host default_filename files'
            = Ok (AddressBook_obj alice_and_bob)
            /\ as_AddressBook (AddressBook_obj alice_and_bob)
               = Some alice_and_bob))
  /\ (forall e,
        open_wb plain_host default_filename = Raise e ->
        save_data plain_host alice_and_bob default_filename ∅
        = (∅, Raise e)).
Proof.
  apply (save_load_roundtrip plain_host alice_and_bob default_filename ∅).
  split.
  - apply NoDup_ListNoDup.
    repeat (constructor; [simpl; intuition discriminate|]). constructor.
  - constructor; [|constructor; [|constructor]];
      intros b [= <-]; repeat split; by vm_compute.
Defined.

(** With the empty path [open] finds no file: [save_data] raises
    [FileNotFoundError] and [load_data] returns a new, empty address
    book. *)
Example empty_path :
  save_data plain_host alice_and_bob [] ∅
  = (∅, Raise (Exn FileNotFoundError (msg_no_such_file [])))
  /\ load_data plain_host [] ∅ = Ok (AddressBook_obj AddressBook_init).
Proof. split; reflexivity. Qed.

(** ** The invariant of the directory *)

Section dict_invariants.
Context {V : Type} (P : str * V -> Prop).
Implicit Types (d : dict V) (k : str) (v : V).

Lemma dict_setitem_Forall d k v :
Forall P d -> P (k, v) -> Forall P (dict_setitem d k v).
Proof.
rewrite !Forall_forall. intros Hd Hkv kv Hin.
apply dict_setitem_elem in Hin as [->|?]; auto.
Qed.

Lemma dict_delitem_Forall d k d' :
Forall P d -> dict_delitem d k = Ok d' -> Forall P d'.
Proof.
rewrite !Forall_forall. intros Hd Hdel kv Hin.
eapply Hd, dict_delitem_elem; eauto.
Qed.
End dict_invariants.

Section dict_keys_invariants.
Context {V : Type}.
Implicit Types (d : dict V) (k : str) (v : V).

Lemma dict_setitem_NoDup d k v :
NoDup (dict_keys d) -> NoDup (dict_keys (dict_setitem d k v)).
Proof.
intros Hnd. destruct (dict_get d k) as [v'|] eqn:E.
- rewrite dict_keys_setitem_present; [done|eauto].
- rewrite dict_setitem_fresh by done. unfold dict_keys in *.
  rewrite fmap_app. apply NoDup_app.
  split_and!; [done| |apply NoDup_singleton].
  intros k' Hin ->%list_elem_of_singleton.
  by apply dict_get_None_keys in E.
Qed.

Lemma dict_delitem_NoDup d k d' :
NoDup (dict_keys d) -> dict_delitem d k = Ok d' -> NoDup (dict_keys d').
Proof.
unfold dict_keys. revert d'.
induction d as [|[k0 v0] d IH]; intros d'; simpl; [done|].
rewrite NoDup_cons. intros [Hk0 Hnd].
destruct (decide (k0 = k)) as [->|].
- by intros [= <-].
- intros (d'' & Hdel & [= <-])%bind_Ok. simpl.
  apply NoDup_cons. split; [|by apply IH].
  intros ((k1 & v1) & -> & Hin)%list_elem_of_fmap.
  apply Hk0. apply list_elem_of_fmap. exists (k1, v1). split; [done|].
  eapply dict_delitem_elem; eauto.
Qed.
End dict_keys_invariants.

Lemma book_inv_keys_match book : book_inv book -> keys_match book.
Proof.
  intros [_ H]. unfold keys_match. eapply Forall_impl; [exact H|].
  by intros kv [? _].
Qed.

Lemma book_inv_wf_book book : book_inv book -> wf_book book.
Proof.
  intros [Hnd H]. split; [done|]. eapply Forall_impl; [exact H|].
  by intros kv [_ ?].
Qed.

Lemma book_inv_init : book_inv AddressBook_init.
Proof. split; simpl; constructor. Qed.

Lemma book_inv_find book name record :
  book_inv book -> AddressBook_find_record book name = Some record ->
  name = Name_name (Record_name record) /\ wf_record record.
Proof.
  intros [_ H] Hfind. rewrite find_record_get in Hfind.
  apply dict_get_Some_elem in Hfind.
  rewrite Forall_forall in H. apply (H _ Hfind).
Qed.

Lemma book_inv_mutate book name record :
  book_inv book ->
  name = Name_name (Record_name record) -> wf_record record ->
  book_inv (mutate_record book name record).
Proof.
  intros [Hnd H] Hname Hwf. split; simpl.
  - by apply dict_setitem_NoDup.
  - by apply dict_setitem_Forall.
Qed.

Lemma book_inv_add_record book record :
  book_inv book -> wf_record record ->
  book_inv (AddressBook_add_record book record).
Proof.
  intros [Hnd H] Hwf. split; simpl.
  - by apply dict_setitem_NoDup.
  - by apply dict_setitem_Forall.
Qed.

Lemma book_inv_delete_record book name book' :
  book_inv book -> AddressBook_delete_record book name = Ok book' ->
  book_inv book'.
Proof.
  intros [Hnd H] (d & Hdel & [= <-])%bind_Ok. split; simpl.
  - by eapply dict_delitem_NoDup.
  - by eapply dict_delitem_Forall.
Qed.

Lemma book_inv_add_phone book name phone book' :
  book_inv book -> AddressBook_add_phone book name phone = Ok book' ->
  book_inv book'.
Proof.
  intros Hinv. unfold AddressBook_add_phone.
  destruct (AddressBook_find_record book name) as [record|] eqn:Hfind.
  - destruct (book_inv_find _ _ _ Hinv Hfind) as [Hname Hwf].
    intros (r' & Hadd & [= <-])%bind_Ok.
    unfold Record_add_phone in Hadd.
    apply bind_Ok in Hadd as (p & _ & [= <-]).
    by apply book_inv_mutate.
  - intros (r & Hinit & [= <-])%bind_Ok.
    unfold Record_init in Hinit.
    apply bind_Ok in Hinit as (ps & _ & [= <-]).
    apply book_inv_add_record; [done|]. by intros b.
Qed.

Lemma book_inv_delete_phone book name phone book' :
  book_inv book -> AddressBook_delete_phone book name phone = Ok book' ->
  book_inv book'.
Proof.
  intros Hinv. unfold AddressBook_delete_phone.
  destruct (AddressBook_find_record book name) as [record|] eqn:Hfind;
    [|done].
  destruct (book_inv_find _ _ _ Hinv Hfind) as [Hname Hwf].
  intros [= <-]. by apply book_inv_mutate.
Qed.

Lemma book_inv_change_phone book name old_phone new_phone book' :
  book_inv book ->
  AddressBook_change_phone book name old_phone new_phone = Ok book' ->
  book_inv book'.
Proof.
  intros Hinv. unfold AddressBook_change_phone.
  destruct (AddressBook_find_record book name) as [record|] eqn:Hfind;
    [|done].
  destruct (book_inv_find _ _ _ Hinv Hfind) as [Hname Hwf].
  intros (r' & Hedit & [= <-])%bind_Ok.
  unfold Record_edit_phone in Hedit.
  destruct (edit_phone_loop _ _ _); [|done]. injection Hedit as <-.
  by apply book_inv_mutate.
Qed.

Lemma book_inv_add_birthday book name birthday book' :
  book_inv book -> AddressBook_add_birthday book name birthday = Ok book' ->
  book_inv book'.
Proof.
  intros Hinv. unfold AddressBook_add_birthday.
  destruct (AddressBook_find_record book name) as [record|] eqn:Hfind;
    [|done].
  destruct (book_inv_find _ _ _ Hinv Hfind) as [Hname Hwf].
  intros (r' & Hadd & [= <-])%bind_Ok.
  unfold Record_add_birthday in Hadd.
  apply bind_Ok in Hadd as (b & Hb & [= <-]).
  apply book_inv_mutate; [done..|].
  intros b' [= <-]. by eapply StrptimeFacts.Birthday_init_valid_datetime.
Qed.

(** A load brings a directory that satisfies what the directories saved
    in the files satisfy. *)
Lemma loaded_book_inv (Q : AddressBook -> Prop) h filename files book' :
  Q AddressBook_init ->
  (forall file blob,
      files !! file = Some (Pickled blob) ->
      exists book,
        Pickle.dumps (AddressBook_obj book) = Ok blob
        /\ book_inv book /\ Q book) ->
  loaded_book (load_data h filename files) = Some book' ->
  book_inv book' /\ Q book'.
Proof.
  intros Hinit Hfiles. unfold loaded_book.
  destruct (load_data h filename files) as [obj|e] eqn:E; [|done].
  intros Hbook.
  apply load_data_Ok in E as [->|(file & blob & Hfile & Hload)].
  - rewrite as_AddressBook_obj in Hbook. injection Hbook as <-.
    split; [apply book_inv_init|done].
  - destruct (Hfiles _ _ Hfile) as (b & Hdump & Hb & HQ).
    destruct (dumps_book b (book_inv_wf_book _ Hb)) as (blob' & Hd' & Hl).
    assert (blob' = blob) as -> by congruence.
    assert (obj = AddressBook_obj b) as -> by congruence.
    rewrite as_AddressBook_obj in Hbook. by injection Hbook as <-.
Qed.

(** A save leaves in the files directories that satisfy what the
    directory saved satisfies. *)
Lemma save_data_inv (Q : AddressBook -> Prop) h book filename files :
  book_inv book -> Q book ->
  (forall file blob,
      files !! file = Some (Pickled blob) ->
      exists b,
        Pickle.dumps (AddressBook_obj b) = Ok blob /\ book_inv b /\ Q b) ->
  forall file blob,
    (save_data h book filename files).1 !! file = Some (Pickled blob) ->
    exists b,
      Pickle.dumps (AddressBook_obj b) = Ok blob /\ book_inv b /\ Q b.
Proof.
  intros Hinv HQ Hfiles f blob. unfold save_data.
  destruct (open_wb h filename) as [file|e]; [|apply Hfiles].
  destruct (Pickle.dumps (AddressBook_obj book)) as [blob'|e] eqn:E;
    cbn [fst].
  - destruct (decide (file = f)) as [->|].
    + rewrite lookup_insert_eq. intros [= <-]. by exists book.
    + rewrite lookup_insert_ne by done. apply Hfiles.
  - destruct (decide (file = f)) as [->|].
    + by rewrite lookup_insert_eq.
    + rewrite lookup_insert_ne by done. apply Hfiles.
Qed.

(** Every operation keeps the invariant of the session. *)
Lemma session_inv_step h s o :
  wf_operation o -> session_inv s -> session_inv (step h s o).
Proof.
  intros Hop [Hbook Hfiles]. destruct s as [book files].
  cbn [session_book session_files] in *.
  assert (forall file blob,
             files !! file = Some (Pickled blob) ->
             exists b,
               Pickle.dumps (AddressBook_obj b) = Ok blob
               /\ book_inv b /\ True) as Hfiles'.
  { intros f blob Hf. destruct (Hfiles f blob Hf) as (b & ? & ?).
    by exists b. }
  destruct o as [record|name|name phone|name phone|name old new|name birthday
                |filename|filename]; simpl.
  - split; [|done]. by apply book_inv_add_record.
  - destruct (AddressBook_delete_record book name) eqn:E; [|done].
    split; [|done]. by eapply book_inv_delete_record.
  - destruct (AddressBook_add_phone book name phone) eqn:E; [|done].
    split; [|done]. by eapply book_inv_add_phone.
  - destruct (AddressBook_delete_phone book name phone) eqn:E; [|done].
    split; [|done]. by eapply book_inv_delete_phone.
  - destruct (AddressBook_change_phone book name old new) eqn:E; [|done].
    split; [|done]. by eapply book_inv_change_phone.
  - destruct (AddressBook_add_birthday book name birthday) eqn:E; [|done].
    split; [|done]. by eapply book_inv_add_birthday.
  - split; [done|]. simpl. intros f blob Hf.
    destruct (save_data_inv (fun _ => True) h book filename files
                Hbook I Hfiles' f blob Hf) as (b & ? & ? & _).
    by exists b.
  - destruct (loaded_book (load_data h filename files)) as [book'|] eqn:E;
      [|done].
    split; [|done]. simpl.
    by destruct (loaded_book_inv (fun _ => True) h filename files book'
                   I Hfiles' E).
Qed.

Lemma session_inv_run h ops s :
  Forall wf_operation ops -> session_inv s -> session_inv (run h ops s).
Proof.
  unfold run. intros Hops. revert s.
  induction Hops as [|o ops Ho _ IH]; intros s Hs; simpl; [done|].
  apply IH. by apply session_inv_step.
Qed.

Lemma session_inv_new : session_inv new_session.
Proof.
  split; [apply book_inv_init|]. intros f blob. simpl.
  by rewrite lookup_empty.
Qed.



(** ** Records: construction and phones *)

Lemma mapM_Phone_init_Ok phones ps :
  mapM Phone_init phones = Ok ps <->
  Forall valid_phone phones /\ ps = mkPhone <$> phones.
Proof.
  revert ps. induction phones as [|s phones IH]; intros ps; simpl.
  - split; [intros [= <-]; by split|]. by intros [_ ->].
  - rewrite bind_Ok. split.
    + intros (p & Hp & (ps' & Hps & [= <-])%bind_Ok).
      apply Phone_init_Ok in Hp as (? & ? & ->).
      apply IH in Hps as [? ->]. split; [|done]. by constructor.
    + intros [[[Hlen Hdig] Hall]%Forall_cons ->].
      exists (mkPhone s). split; [by apply Phone_init_valid|].
      apply bind_Ok. exists (mkPhone <$> phones). split; [|done].
      by apply IH.
Qed.

Lemma mapM_Phone_init_Raise phones e :
  mapM Phone_init phones = Raise e ->
  e = Exn ValueError msg_phone_10_digits /\ ~ Forall valid_phone phones.
Proof.
  induction phones as [|s phones IH]; simpl; [done|].
  intros [Hs|(p & Hp & H)]%bind_Raise.
  - split; [by apply Phone_init_Raise in Hs|].
    intros [[Hlen Hdig] _]%Forall_cons.
    by rewrite (Phone_init_valid s Hlen Hdig) in Hs.
  - apply bind_Raise in H as [H|(? & _ & ?)]; [|done].
    destruct (IH H) as [-> Hnot]. split; [done|].
    intros [_ ?]%Forall_cons. by apply Hnot.
Qed.

Lemma phone_numbers_mkPhone (phones : list str) :
  Phone_number <$> (mkPhone <$> phones) = phones.
Proof. rewrite <- list_fmap_compose. by rewrite list_fmap_id. Qed.


Lemma Record_find_phone_loop_None phones phone :
  Record_find_phone_loop phones phone = None
  <-> phone ∉ (Phone_number <$> phones).
Proof.
  induction phones as [|p phones IH]; simpl.
  - split; [intros _; apply not_elem_of_nil|done].
  - rewrite not_elem_of_cons. destruct (decide (Phone_number p = phone)).
    + split; [done|]. intros [? _]. congruence.
    + rewrite IH. naive_solver.
Qed.

Lemma Record_find_phone_loop_Some phones phone p :
  Record_find_phone_loop phones phone = Some p ->
  Phone_number p = phone /\ p ∈ phones.
Proof.
  induction phones as [|q phones IH]; simpl; [done|].
  destruct (decide (Phone_number q = phone)).
  - intros [= <-]. split; [done|left].
  - intros [? ?]%IH. split; [done|by right].
Qed.

(** X2 (Record.find_phone): the search returns nothing exactly when no
    phone of the record has the number, and otherwise a phone of the
    record with that number. *)
Theorem Record_find_phone_spec (self : Record_) (phone : str) :
  (Record_find_phone self phone = None <-> phone ∉ phone_numbers self)
  /\ (forall p, Record_find_phone self phone = Some p ->
        Phone_number p = phone /\ p ∈ Record_phones self).
Proof.
  split.
  - apply Record_find_phone_loop_None.
  - apply Record_find_phone_loop_Some.
Qed.

(** X3 (Record.add_phone): a valid phone text is appended after the phones
    already there, duplicates included, name and birthday stay, and the
    number is then found; an invalid text raises the [ValueError] of
    [Phone] (InvalidFormat). *)
Theorem Record_add_phone_appends (self : Record_) (phone : str) :
  (valid_phone phone ->
   exists self',
     Record_add_phone self phone = Ok self'
     /\ phone_numbers self' = phone_numbers self ++ [phone]
     /\ Record_name self' = Record_name self
     /\ Record_birthday self' = Record_birthday self
     /\ is_Some (Record_find_phone self' phone))
  /\ (~ valid_phone phone ->
      Record_add_phone self phone
      = Raise (Exn ValueError msg_phone_10_digits)).
Proof.
  unfold Record_add_phone, phone_numbers. split.
  - intros [Hlen Hdig]. rewrite (Phone_init_valid phone Hlen Hdig). simpl.
    eexists. split; [done|]. simpl. rewrite fmap_app. split_and!; try done.
    destruct (Record_find_phone _ phone) eqn:E; [done|].
    apply Record_find_phone_loop_None in E. simpl in E.
    rewrite fmap_app in E. set_solver.
  - intros Hnot. destruct (Phone_init phone) as [p|e] eqn:E; simpl.
    + apply Phone_init_Ok in E as (? & ? & _). by destruct Hnot.
    + by apply Phone_init_Raise in E as ->.
Qed.

Lemma phone_numbers_remove_phone (self : Record_) (phone : str) :
  phone_numbers (Record_remove_phone self phone)
  = filter (fun s => s ≠ phone) (phone_numbers self).
Proof.
  unfold phone_numbers. simpl.
  induction (Record_phones self) as [|p phones IH]; [done|].
  rewrite fmap_cons.
  destruct (decide (Phone_number p = phone)) as [Heq|Hne].
  - rewrite !filter_cons_False by (intros ?; done). done.
  - rewrite !filter_cons_True by done. rewrite fmap_cons. by f_equal.
Qed.

(** X4 (Record.remove_phone): every phone with the given number goes, the
    others stay in their order; afterwards the number is not found, and
    removing it again changes nothing.  Name and birthday stay. *)
Theorem Record_remove_phone_removes_all (self : Record_) (phone : str) :
  phone_numbers (Record_remove_phone self phone)
  = filter (fun s => s ≠ phone) (phone_numbers self)
  /\ Record_find_phone (Record_remove_phone self phone) phone = None
  /\ Record_remove_phone (Record_remove_phone self phone) phone
     = Record_remove_phone self phone
  /\ Record_name (Record_remove_phone self phone) = Record_name self
  /\ Record_birthday (Record_remove_phone self phone) = Record_birthday self.
Proof.
  assert (phone ∉ phone_numbers (Record_remove_phone self phone)) as Hgone.
  { rewrite phone_numbers_remove_phone.
    intros [? _]%list_elem_of_filter. done. }
  split_and!; try done.
  - apply phone_numbers_remove_phone.
  - by apply Record_find_phone_loop_None.
  - unfold Record_remove_phone at 1. rewrite filter_no_match by done.
    by destruct (Record_remove_phone self phone).
Qed.

(** X5 (Record.edit_phone): the first phone that carries the old number
    takes the new one and nothing else changes; when no phone carries the
    old number the call raises the "not found" [ValueError] (NotFound). *)
Theorem Record_edit_phone_first_match
    (self : Record_) (old_phone new_phone : str) :
  (forall before after,
      phone_numbers self = before ++ old_phone :: after ->
      old_phone ∉ before ->
      exists self',
        Record_edit_phone self old_phone new_phone = Ok self'
        /\ phone_numbers self' = before ++ new_phone :: after
        /\ Record_name self' = Record_name self
        /\ Record_birthday self' = Record_birthday self)
  /\ (old_phone ∉ phone_numbers self ->
      Record_edit_phone self old_phone new_phone
      = Raise (Exn ValueError
                 (msg_phone_not_found old_phone
                    (Name_name (Record_name self)))))
  /\ (forall e, Record_edit_phone self old_phone new_phone = Raise e ->
        NotFound e /\ old_phone ∉ phone_numbers self).
Proof.
  destruct (Record_edit_phone_spec self old_phone new_phone) as [Hok Hnot].
  split_and!; [exact Hok| |].
  - intros H. unfold Record_edit_phone.
    by apply (edit_phone_loop_None _ _ new_phone) in H as ->.
  - unfold Record_edit_phone.
    destruct (edit_phone_loop _ _ _) eqn:E; [done|]. intros e [= <-].
    split; [right; eauto|]. by apply edit_phone_loop_None in E.
Qed.

(** X6 (Birthday, Field.__str__, Record.add_birthday): setting a birthday
    from a text replaces the birthday the record had; the new one shows the
    text unchanged under [str] and holds the date the text parses to;
    phones and name stay.  A text that does not parse raises InvalidFormat
    and the record keeps its birthday. *)
Theorem Record_add_birthday_overwrites (self : Record_) (birthday : str) :
  (forall self',
      Record_add_birthday self birthday = Ok self' ->
      exists b,
        Record_birthday self' = Some b
        /\ Birthday_init birthday = Ok b
        /\ Field_str (F_Birthday b) = Ok birthday
        /\ valid_datetime (Birthday_date b)
        /\ Record_phones self' = Record_phones self
        /\ Record_name self' = Record_name self)
  /\ (forall e, Record_add_birthday self birthday = Raise e ->
        e = Exn ValueError msg_invalid_date_format
        /\ Birthday_init birthday = Raise e).
Proof.
  unfold Record_add_birthday. split.
  - intros self' (b & Hb & [= <-])%bind_Ok. exists b. simpl.
    split_and!; try done.
    + apply StrptimeFacts.Birthday_init_Ok in Hb
        as (? & ? & ? & ? & ? & ? & _ & _ & ->). done.
    + by eapply StrptimeFacts.Birthday_init_valid_datetime.
  - intros e [H|(? & _ & ?)]%bind_Raise; [|done].
    split; [|done]. by apply StrptimeFacts.Birthday_init_Raise in H.
Qed.

(** ** The directory: records by name *)

Lemma filter_all {A} (P : A -> Prop) `{!forall x, Decision (P x)} (l : list A) :
  Forall P l -> filter P l = l.
Proof.
  induction 1 as [|x l Hx _ IH]; [done|].
  rewrite filter_cons_True by done. by f_equal.
Qed.

Section dict_delete.
Context {V : Type}.
Implicit Types (d : dict V) (k : str) (v : V).

Lemma dict_delitem_Ok d k :
  is_Some (dict_get d k) -> is_Ok (dict_delitem d k).
Proof.
  induction d as [|[k0 v0] d IH]; simpl; [by intros [? ?]|].
  destruct (decide (k0 = k)); [by eexists|].
  intros H. destruct (IH H) as [d' ->]. by eexists.
Qed.

Lemma dict_get_delitem_ne d k d' k' :
  dict_delitem d k = Ok d' -> k <> k' -> dict_get d' k' = dict_get d k'.
Proof.
  revert d'. induction d as [|[k0 v0] d IH]; intros d'; simpl; [done|].
  destruct (decide (k0 = k)) as [->|].
  - intros [= <-] Hne. by rewrite decide_False.
  - intros (d'' & Hdel & [= <-])%bind_Ok Hne. simpl.
    destruct (decide (k0 = k')); [done|]. by apply IH.
Qed.

Lemma dict_keys_delitem d k d' :
  NoDup (dict_keys d) -> dict_delitem d k = Ok d' ->
  dict_keys d' = filter (fun k' => k' ≠ k) (dict_keys d).
Proof.
  unfold dict_keys. revert d'.
  induction d as [|[k0 v0] d IH]; intros d'; simpl; [done|].
  rewrite NoDup_cons. intros [Hk0 Hnd].
  destruct (decide (k0 = k)) as [->|].
  - intros [= <-]. rewrite filter_cons_False by (intros ?; done).
    symmetry. apply filter_all, Forall_forall.
    intros k' Hin ->. done.
  - intros (d'' & Hdel & [= <-])%bind_Ok.
    rewrite filter_cons_True by done. simpl. f_equal. by apply IH.
Qed.

Lemma dict_get_delitem_eq d k d' :
  NoDup (dict_keys d) -> dict_delitem d k = Ok d' -> dict_get d' k = None.
Proof.
  intros Hnd Hdel. apply dict_get_None_keys.
  rewrite (dict_keys_delitem d k d' Hnd Hdel).
  intros [? _]%list_elem_of_filter. done.
Qed.
End dict_delete.

(** X7 (AddressBook.add_record, find_record): a record is stored under its
    own name and found there; the other names keep their records; a name
    already present keeps its place in the directory and its old record is
    replaced (last write wins), a new name goes to the end. *)
Theorem AddressBook_add_record_last_write_wins
    (book : AddressBook) (record : Record_) :
  AddressBook_find_record (AddressBook_add_record book record)
    (Name_name (Record_name record)) = Some record
  /\ (forall other,
        other <> Name_name (Record_name record) ->
        AddressBook_find_record (AddressBook_add_record book record) other
        = AddressBook_find_record book other)
  /\ (is_Some (AddressBook_find_record book (Name_name (Record_name record)))
      -> dict_keys (AddressBook_data (AddressBook_add_record book record))
         = dict_keys (AddressBook_data book))
  /\ (AddressBook_find_record book (Name_name (Record_name record)) = None ->
      AddressBook_data (AddressBook_add_record book record)
      = AddressBook_data book ++ [(Name_name (Record_name record), record)]).
Proof.
  rewrite !find_record_get. unfold AddressBook_add_record. simpl.
  split_and!.
  - apply dict_get_setitem_eq.
  - intros other Hne. rewrite !find_record_get. simpl.
    by apply dict_get_setitem_ne.
  - apply dict_keys_setitem_present.
  - apply dict_setitem_fresh.
Qed.

(** X8 (AddressBook.delete_record): deleting a name that is not in the
    directory raises [KeyError]; deleting one that is there removes that
    entry only: the name is no longer found, every other name keeps its
    record, and the order of the remaining names is unchanged. *)
Theorem AddressBook_delete_record_removes_entry
    (book : AddressBook) (name : str) :
  NoDup (dict_keys (AddressBook_data book)) ->
  (AddressBook_find_record book name = None ->
   AddressBook_delete_record book name = Raise (Exn KeyError (msg_key name)))
  /\ (is_Some (AddressBook_find_record book name) ->
      exists book',
        AddressBook_delete_record book name = Ok book'
        /\ AddressBook_find_record book' name = None
        /\ (forall other, other <> name ->
              AddressBook_find_record book' other
              = AddressBook_find_record book other)
        /\ dict_keys (AddressBook_data book')
           = filter (fun k => k ≠ name) (dict_keys (AddressBook_data book))).
Proof.
  intros Hnd. rewrite find_record_get. unfold AddressBook_delete_record.
  split.
  - intros Hnone. by apply dict_delitem_Raise in Hnone as ->.
  - intros Hsome. destruct (dict_delitem_Ok _ _ Hsome) as [d' Hdel].
    rewrite Hdel. simpl. eexists. split; [done|].
    rewrite find_record_get. simpl. split_and!.
    + by eapply dict_get_delitem_eq.
    + intros other Hne. rewrite !find_record_get. simpl.
      by eapply dict_get_delitem_ne.
    + by apply dict_keys_delitem.
Qed.

Lemma AddressBook_delete_record_removes_entry_witness :
  exists book',
    AddressBook_delete_record alice_and_bob (text "Alice") = Ok book'
    /\ AddressBook_find_record book' (text "Alice") = None
    /\ dict_keys (AddressBook_data book') = [text "Bob"].
Proof.
  destruct (AddressBook_delete_record_removes_entry alice_and_bob
              (text "Alice")) as [_ Hok].
  - apply NoDup_ListNoDup.
    repeat (constructor; [simpl; intuition discriminate|]). constructor.
  - destruct Hok as (book' & Hdel & Hnone & _ & Hkeys); [by eexists|].
    exists book'. split_and!; [exact Hdel|exact Hnone|].
    rewrite Hkeys. reflexivity.
Defined.

(** X9 (AddressBook.change_phone): for a name that is not in the directory
    the call raises the "contact not found" [KeyError]; for a contact
    without the old number it raises the "phone not found" [ValueError];
    otherwise the contact's first phone with the old number takes the new
    one, its birthday stays, and the other contacts and the order of the
    directory are untouched. *)
Theorem AddressBook_change_phone_cases
    (book : AddressBook) (name old_phone new_phone : str) :
  (AddressBook_find_record book name = None ->
   AddressBook_change_phone book name old_phone new_phone
   = Raise (Exn KeyError (msg_contact_not_found name)))
  /\ (forall record,
        AddressBook_find_record book name = Some record ->
        old_phone ∉ phone_numbers record ->
        AddressBook_change_phone book name old_phone new_phone
        = Raise (Exn ValueError
                   (msg_phone_not_found old_phone
                      (Name_name (Record_name record)))))
  /\ (forall record before after,
        AddressBook_find_record book name = Some record ->
        phone_numbers record = before ++ old_phone :: after ->
        old_phone ∉ before ->
        exists book' record',
          AddressBook_change_phone book name old_phone new_phone = Ok book'
          /\ AddressBook_find_record book' name = Some record'
          /\ phone_numbers record' = before ++ new_phone :: after
          /\ Record_birthday record' = Record_birthday record
          /\ dict_keys (AddressBook_data book')
             = dict_keys (AddressBook_data book)
          /\ forall other, other <> name ->
               AddressBook_find_record book' other
               = AddressBook_find_record book other)
  /\ (forall e,
        AddressBook_change_phone book name old_phone new_phone = Raise e ->
        NotFound e).
Proof.
  unfold AddressBook_change_phone.
  destruct (AddressBook_find_record book name) as [record|] eqn:Hfind.
  - destruct (Record_edit_phone_spec record old_phone new_phone)
      as [Hok Hnot].
    split_and!; try done.
    + intros ? [= <-] Hin. unfold Record_edit_phone.
      by apply (edit_phone_loop_None _ _ new_phone) in Hin as ->.
    + intros ? before after [= <-] Heq Hbefore.
      destruct (Hok before after Heq Hbefore) as (r' & -> & Hnum & _ & Hb).
      simpl. exists (mutate_record book name r'), r'. split_and!; try done.
      * apply find_record_mutate_eq.
      * apply dict_keys_setitem_present. rewrite <- find_record_get. eauto.
      * intros other Hne. by apply find_record_mutate_ne.
    + intros e [H|(? & _ & ?)]%bind_Raise; [|done].
      unfold Record_edit_phone in H.
      destruct (edit_phone_loop _ _ _); [done|]. injection H as <-.
      right. eauto.
  - split_and!; try done. intros e [= <-]. by left.
Qed.

(** X10 (AddressBook.add_birthday): for a name that is not in the
    directory the call raises the "contact not found" [KeyError]; for a
    text that does not parse, the InvalidFormat [ValueError]; otherwise the
    contact gets the birthday parsed from the text in place of any it had,
    its phones stay, and the other contacts and the order of the directory
    are untouched. *)
Theorem AddressBook_add_birthday_cases
    (book : AddressBook) (name birthday : str) :
  (AddressBook_find_record book name = None ->
   AddressBook_add_birthday book name birthday
   = Raise (Exn KeyError (msg_contact_not_found name)))
  /\ (forall record e,
        AddressBook_find_record book name = Some record ->
        Birthday_init birthday = Raise e ->
        AddressBook_add_birthday book name birthday
        = Raise (Exn ValueError msg_invalid_date_format))
  /\ (forall record b,
        AddressBook_find_record book name = Some record ->
        Birthday_init birthday = Ok b ->
        exists book',
          AddressBook_add_birthday book name birthday = Ok book'
          /\ AddressBook_find_record book' name
             = Some (mkRecord (Record_name record) (Record_phones record)
                       (Some b))
          /\ dict_keys (AddressBook_data book')
             = dict_keys (AddressBook_data book)
          /\ forall other, other <> name ->
               AddressBook_find_record book' other
               = AddressBook_find_record book other).
Proof.
  unfold AddressBook_add_birthday, Record_add_birthday.
  destruct (AddressBook_find_record book name) as [record|] eqn:Hfind.
  - split_and!; try done.
    + intros ? e [= <-] Hb. rewrite Hb. simpl.
      by apply StrptimeFacts.Birthday_init_Raise in Hb as ->.
    + intros ? b [= <-] Hb. rewrite Hb. simpl.
      eexists. split_and!; try done.
      * apply find_record_mutate_eq.
      * apply dict_keys_setitem_present. rewrite <- find_record_get. eauto.
      * intros other Hne. by apply find_record_mutate_ne.
  - split_and!; done.
Qed.

(** X11 (AddressBook.delete_phone, Record.remove_phone): for a contact of
    the directory the call removes every phone with the given number from
    that contact, which keeps its other phones in order and its birthday;
    the other contacts and the order of the directory are untouched. *)
Theorem AddressBook_delete_phone_removes_from_contact
    (book : AddressBook) (name phone : str) (record : Record_) :
  AddressBook_find_record book name = Some record ->
  exists book',
    AddressBook_delete_phone book name phone = Ok book'
    /\ AddressBook_find_record book' name
       = Some (Record_remove_phone record phone)
    /\ phone_numbers (Record_remove_phone record phone)
       = filter (fun s => s ≠ phone) (phone_numbers record)
    /\ dict_keys (AddressBook_data book') = dict_keys (AddressBook_data book)
    /\ forall other, other <> name ->
         AddressBook_find_record book' other
         = AddressBook_find_record book other.
Proof.
  intros Hfind. unfold AddressBook_delete_phone. rewrite Hfind.
  eexists. split_and!; try done.
  - apply find_record_mutate_eq.
  - apply phone_numbers_remove_phone.
  - apply dict_keys_setitem_present. rewrite <- find_record_get. eauto.
  - intros other Hne. by apply find_record_mutate_ne.
Qed.

Lemma AddressBook_delete_phone_removes_from_contact_witness :
  exists book',
    AddressBook_delete_phone alice_and_bob (text "Bob") (text "1111111111")
    = Ok book'
    /\ AddressBook_find_record book' (text "Bob")
       = Some (Record_remove_phone bob (text "1111111111")).
Proof.
  destruct (AddressBook_delete_phone_removes_from_contact alice_and_bob
              (text "Bob") (text "1111111111") bob)
    as (book' & Hdel & Hfind & _).
  - reflexivity.
  - exists book'. by split.
Defined.

(** ** Upcoming birthdays: the window *)

Module CalendarOrder.
Import DatetimeFacts.
Local Open Scope Z_scope.

Local Ltac month_cases m :=
let H := fresh "Hcases" in
assert (m = 1 \/ m = 2 \/ m = 3 \/ m = 4 \/ m = 5 \/ m = 6 \/ m = 7
      \/ m = 8 \/ m = 9 \/ m = 10 \/ m = 11 \/ m = 12) as H by lia;
repeat (destruct H as [->|H]); try subst m.

(** The days before a later month include the whole earlier month. *)
Lemma days_before_month_mono y m1 m2 :
1 <= m1 -> m1 < m2 -> m2 <= 12 ->
_days_before_month y m1 + _days_in_month y m1 <= _days_before_month y m2.
Proof.
intros H1 H12 H2. unfold _days_in_month, _days_before_month.
destruct (_is_leap y); month_cases m1; month_cases m2;
try lia; unfold index; simpl; lia.
Qed.

Lemma date_lt_toordinal a b :
valid_date a -> valid_date b ->
date_lt a b = true -> toordinal a < toordinal b.
Proof.
intros (Hya & Hma & Hda) (Hyb & Hmb & Hdb) Hlt.
unfold date_lt in Hlt. unfold toordinal, _ymd2ord.
pose proof (day_of_year_bounds _ _ _ Hma Hda) as Ba.
pose proof (day_of_year_bounds _ _ _ Hmb Hdb) as Bb.
apply orb_true_iff in Hlt as [Hy%Z.ltb_lt|Hlt].
- pose proof (days_before_year_succ (year a)).
pose proof (days_before_year_mono (year a + 1) (year b) ltac:(lia)).
lia.
- apply andb_true_iff in Hlt as [Hy%Z.eqb_eq Hlt]. rewrite Hy in *.
apply orb_true_iff in Hlt as [Hm%Z.ltb_lt|Hlt].
+ pose proof (days_before_month_mono (year b) (month a) (month b)
                ltac:(lia) Hm ltac:(lia)).
  lia.
+ apply andb_true_iff in Hlt as [Hm%Z.eqb_eq Hd%Z.ltb_lt].
  rewrite Hm. lia.
Qed.

Lemma date_not_lt_toordinal a b :
valid_date a -> valid_date b ->
date_lt a b = false -> toordinal b <= toordinal a.
Proof.
intros Ha Hb Hnlt.
destruct (date_lt b a) eqn:Hba.
- pose proof (date_lt_toordinal b a Hb Ha Hba). lia.
- assert (a = b) as ->; [|lia].
unfold date_lt in *. destruct a as [ya ma da], b as [yb mb db].
simpl in *. f_equal; lia.
Qed.
End CalendarOrder.

Section window.
Import DatetimeFacts CalendarOrder.
Local Open Scope Z_scope.
Variables (today : date) (days : Z).
Hypothesis Htoday : valid_date today.

Lemma year_apart y m d :
valid_date (mkdate y m d) -> valid_date (mkdate (y + 1) m d) ->
toordinal (mkdate (y + 1) m d) - toordinal (mkdate y m d) <= 366.
Proof.
intros (_ & Hm & _) _. unfold toordinal, _ymd2ord. simpl.
rewrite days_before_year_succ. unfold _days_before_month.
assert (_is_leap y = true -> _is_leap (y + 1) = false) as Hleap.
{ unfold _is_leap. intros [H4%Z.eqb_eq _]%andb_true_iff.
apply andb_false_iff. left. apply Z.eqb_neq.
Z.div_mod_to_equations. lia. }
destruct (_is_leap y); [rewrite Hleap by done|];
destruct (_is_leap (y + 1)), (m >? 2); simpl; lia.
Qed.

(** The next occurrence of a birthday is today or later, within a year. *)
Lemma birthday_this_year_window birthday p :
birthday_this_year today birthday = Ok p ->
0 <= date_sub_days p today <= 365.
Proof using Htoday.
unfold birthday_this_year, date_sub_days.
intros (d1 & H1 & H)%bind_Ok.
apply date_replace_year_Ok in H1 as [Hv1 ->].
pose proof (toordinal_bounds today Htoday) as Bt.
destruct (date_lt _ today) eqn:Hlt.
- apply date_replace_year_Ok in H as [Hv ->]. simpl in *.
pose proof (date_lt_toordinal _ _ Hv1 Htoday Hlt).
pose proof (year_apart _ _ _ Hv1 Hv).
assert (date_lt today (mkdate (year today + 1) (month birthday)
                         (day birthday)) = true) as Hnext.
{ unfold date_lt. simpl. apply orb_true_iff. left. apply Z.ltb_lt. lia. }
pose proof (date_lt_toordinal _ _ Htoday Hv Hnext). lia.
- injection H as <-.
pose proof (date_not_lt_toordinal _ _ Hv1 Htoday Hlt).
destruct Hv1 as (_ & Hm & Hd). destruct Htoday as (_ & Hmt & Hdt).
simpl in *.
pose proof (day_of_year_bounds (year today) _ _ Hm Hd).
pose proof (day_of_year_bounds (year today) _ _ Hmt Hdt).
unfold toordinal, _ymd2ord in *. simpl in *.
destruct (_is_leap (year today)); lia.
Qed.

Lemma included_window record :
included today days record = true ->
exists p, projected today record = Some p
        /\ 0 <= date_sub_days p today <= days.
Proof using Htoday.
unfold included. destruct (projected today record) as [p|] eqn:Hp; [|done].
intros Hle%Z.leb_le. exists p. split; [done|].
apply projected_Some in Hp as (b & _ & Hp).
apply birthday_this_year_window in Hp. lia.
Qed.

(** Away from the 29th of February the code finds the next birthday. *)
Lemma birthday_this_year_next birthday :
year today <= 9998 ->
valid_date birthday -> ~ (month birthday = 2 /\ day birthday = 29) ->
birthday_this_year today birthday = Ok (next_birthday today birthday)
/\ valid_date (next_birthday today birthday).
Proof using Htoday.
intros Hmax (Hy & Hm & Hd) Hfeb. destruct Htoday as (Hty & _).
assert (forall y, 1 <= y <= 9999 ->
        valid_date (mkdate y (month birthday) (day birthday))) as Hv.
{ intros y Hy'. unfold valid_date; simpl. split_and!; try lia.
revert Hd. unfold _days_in_month.
destruct (Z.eqb_spec (month birthday) 2) as [H2|H2]; simpl; [|lia].
rewrite H2 in *. unfold index; simpl.
destruct (_is_leap (year birthday)), (_is_leap y); lia. }
unfold birthday_this_year, date_replace_year, next_birthday.
rewrite (date_new_valid _ _ _ (Hv _ Hty)). simpl.
unfold date_lt. simpl. rewrite Z.ltb_irrefl, Z.eqb_refl. simpl.
destruct ((month birthday <? month today)
        || (month birthday =? month today) && (day birthday <? day today)).
- rewrite date_new_valid by (apply Hv; lia). split; [done|]. apply Hv. lia.
- split; [done|]. by apply Hv.
Qed.

Lemma every_year_projected record b :
year today <= 9998 -> every_year record ->
Record_birthday record = Some b ->
projected today record
= Some (next_birthday today (datetime_date (Birthday_date b)))
/\ valid_date (next_birthday today (datetime_date (Birthday_date b))).
Proof using Htoday.
intros Hmax Hrec Hb.
destruct (Hrec (datetime_date (Birthday_date b))) as [Hv Hfeb];
[by exists b|].
destruct (birthday_this_year_next _ Hmax Hv Hfeb) as [Hbty Hvp].
split; [|done]. unfold projected. by rewrite Hb, Hbty.
Qed.

Lemma every_year_can_project record :
year today <= 9998 -> every_year record -> can_project today record.
Proof using Htoday.
intros Hmax Hrec b Hb.
destruct (every_year_projected record b Hmax Hrec Hb) as [-> _]. by eexists.
Qed.

Lemma every_year_included record :
year today <= 9998 -> every_year record ->
included today days record = in_window today days record.
Proof using Htoday.
intros Hmax Hrec. unfold included, in_window.
destruct (Record_birthday record) as [b|] eqn:Hb.
- by destruct (every_year_projected record b Hmax Hrec Hb) as [-> _].
- unfold projected. by rewrite Hb.
Qed.

Lemma filter_in_window records :
year today <= 9998 -> Forall every_year records ->
filter (fun r => included today days r = true) records
= filter (fun r => in_window today days r = true) records.
Proof using Htoday.
intros Hmax. induction 1 as [|r records Hr _ IH]; [done|].
pose proof (every_year_included r Hmax Hr) as E.
destruct (in_window today days r) eqn:Hw.
- rewrite !filter_cons_True by congruence. by rewrite IH.
- rewrite !filter_cons_False by congruence. done.
Qed.

Lemma congratulates_congratulated record item :
year today <= 9998 -> every_year record ->
congratulates today record item -> congratulated today record item.
Proof using Htoday.
intros Hmax Hrec (p & q & Hp & Hname & Hdate & Hq & H5 & H6 & Hother).
apply projected_Some in Hp as (b & Hb & Hbty).
destruct (every_year_projected record b Hmax Hrec Hb) as [Hproj _].
unfold projected in Hproj. rewrite Hb, Hbty in Hproj.
injection Hproj as ->.
split; [done|].
exists (datetime_date (Birthday_date b)), q.
split; [by exists b|]. split_and!; done.
Qed.

Lemma congratulated_reported record item :
year today <= 9998 -> every_year record ->
in_window today days record = true ->
congratulated today record item -> reported today days record item.
Proof using Htoday.
intros Hmax Hrec Hwin
     (Hname & birthday & q & Hborn & Hdate & Hq & H5 & H6 & Hother).
split; [done|].
exists birthday, (next_birthday today birthday), q.
destruct Hborn as (b & Hb & ->).
destruct (Hrec (datetime_date (Birthday_date b))) as [Hv Hfeb];
[by exists b|].
destruct (birthday_this_year_next _ Hmax Hv Hfeb) as [Hbty Hvp].
pose proof (birthday_this_year_window _ _ Hbty) as Hwindow.
pose proof (birthday_this_year_Ok _ _ _ Hbty) as (_ & Hm & Hd & _).
unfold in_window in Hwin. rewrite Hb in Hwin. apply Z.leb_le in Hwin.
unfold date_sub_days in Hwindow.
set (p := next_birthday today (datetime_date (Birthday_date b))) in *.
split; [by exists b|].
assert (toordinal p <= toordinal q <= toordinal p + 2
      /\ 0 <= weekday q <= 4) as [? ?]; [|split_and!; try done; lia].
pose proof (weekday_bounds p) as Hwd. unfold weekday in *.
destruct (Z.eq_dec ((toordinal p + 6) mod 7) 5) as [E|?];
[rewrite (H5 E); Z.div_mod_to_equations; lia|].
destruct (Z.eq_dec ((toordinal p + 6) mod 7) 6) as [E|?];
[rewrite (H6 E); Z.div_mod_to_equations; lia|].
rewrite (Hother ltac:(done) ltac:(done)). lia.
Qed.

Lemma Forall2_impl_Forall {A B} (P : A -> Prop) (R R' : A -> B -> Prop)
(l : list A) (k : list B) :
Forall P l -> Forall2 R l k ->
(forall x y, P x -> R x y -> R' x y) -> Forall2 R' l k.
Proof.
intros HP HR Himpl. revert HP.
induction HR as [|x y l k Hxy _ IH]; intros HP; [constructor|].
apply Forall_cons in HP as [Hx Hl]. constructor; [by apply Himpl|by apply IH].
Qed.

Lemma upcoming_loop_congratulated records acc :
year today <= 9998 -> Forall every_year records ->
exists out,
for_each (upcoming_body today days) acc records = Ok (acc ++ out)
/\ Forall2 (congratulated today)
     (filter (fun r => in_window today days r = true) records) out
/\ Forall2 (reported today days)
     (filter (fun r => in_window today days r = true) records) out.
Proof using Htoday.
intros Hmax Hall.
destruct (upcoming_loop_spec today days records acc) as (out & Hout & Hcong).
{ eapply Forall_impl; [exact Hall|]. intros r Hr.
by apply every_year_can_project. }
rewrite (filter_in_window records Hmax Hall) in Hcong.
exists out. split; [done|].
assert (Forall (fun r => every_year r /\ in_window today days r = true)
        (filter (fun r => in_window today days r = true) records)) as Hin.
{ apply Forall_forall. intros r [Hw Hr]%list_elem_of_filter. split; [|done].
rewrite Forall_forall in Hall. by apply Hall. }
assert (Forall2 (congratulated today)
        (filter (fun r => in_window today days r = true) records) out)
as Hc.
{ eapply Forall2_impl_Forall; [exact Hin|exact Hcong|].
intros r item [Hr _] H. by apply congratulates_congratulated. }
split; [done|].
eapply Forall2_impl_Forall; [exact Hin|exact Hc|].
intros r item [Hr Hw] H. by apply congratulated_reported.
Qed.

Lemma upcoming_body_Raise acc record e :
upcoming_body today days acc record = Raise e -> exn_cls e = ValueError.
Proof.
unfold upcoming_body. destruct (Record_birthday record) as [b|]; [|done].
intros [H|(p & Hp & H)]%bind_Raise.
- unfold birthday_this_year in H.
apply bind_Raise in H as [H|(d1 & _ & H)].
+ by apply date_new_Raise in H as [_ ?].
+ destruct (date_lt d1 today); [|done].
  by apply date_new_Raise in H as [_ ?].
- destruct (_ <=? _); [|done].
apply birthday_this_year_Ok in Hp as [Hv _].
destruct (weekend_shift_spec p Hv) as (q & Hq & _).
rewrite Hq in H. done.
Qed.

Lemma upcoming_body_29_february acc record :
_is_leap (year today) = false -> born_on_29_february record ->
exists e, upcoming_body today days acc record = Raise e.
Proof.
intros Hleap (b & Hb & Hm & Hd). unfold upcoming_body. rewrite Hb.
unfold birthday_this_year, date_replace_year. simpl. rewrite Hm, Hd.
destruct (date_new (year today) 2 29) as [d1|e] eqn:E; [|by exists e].
apply date_new_Ok in E as [(_ & _ & Hday) _]. simpl in Hday.
unfold _days_in_month in Hday. rewrite Hleap in Hday.
simpl in Hday. unfold index in Hday. simpl in Hday. lia.
Qed.

Lemma upcoming_loop_29_february records acc :
_is_leap (year today) = false ->
Exists born_on_29_february records ->
exists e, for_each (upcoming_body today days) acc records = Raise e
        /\ exn_cls e = ValueError.
Proof.
intros Hleap Hex. revert acc.
induction Hex as [record records Hbad|record records _ IH]; intros acc.
- destruct (upcoming_body_29_february acc record Hleap Hbad) as [e He].
exists e. simpl. rewrite He. split; [done|].
by eapply upcoming_body_Raise.
- simpl. destruct (upcoming_body today days acc record) as [acc'|e] eqn:E.
+ apply IH.
+ exists e. split; [done|]. by eapply upcoming_body_Raise.
Qed.
End window.

(** X12 (get_upcoming_birthdays): when the current date is valid, its
    year is before 9999 and every stored birthday is a date of the
    calendar other than a 29th of February, the computation returns one
    item for each record whose next birthday (the month and day of birth,
    in this year if that day is not past, in the next year if it is) is at
    most [days] days ahead, in directory order; the item carries the name
    and the next birthday moved by the weekend rule: two days later for a
    Saturday (weekday 5), one day later for a Sunday (weekday 6),
    unchanged for a weekday; formatted with "%Y.%m.%d". *)
Theorem upcoming_weekend_shift (book : AddressBook) (today : date) (days : Z) :
  valid_date today -> (year today <= 9998)%Z ->
  Forall every_year (dict_values (AddressBook_data book)) ->
  exists out,
    get_upcoming_birthdays book today days = Ok out
    /\ Forall2 (congratulated today)
         (filter (fun r => in_window today days r = true)
            (dict_values (AddressBook_data book)))
         out.
Proof.
  intros Htoday Hmax Hall. unfold get_upcoming_birthdays.
  destruct (upcoming_loop_congratulated today days Htoday _ [] Hmax Hall)
    as (out & Hout & H & _).
  exists out. by split.
Qed.

Lemma every_year_alice_and_bob :
  Forall every_year (dict_values (AddressBook_data alice_and_bob)).
Proof.
  constructor; [|constructor; [|constructor]];
    intros birthday (b & [= <-] & ->);
    (split; [repeat split; by vm_compute|]); intros [? ?]; discriminate.
Qed.

Lemma upcoming_weekend_shift_witness :
  exists out,
    get_upcoming_birthdays alice_and_bob (mkdate 2024 6 10) 7 = Ok out
    /\ Forall2 (congratulated (mkdate 2024 6 10))
         (filter (fun r => in_window (mkdate 2024 6 10) 7 r = true)
            (dict_values (AddressBook_data alice_and_bob)))
         out.
Proof.
  apply (upcoming_weekend_shift alice_and_bob (mkdate 2024 6 10) 7).
  - repeat split; by vm_compute.
  - by vm_compute.
  - apply every_year_alice_and_bob.
Defined.

(** X13 (get_upcoming_birthdays): when the current date is valid, its
    year is before 9999 and every stored birthday is a date of the
    calendar other than a 29th of February, every item returned belongs to
    a record whose next birthday, a date of the calendar with the month
    and day of birth, is today or at most [days] days ahead (never a past
    date, and less than a year away), one item per such record in
    directory order; the date printed is a date of the calendar, that
    birthday or up to two days later, and always falls on a day from
    Monday to Friday. *)
Theorem upcoming_reports_next_weekdays
    (book : AddressBook) (today : date) (days : Z) :
  valid_date today -> (year today <= 9998)%Z ->
  Forall every_year (dict_values (AddressBook_data book)) ->
  exists out,
    get_upcoming_birthdays book today days = Ok out
    /\ Forall2 (reported today days)
         (filter (fun r => in_window today days r = true)
            (dict_values (AddressBook_data book)))
         out.
Proof.
  intros Htoday Hmax Hall. unfold get_upcoming_birthdays.
  destruct (upcoming_loop_congratulated today days Htoday _ [] Hmax Hall)
    as (out & Hout & _ & H).
  exists out. by split.
Qed.

Lemma upcoming_reports_next_weekdays_witness :
  exists out,
    get_upcoming_birthdays alice_and_bob (mkdate 2024 6 10) 7 = Ok out
    /\ Forall2 (reported (mkdate 2024 6 10) 7)
         (filter (fun r => in_window (mkdate 2024 6 10) 7 r = true)
            (dict_values (AddressBook_data alice_and_bob)))
         out.
Proof.
  apply (upcoming_reports_next_weekdays alice_and_bob (mkdate 2024 6 10) 7).
  - repeat split; by vm_compute.
  - by vm_compute.
  - apply every_year_alice_and_bob.
Defined.

Lemma upcoming_returns_without_29_february_witness :
  is_Ok (get_upcoming_birthdays alice_and_bob (mkdate 2024 6 10) 7).
Proof.
  apply (upcoming_returns_without_29_february alice_and_bob
           (mkdate 2024 6 10) 7).
  - repeat split; by vm_compute.
  - by vm_compute.
  - constructor; [|constructor; [|constructor]];
      intros b [= <-]; (split; [repeat split; by vm_compute|]);
      intros [? ?]; discriminate.
Defined.

(** X15 (get_upcoming_birthdays): the computation is not wrapped by
    [input_error] and it raises [ValueError] whenever the directory holds
    a birthday on a 29th of February and the current year is not a leap
    year, whatever the other records are. *)
Theorem upcoming_raises_on_29_february_in_common_year
    (book : AddressBook) (today : date) (days : Z) :
  _is_leap (year today) = false ->
  Exists born_on_29_february (dict_values (AddressBook_data book)) ->
  exists e,
    get_upcoming_birthdays book today days = Raise e
    /\ exn_cls e = ValueError.
Proof.
  intros Hleap Hex. unfold get_upcoming_birthdays.
  by apply upcoming_loop_29_february.
Qed.

Lemma upcoming_raises_on_29_february_in_common_year_witness :
  exists e,
    get_upcoming_birthdays only_carol (mkdate 2023 3 1) 7 = Raise e
    /\ exn_cls e = ValueError.
Proof.
  apply (upcoming_raises_on_29_february_in_common_year only_carol
           (mkdate 2023 3 1) 7).
  - reflexivity.
  - left. eexists. split; [reflexivity|]. split; reflexivity.
Defined.

(** ** The commands *)

Lemma input_error_Ok book call r :
  call = Ok r -> input_error book call = Ok r.
Proof. by intros ->. Qed.

Lemma input_error_caught book call e :
  call = Raise e -> caught_by_input_error (exn_cls e) = true ->
  input_error book call = Ok (book, [print_input_error e]).
Proof. intros -> H. unfold input_error. by rewrite H. Qed.

Lemma Record_init_no_birthday name numbers :
  Record_init name numbers None
  = (ps ← mapM Phone_init numbers; Ok (mkRecord (mkName name) ps None)).
Proof. unfold Record_init. by destruct (mapM Phone_init numbers). Qed.

Lemma Record_init_numbers_valid name numbers :
  Forall valid_phone numbers ->
  Record_init name numbers None
  = Ok (mkRecord (mkName name) (mkPhone <$> numbers) None).
Proof.
  intros Hall. rewrite Record_init_no_birthday.
  assert (mapM Phone_init numbers = Ok (mkPhone <$> numbers)) as ->; [|done].
  by apply mapM_Phone_init_Ok.
Qed.

Lemma Record_init_numbers_invalid name numbers :
  ~ Forall valid_phone numbers ->
  Record_init name numbers None = Raise (Exn ValueError msg_phone_10_digits).
Proof.
  intros Hnot. rewrite Record_init_no_birthday.
  destruct (mapM Phone_init numbers) as [ps|e] eqn:E.
  - apply mapM_Phone_init_Ok in E as [? _]. done.
  - apply mapM_Phone_init_Raise in E as [-> _]. done.
Qed.

Lemma Record_init_numbers_cases name numbers :
  Record_init name numbers None
  = Ok (mkRecord (mkName name) (mkPhone <$> numbers) None)
  \/ Record_init name numbers None
     = Raise (Exn ValueError msg_phone_10_digits).
Proof.
  rewrite Record_init_no_birthday.
  destruct (mapM Phone_init numbers) as [ps|e] eqn:E.
  - apply mapM_Phone_init_Ok in E as [_ ->]. by left.
  - apply mapM_Phone_init_Raise in E as [-> _]. by right.
Qed.

Lemma change_phone_Raise_caught book name old_phone new_phone e :
  AddressBook_change_phone book name old_phone new_phone = Raise e ->
  caught_by_input_error (exn_cls e) = true.
Proof.
  unfold AddressBook_change_phone, Record_edit_phone.
  destruct (AddressBook_find_record book name) as [record|]; [|by intros [= <-]].
  destruct (edit_phone_loop _ _ _); [done|]. by intros [= <-].
Qed.

Lemma add_birthday_Raise_caught book name birthday e :
  AddressBook_add_birthday book name birthday = Raise e ->
  caught_by_input_error (exn_cls e) = true.
Proof.
  unfold AddressBook_add_birthday, Record_add_birthday.
  destruct (AddressBook_find_record book name) as [record|]; [|by intros [= <-]].
  destruct (Birthday_init birthday) as [b|e'] eqn:E; [done|].
  apply StrptimeFacts.Birthday_init_Raise in E as ->. by intros [= <-].
Qed.

Lemma add_contact_cases book name numbers :
  (exists line,
     add_contact book name numbers
     = Ok (AddressBook_add_record book
             (mkRecord (mkName name) (mkPhone <$> numbers) None),
           [print_line line]))
  \/ add_contact book name numbers
     = Ok (book, [print_input_error (Exn ValueError msg_phone_10_digits)]).
Proof.
  unfold add_contact.
  destruct (Record_init_numbers_cases name numbers) as [-> | ->].
  - left. by eexists.
  - by right.
Qed.

Lemma change_contact_cases book name old_number new_number :
  (exists book' line,
     AddressBook_change_phone book name old_number new_number = Ok book'
     /\ change_contact book name old_number new_number
        = Ok (book', [print_line line]))
  \/ (exists e,
        AddressBook_change_phone book name old_number new_number = Raise e
        /\ change_contact book name old_number new_number
           = Ok (book, [print_input_error e])).
Proof.
  unfold change_contact.
  destruct (AddressBook_change_phone book name old_number new_number)
    as [book'|e] eqn:E.
  - left. by do 2 eexists.
  - right. exists e. split; [done|]. simpl.
    by rewrite (change_phone_Raise_caught _ _ _ _ _ E).
Qed.

Lemma add_contact_birthday_cases book name birthday :
  (exists book' line,
     AddressBook_add_birthday book name birthday = Ok book'
     /\ add_contact_birthday book name birthday
        = Ok (book', [print_line line]))
  \/ (exists e,
        AddressBook_add_birthday book name birthday = Raise e
        /\ add_contact_birthday book name birthday
           = Ok (book, [print_input_error e])).
Proof.
  unfold add_contact_birthday.
  destruct (AddressBook_add_birthday book name birthday) as [book'|e] eqn:E.
  - left. by do 2 eexists.
  - right. exists e. split; [done|]. simpl.
    by rewrite (add_birthday_Raise_caught _ _ _ _ E).
Qed.

Lemma show_phone_Ok book name :
  exists line, show_phone book name = Ok (book, [print_line line]).
Proof.
  unfold show_phone.
  destruct (AddressBook_find_record book name); by eexists.
Qed.

Lemma show_birthday_Ok book name :
  exists line, show_birthday book name = Ok (book, [print_line line]).
Proof.
  unfold show_birthday.
  destruct (AddressBook_find_record book name) as [[? ? [b|]]|]; by eexists.
Qed.

Lemma show_all_contacts_Ok book :
  exists lines, show_all_contacts book = Ok (book, lines).
Proof. by eexists. Qed.

(** X19 (add_contact): with valid numbers the command stores a new record
    under the name, with exactly these numbers and no birthday, whatever
    record the name had before (its phones and its birthday are gone), and
    leaves the other contacts alone; with an invalid number among them it
    changes nothing and prints the input error of [Phone]. *)
Theorem add_contact_replaces_record
    (book : AddressBook) (name : str) (numbers : list str) :
  (Forall valid_phone numbers ->
   exists book' line,
     add_contact book name numbers = Ok (book', [print_line line])
     /\ AddressBook_find_record book' name
        = Some (mkRecord (mkName name) (mkPhone <$> numbers) None)
     /\ forall other, other <> name ->
          AddressBook_find_record book' other
          = AddressBook_find_record book other)
  /\ (~ Forall valid_phone numbers ->
      add_contact book name numbers
      = Ok (book, [print_input_error (Exn ValueError msg_phone_10_digits)])).
Proof.
  split.
  - intros Hall. unfold add_contact.
    rewrite (Record_init_numbers_valid name numbers Hall). simpl.
    do 2 eexists. split; [done|]. split.
    + rewrite find_record_get. apply dict_get_setitem_eq.
    + intros other Hne. rewrite !find_record_get.
      apply dict_get_setitem_ne. simpl. congruence.
  - intros Hnot. unfold add_contact.
    by rewrite (Record_init_numbers_invalid name numbers Hnot).
Qed.

(** X20 (input_error and the six commands it wraps): no command raises.
    Every exception the directory can raise in them is a [KeyError] or a
    [ValueError], which the wrapper turns into a printed line. *)
Theorem commands_never_raise
    (book : AddressBook) (name old_number new_number birthday : str)
    (numbers : list str) :
  is_Ok (add_contact book name numbers)
  /\ is_Ok (change_contact book name old_number new_number)
  /\ is_Ok (show_phone book name)
  /\ is_Ok (show_all_contacts book)
  /\ is_Ok (add_contact_birthday book name birthday)
  /\ is_Ok (show_birthday book name).
Proof.
  split_and!.
  - destruct (add_contact_cases book name numbers) as [[? ->] | ->];
      by eexists.
  - destruct (change_contact_cases book name old_number new_number)
      as [(? & ? & _ & ->) | (? & _ & ->)]; by eexists.
  - destruct (show_phone_Ok book name) as [? ->]. by eexists.
  - by eexists.
  - destruct (add_contact_birthday_cases book name birthday)
      as [(? & ? & _ & ->) | (? & _ & ->)]; by eexists.
  - destruct (show_birthday_Ok book name) as [? ->]. by eexists.
Qed.

(** ** The [match] statement of [main] *)

Ltac handler_cases :=
  match goal with
  | |- context [add_contact ?b ?n ?ns] =>
      destruct (add_contact_cases b n ns) as [[? ->] | ->]
  | |- context [change_contact ?b ?n ?o ?w] =>
      destruct (change_contact_cases b n o w)
        as [(? & ? & ? & ->) | (? & ? & ->)]
  | |- context [show_phone ?b ?n] =>
      destruct (show_phone_Ok b n) as [? ->]
  | |- context [show_all_contacts ?b] =>
      destruct (show_all_contacts_Ok b) as [? ->]
  | |- context [add_contact_birthday ?b ?n ?d] =>
      destruct (add_contact_birthday_cases b n d)
        as [(? & ? & ? & ->) | (? & ? & ->)]
  | |- context [show_birthday ?b ?n] =>
      destruct (show_birthday_Ok b n) as [? ->]
  end.

Ltac dispatch_cases :=
  unfold dispatch, invalid_arguments;
  repeat (case_decide; [subst|]);
  repeat case_match; subst;
  try handler_cases.

Lemma dispatch_Raise today book cmd args e :
  dispatch today book cmd args = Raise e ->
  cmd = text "birthdays" /\ get_upcoming_birthdays book today 7 = Raise e.
Proof.
  destruct (decide (cmd = text "birthdays")) as [->|Hne].
  - unfold dispatch. repeat (rewrite decide_False by discriminate).
    rewrite decide_True by done.
    destruct (get_upcoming_birthdays book today 7) as [[|? ?]|e'];
      simpl; try discriminate.
    by intros [= <-].
  - dispatch_cases; try discriminate; done.
Qed.

(** X21 (main, the [match] statement): a command raises exactly when it is
    "birthdays" and [get_upcoming_birthdays] raises; every other command,
    with any arguments, returns. *)
Theorem dispatch_raises_only_in_birthdays
    (today : date) (book : AddressBook) (cmd : str) (args : list str)
    (e : exn) :
  dispatch today book cmd args = Raise e
  <-> cmd = text "birthdays"
      /\ get_upcoming_birthdays book today 7 = Raise e.
Proof.
  split; [apply dispatch_Raise|].
  intros [-> H]. unfold dispatch.
  repeat (rewrite decide_False by discriminate).
  rewrite decide_True by done. by rewrite H.
Qed.

Lemma dispatch_frame today book cmd args book' out :
  dispatch today book cmd args = Ok (book', out) ->
  cmd ∉ [text "add"; text "change"; text "add-birthday"] ->
  book' = book.
Proof.
  intros H Hcmd. revert H.
  destruct (decide (cmd = text "birthdays")) as [->|Hne].
  - unfold dispatch. repeat (rewrite decide_False by discriminate).
    rewrite decide_True by done.
    destruct (get_upcoming_birthdays book today 7) as [[|? ?]|e'];
      simpl; try discriminate; by intros [= <- _].
  - dispatch_cases; try (by intros [= <- _]); try done;
      exfalso; apply Hcmd; set_solver.
Qed.

(** X22 (main, the [match] statement): only "add", "change" and
    "add-birthday" can change the directory; every other command word,
    known or not, with any arguments, leaves it as it is. *)
Theorem dispatch_changes_directory_only_by_three_commands
    (today : date) (book : AddressBook) (cmd : str) (args : list str)
    (book' : AddressBook) (out : list printed) :
  dispatch today book cmd args = Ok (book', out) ->
  cmd ∉ [text "add"; text "change"; text "add-birthday"] ->
  book' = book.
Proof. apply dispatch_frame. Qed.

Lemma dispatch_changes_directory_only_by_three_commands_witness :
  alice_and_bob = alice_and_bob.
Proof.
  apply (dispatch_changes_directory_only_by_three_commands
           (mkdate 2024 6 10) alice_and_bob (text "birthdays") []
           alice_and_bob
           [print_line (text "Upcoming birthdays in the next 7 days:");
            print_line (text "Bob has a birthday on 2024.06.17")]).
  - reflexivity.
  - rewrite !not_elem_of_cons.
    split_and!; [discriminate..|apply not_elem_of_nil].
Defined.

Lemma book_inv_add_contact book name numbers book' out :
  book_inv book -> add_contact book name numbers = Ok (book', out) ->
  book_inv book'.
Proof.
  intros Hinv.
  destruct (add_contact_cases book name numbers) as [[? ->] | ->];
    intros [= <- _]; [|done].
  apply book_inv_add_record; [done|]. by intros b.
Qed.

Lemma dispatch_book_inv today book cmd args book' out :
  book_inv book -> dispatch today book cmd args = Ok (book', out) ->
  book_inv book'.
Proof.
  intros Hinv H.
  destruct (decide (cmd ∈ [text "add"; text "change"; text "add-birthday"]))
    as [Hin|Hout]; [|by rewrite (dispatch_frame _ _ _ _ _ _ H Hout)].
  revert H. unfold dispatch, invalid_arguments.
  apply elem_of_cons in Hin as [->|Hin];
    [|apply elem_of_cons in Hin as [->|Hin];
      [|apply elem_of_cons in Hin as [->|Hin];
        [|by apply not_elem_of_nil in Hin]]].
  - rewrite decide_False by discriminate. rewrite decide_True by done.
    destruct args as [|name [|n1 numbers]]; try by intros [= <- _].
    apply book_inv_add_contact. done.
  - do 2 rewrite decide_False by discriminate. rewrite decide_True by done.
    destruct args as [|name [|o [|n [|? ?]]]]; try by intros [= <- _].
    destruct (change_contact_cases book name o n)
      as [(b' & ? & Hch & ->) | (? & _ & ->)]; intros [= <- _]; [|done].
    by eapply book_inv_change_phone.
  - do 5 rewrite decide_False by discriminate. rewrite decide_True by done.
    destruct args as [|name [|b [|? ?]]]; try by intros [= <- _].
    destruct (add_contact_birthday_cases book name b)
      as [(b' & ? & Hch & ->) | (? & _ & ->)]; intros [= <- _]; [|done].
    by eapply book_inv_add_birthday.
Qed.

(** X23 (main, the [match] statement and the commands): every command
    keeps the directory well formed: no name twice, every key the name of
    its record, every birthday a valid date. *)
Theorem dispatch_keeps_directory_well_formed
    (today : date) (book : AddressBook) (cmd : str) (args : list str)
    (book' : AddressBook) (out : list printed) :
  NoDup (dict_keys (AddressBook_data book)) ->
  keys_match book ->
  Forall wf_record (dict_values (AddressBook_data book)) ->
  dispatch today book cmd args = Ok (book', out) ->
  NoDup (dict_keys (AddressBook_data book'))
  /\ keys_match book'
  /\ Forall wf_record (dict_values (AddressBook_data book')).
Proof.
  intros Hnd Hkeys Hwf H.
  assert (book_inv book) as Hinv.
  { split; [done|]. unfold keys_match, dict_values in *.
    rewrite Forall_fmap in Hwf. rewrite Forall_forall in *.
    intros kv Hin. split; [by apply Hkeys|by apply Hwf]. }
  pose proof (dispatch_book_inv _ _ _ _ _ _ Hinv H) as Hinv'.
  split; [apply Hinv'|]. split; [by apply book_inv_keys_match|].
  destruct (book_inv_wf_book _ Hinv') as [_ Hwf'].
  unfold dict_values. by rewrite Forall_fmap.
Qed.

Lemma dispatch_keeps_directory_well_formed_witness :
  NoDup (dict_keys (AddressBook_data
           (AddressBook_add_record alice_and_bob
              (mkRecord (mkName (text "Bob"))
                 [mkPhone (text "3333333333")] None))))
  /\ keys_match
       (AddressBook_add_record alice_and_bob
          (mkRecord (mkName (text "Bob")) [mkPhone (text "3333333333")] None))
  /\ Forall wf_record
       (dict_values (AddressBook_data
          (AddressBook_add_record alice_and_bob
             (mkRecord (mkName (text "Bob"))
                [mkPhone (text "3333333333")] None)))).
Proof.
  apply (dispatch_keeps_directory_well_formed (mkdate 2024 6 10)
           alice_and_bob (text "add") [text "Bob"; text "3333333333"]
           (AddressBook_add_record alice_and_bob
              (mkRecord (mkName (text "Bob"))
                 [mkPhone (text "3333333333")] None))
           [print_line
              (text "Contact 'Bob' with number(s) '3333333333' added successfully.")]).
  - apply NoDup_ListNoDup.
    repeat (constructor; [simpl; intuition discriminate|]). constructor.
  - repeat constructor.
  - constructor; [|constructor; [|constructor]];
      intros b [= <-]; repeat split; by vm_compute.
  - reflexivity.
Defined.

(** ** Reading a command *)

Lemma split_from_blank acc pre s :
  blank pre ->
  split_from acc (pre ++ s)
  = match pre, acc with
    | [], _ => split_from acc s
    | _ :: _, [] => split_from [] s
    | _ :: _, _ :: _ => acc :: split_from [] s
    end.
Proof.
  intros Hpre. revert acc.
  induction Hpre as [|c pre Hc _ IH]; intros acc; [done|].
  cbn [app split_from]. rewrite Hc.
  destruct acc as [|a acc]; rewrite IH; by destruct pre.
Qed.

Lemma split_from_nonspace acc w s :
  Forall (fun c => isspace c = false) w ->
  split_from acc (w ++ s) = split_from (acc ++ w) s.
Proof.
  intros Hw. revert acc.
  induction Hw as [|c w Hc _ IH]; intros acc; [by rewrite app_nil_r|].
  cbn [app split_from]. rewrite Hc, IH. by rewrite <- app_assoc.
Qed.

Lemma split_from_words acc s :
  Forall (fun c => isspace c = false) acc ->
  Forall word (split_from acc s).
Proof.
  revert acc. induction s as [|c s IH]; intros acc Hacc; simpl.
  - destruct acc; [constructor|]. constructor; [by split|constructor].
  - destruct (isspace c) eqn:Hc.
    + destruct acc as [|a acc]; [by apply IH|].
      constructor; [by split|by apply IH].
    + apply IH. apply Forall_app. by repeat constructor.
Qed.

Lemma str_split_blank s : blank s -> str_split s = [].
Proof.
  intros H. unfold str_split.
  rewrite <- (app_nil_r s), (split_from_blank [] s [] H). by destruct s.
Qed.

Lemma str_split_first pre w rest :
  blank pre -> word w ->
  rest = [] \/ (exists c rest', rest = c :: rest' /\ isspace c = true) ->
  str_split (pre ++ w ++ rest) = w :: str_split rest.
Proof.
  intros Hpre [Hne Hw] Hrest. unfold str_split.
  assert (split_from [] (pre ++ w ++ rest) = split_from [] (w ++ rest)) as ->.
  { rewrite (split_from_blank [] pre _ Hpre). by destruct pre. }
  rewrite (split_from_nonspace [] w rest Hw). simpl.
  destruct Hrest as [->|(c & rest' & -> & Hc)]; simpl.
  - by destruct w.
  - rewrite Hc. by destruct w.
Qed.

(** X24 (parse_input): a blank line gives the empty command word and no
    arguments; otherwise the command word is the first word of the line,
    lower-cased, and the arguments are the words after it.  No argument is
    empty or holds white space, so a name or a number with a space in it
    cannot be entered. *)
Theorem parse_input_words (lower : str -> str) (command : str) :
  (blank command -> parse_input lower command = ([], []))
  /\ (forall pre w rest,
        command = pre ++ w ++ rest ->
        blank pre -> word w ->
        rest = [] \/ (exists c rest', rest = c :: rest' /\ isspace c = true) ->
        parse_input lower command = (lower w, str_split rest))
  /\ (forall cmd args,
        parse_input lower command = (cmd, args) -> Forall word args).
Proof.
  split_and!.
  - intros H. unfold parse_input. by rewrite str_split_blank.
  - intros pre w rest -> Hpre Hw Hrest. unfold parse_input.
    by rewrite str_split_first.
  - intros cmd args. unfold parse_input.
    pose proof (split_from_words [] command (Forall_nil_2 _)) as H.
    fold (str_split command) in H.
    destruct (str_split command) as [|part parts]; intros [= <- <-];
      [done|].
    by apply Forall_cons in H as [_ ?].
Qed.

(** ** The main loop *)

Lemma book_inv_save h book files file :
  book_inv book -> open_wb h default_filename = Ok file ->
  exists blob,
    Pickle.dumps (AddressBook_obj book) = Ok blob
    /\ save_data h book default_filename files
       = (<[file := Pickled blob]> files, Ok tt)
    /\ Pickle.loads blob = Ok (AddressBook_obj book).
Proof.
  intros Hinv Hopen.
  destruct (dumps_book book (book_inv_wf_book _ Hinv))
    as (blob & Hdump & Hload).
  exists blob. split; [done|]. split; [|done]. by apply save_data_Ok.
Qed.

Lemma program_file_load h files :
  program_file h files ->
  exists book,
    load_data h default_filename files = Ok (AddressBook_obj book)
    /\ book_inv book.
Proof.
  intros (file & Hloc & Hden & [Hnone|(book & blob & Hfile & Hdump & Hinv)]).
  - exists AddressBook_init. split; [|apply book_inv_init].
    by eapply load_data_absent.
  - exists book. split; [|done].
    destruct (dumps_book book (book_inv_wf_book _ Hinv))
      as (blob' & Hdump' & Hload).
    assert (blob' = blob) as -> by congruence.
    by eapply load_data_stored.
Qed.

Section main_loop.
Variable lower : str -> str.
Variable h : host.

Lemma main_loop_Exited book files out inputs out' book' files' :
  book_inv book ->
  main_loop lower h book files out inputs = (out', Exited book', files') ->
  book_inv book'
  /\ exists file blob,
       open_wb h default_filename = Ok file
       /\ Pickle.dumps (AddressBook_obj book') = Ok blob
       /\ files' = <[file := Pickled blob]> files.
Proof.
  revert book out.
  induction inputs as [|[line today] inputs IH]; intros book out Hinv;
    [done|].
  cbn [main_loop]. case_bool_decide as Hexit.
  - destruct (open_wb h default_filename) as [file|e] eqn:Hopen.
    + destruct (book_inv_save h book files file Hinv Hopen)
        as (blob & Hdump & -> & _).
      intros [= <- <- <-]. split; [done|]. by exists file, blob.
    + by rewrite (save_data_open_Raise _ _ _ _ _ Hopen).
  - destruct (parse_input lower (str_strip line)) as [cmd args].
    destruct (dispatch today book cmd args) as [[book1 lines]|e] eqn:Hd;
      [|done].
    apply IH. by eapply dispatch_book_inv.
Qed.

Lemma main_loop_Failed book files out inputs out' e files' :
  book_inv book ->
  main_loop lower h book files out inputs = (out', Failed e, files') ->
  files' = files
  /\ exists pre line today rest out1 book1,
       inputs = pre ++ (line, today) :: rest
       /\ main_loop lower h book files out pre
          = (out1, EndOfInput book1, files)
       /\ ((~ exit_line lower line
            /\ (parse_input lower (str_strip line)).1 = text "birthdays"
            /\ get_upcoming_birthdays book1 today 7 = Raise e)
           \/ (exit_line lower line
               /\ open_wb h default_filename = Raise e)).
Proof.
  revert book out.
  induction inputs as [|[line today] inputs IH]; intros book out Hinv;
    [done|].
  cbn [main_loop]. case_bool_decide as Hexit.
  - destruct (open_wb h default_filename) as [file|e'] eqn:Hopen.
    + by destruct (book_inv_save h book files file Hinv Hopen)
        as (blob & Hdump & -> & _).
    + rewrite (save_data_open_Raise _ _ _ _ _ Hopen).
      intros [= <- <- <-]. split; [done|].
      exists [], line, today, inputs. do 2 eexists.
      split; [done|]. split; [done|]. by right.
  - destruct (parse_input lower (str_strip line)) as [cmd args] eqn:Hp.
    destruct (dispatch today book cmd args) as [[book1 lines]|e'] eqn:Hd.
    + intros H.
      apply IH in H
        as (-> & pre & l & t & rest & out1 & b1 & -> & Hpre & Hcase);
        [|by eapply dispatch_book_inv].
      split; [done|].
      exists ((line, today) :: pre), l, t, rest, out1, b1.
      split; [done|]. split; [|done].
      cbn [app main_loop]. rewrite bool_decide_eq_false_2 by done.
      by rewrite Hp, Hd.
    + intros [= <- <- <-]. split; [done|].
      apply dispatch_Raise in Hd as [-> Hup].
      exists [], line, today, inputs. do 2 eexists.
      split; [done|]. split; [done|]. left. by rewrite Hp.
Qed.

Lemma main_loop_EndOfInput book files out inputs out' book' files' :
  main_loop lower h book files out inputs = (out', EndOfInput book', files') ->
  files' = files /\ Forall (fun i => ~ exit_line lower i.1) inputs.
Proof.
  revert book out.
  induction inputs as [|[line today] inputs IH]; intros book out;
    cbn [main_loop].
  - intros [= <- <- <-]. by split.
  - case_bool_decide as Hexit.
    + destruct (save_data h book default_filename files) as [? [[]|?]];
        intros [= <- <- <-]; done.
    + destruct (parse_input lower (str_strip line)) as [cmd args].
      destruct (dispatch today book cmd args) as [[book1 lines]|e'] eqn:Hd.
      * intros H. destruct (IH _ _ H) as [-> Hall].
        split; [done|]. by constructor.
      * intros [= <- <- <-]; done.
Qed.
End main_loop.

(** X25 (main, save_data, load_data): when a run of the program that
    started from a readable file of its own, or from none, ends with
    "close" or "exit", the file it leaves loads again as the directory the
    program held at that moment, whose keys are the names of its records;
    no other file is touched, and the file is again one the program can
    start from. *)
Theorem main_exit_saves_directory
    (lower : str -> str) (h : host) (files : filesystem)
    (inputs : list (str * date))
    (out : list printed) (book : AddressBook) (files' : filesystem) :
  program_file h files ->
  main lower h files inputs = (out, Exited book, files') ->
  load_data h default_filename files' = Ok (AddressBook_obj book)
  /\ as_AddressBook (AddressBook_obj book) = Some book
  /\ keys_match book
  /\ program_file h files'
  /\ forall file,
       locate h default_filename = Ok file ->
       forall other, other <> file -> files' !! other = files !! other.
Proof.
  intros Hfile. unfold main.
  destruct (program_file_load h files Hfile) as (book0 & -> & Hinv0).
  rewrite as_AddressBook_obj. intros H.
  apply main_loop_Exited in H
    as (Hinv & file & blob & Hopen & Hdump & ->); [|done].
  destruct (book_inv_save h book files file Hinv Hopen)
    as (blob' & Hdump' & _ & Hload).
  assert (blob' = blob) as -> by congruence.
  apply open_wb_Ok in Hopen as [Hloc _].
  destruct Hfile as (file0 & Hloc0 & Hden & _).
  assert (file0 = file) as -> by congruence.
  split_and!.
  - eapply load_data_stored; eauto. apply lookup_insert_eq.
  - apply as_AddressBook_obj.
  - by apply book_inv_keys_match.
  - exists file. split; [done|]. split; [done|]. right.
    exists book, blob. by rewrite lookup_insert_eq.
  - intros f Hf other Hne. assert (f = file) as -> by congruence.
    by rewrite lookup_insert_ne.
Qed.

Lemma main_exit_saves_directory_witness :
  load_data plain_host default_filename
    (main (fun s => s) plain_host ∅
       [(text "add Bob 1111111111 2222222222", mkdate 2024 6 10);
        (text "add-birthday Bob 15.06.1990", mkdate 2024 6 10);
        (text " exit ", mkdate 2024 6 10)]).2
  = Ok (AddressBook_obj (mkAddressBook [(text "Bob", bob)]))
  /\ keys_match (mkAddressBook [(text "Bob", bob)]).
Proof.
  pose proof (main_exit_saves_directory (fun s => s) plain_host ∅
       [(text "add Bob 1111111111 2222222222", mkdate 2024 6 10);
        (text "add-birthday Bob 15.06.1990", mkdate 2024 6 10);
        (text " exit ", mkdate 2024 6 10)]
       (main (fun s => s) plain_host ∅
          [(text "add Bob 1111111111 2222222222", mkdate 2024 6 10);
           (text "add-birthday Bob 15.06.1990", mkdate 2024 6 10);
           (text " exit ", mkdate 2024 6 10)]).1.1
       (mkAddressBook [(text "Bob", bob)])
       (main (fun s => s) plain_host ∅
          [(text "add Bob 1111111111 2222222222", mkdate 2024 6 10);
           (text "add-birthday Bob 15.06.1990", mkdate 2024 6 10);
           (text " exit ", mkdate 2024 6 10)]).2) as H.
  destruct H as (Hload & _ & Hkeys & _).
  - exists default_filename. split; [done|]. split; [done|]. by left.
  - by vm_compute.
  - by split.
Defined.

(** X26 (main): started from a readable file of its own, or from none,
    the program fails at one of two places only, and has then written
    nothing, so that the changes of the run are lost: at a line whose
    command word is "birthdays", with the exception that
    [get_upcoming_birthdays] raises for the directory built by the lines
    before it and the date of that line; or at a line "close" or "exit",
    with the exception that [open] raises for the file of the address
    book.  Nothing is written either when the input ends before a line
    "close" or "exit". *)
Theorem main_fails_at_birthdays_or_save
    (lower : str -> str) (h : host) (files : filesystem)
    (inputs : list (str * date))
    (out : list printed) (st : ending) (files' : filesystem) :
  program_file h files ->
  main lower h files inputs = (out, st, files') ->
  (forall book,
      st = EndOfInput book ->
      files' = files /\ Forall (fun i => ~ exit_line lower i.1) inputs)
  /\ (forall e,
        st = Failed e ->
        files' = files
        /\ exists pre line today rest out1 book1,
             inputs = pre ++ (line, today) :: rest
             /\ main lower h files pre = (out1, EndOfInput book1, files)
             /\ ((~ exit_line lower line
                  /\ (parse_input lower (str_strip line)).1
                     = text "birthdays"
                  /\ get_upcoming_birthdays book1 today 7 = Raise e)
                 \/ (exit_line lower line
                     /\ open_wb h default_filename = Raise e))).
Proof.
  intros Hfile. unfold main.
  destruct (program_file_load h files Hfile) as (book0 & -> & Hinv0).
  rewrite as_AddressBook_obj.
  intros H. split.
  - intros book ->. by eapply main_loop_EndOfInput.
  - intros e ->. by eapply main_loop_Failed.
Qed.

Lemma main_fails_at_birthdays_or_save_witness :
  (∅ : filesystem) = ∅
  /\ exists pre line today rest out1 book1,
       [(text "add Carol 3333333333", mkdate 2023 3 1);
        (text "add-birthday Carol 29.02.2000", mkdate 2023 3 1);
        (text "birthdays", mkdate 2023 3 1);
        (text "exit", mkdate 2023 3 1)]
       = pre ++ (line, today) :: rest
       /\ main (fun s => s) plain_host ∅ pre = (out1, EndOfInput book1, ∅)
       /\ ((~ exit_line (fun s => s) line
            /\ (parse_input (fun s => s) (str_strip line)).1
               = text "birthdays"
            /\ get_upcoming_birthdays book1 today 7
               = Raise (Exn ValueError
                          (msg_lib "day is out of range for month")))
           \/ (exit_line (fun s => s) line
               /\ open_wb plain_host default_filename
                  = Raise (Exn ValueError
                             (msg_lib "day is out of range for month")))).
Proof.
  eapply (main_fails_at_birthdays_or_save (fun s => s) plain_host ∅
            [(text "add Carol 3333333333", mkdate 2023 3 1);
             (text "add-birthday Carol 29.02.2000", mkdate 2023 3 1);
             (text "birthdays", mkdate 2023 3 1);
             (text "exit", mkdate 2023 3 1)]
            (main (fun s => s) plain_host ∅
               [(text "add Carol 3333333333", mkdate 2023 3 1);
                (text "add-birthday Carol 29.02.2000", mkdate 2023 3 1);
                (text "birthdays", mkdate 2023 3 1);
                (text "exit", mkdate 2023 3 1)]).1.1
            (Failed (Exn ValueError (msg_lib "day is out of range for month")))
            ∅).
  - exists default_filename. split; [done|]. split; [done|]. by left.
  - by vm_compute.
  - reflexivity.
Defined.

(** ** What the commands never do *)

Lemma keys_mutate_record book name record record' :
  AddressBook_find_record book name = Some record ->
  dict_keys (AddressBook_data (mutate_record book name record'))
  = dict_keys (AddressBook_data book).
Proof.
  intros H. apply dict_keys_setitem_present.
  rewrite <- find_record_get. eauto.
Qed.

Lemma keys_add_record book record :
  dict_keys (AddressBook_data (AddressBook_add_record book record))
  = dict_keys (AddressBook_data book)
  \/ ((Name_name (Record_name record) ∉ dict_keys (AddressBook_data book))
      /\ dict_keys (AddressBook_data (AddressBook_add_record book record))
         = dict_keys (AddressBook_data book)
           ++ [Name_name (Record_name record)]).
Proof.
  unfold AddressBook_add_record. simpl.
  destruct (dict_get (AddressBook_data book) (Name_name (Record_name record)))
    as [r|] eqn:E.
  - left. apply dict_keys_setitem_present. eauto.
  - right. split; [by apply dict_get_None_keys|].
    rewrite dict_setitem_fresh by done. unfold dict_keys.
    by rewrite fmap_app.
Qed.

Lemma keys_change_phone book name old_phone new_phone book' :
  AddressBook_change_phone book name old_phone new_phone = Ok book' ->
  dict_keys (AddressBook_data book') = dict_keys (AddressBook_data book).
Proof.
  unfold AddressBook_change_phone.
  destruct (AddressBook_find_record book name) as [record|] eqn:Hfind;
    [|done].
  intros (r' & _ & [= <-])%bind_Ok. by eapply keys_mutate_record.
Qed.

Lemma keys_add_birthday book name birthday book' :
  AddressBook_add_birthday book name birthday = Ok book' ->
  dict_keys (AddressBook_data book') = dict_keys (AddressBook_data book).
Proof.
  unfold AddressBook_add_birthday.
  destruct (AddressBook_find_record book name) as [record|] eqn:Hfind;
    [|done].
  intros (r' & _ & [= <-])%bind_Ok. by eapply keys_mutate_record.
Qed.

(** X27 (main, the [match] statement and the commands): no command removes
    a contact or changes the order of the directory: after a command the
    names are the same, or the same followed by one new name. *)
Theorem dispatch_never_removes_contact
    (today : date) (book : AddressBook) (cmd : str) (args : list str)
    (book' : AddressBook) (out : list printed) :
  dispatch today book cmd args = Ok (book', out) ->
  dict_keys (AddressBook_data book') = dict_keys (AddressBook_data book)
  \/ exists name,
       (name ∉ dict_keys (AddressBook_data book))
       /\ dict_keys (AddressBook_data book')
          = dict_keys (AddressBook_data book) ++ [name].
Proof.
  intros H.
  destruct (decide (cmd ∈ [text "add"; text "change"; text "add-birthday"]))
    as [Hin|Hout]; [|left; by rewrite (dispatch_frame _ _ _ _ _ _ H Hout)].
  revert H. unfold dispatch, invalid_arguments.
  apply elem_of_cons in Hin as [->|Hin];
    [|apply elem_of_cons in Hin as [->|Hin];
      [|apply elem_of_cons in Hin as [->|Hin];
        [|by apply not_elem_of_nil in Hin]]].
  - rewrite decide_False by discriminate. rewrite decide_True by done.
    destruct args as [|name [|n1 numbers]]; try (intros [= <- _]; by left).
    destruct (add_contact_cases book name (n1 :: numbers)) as [[? ->] | ->];
      intros [= <- _]; [|by left].
    destruct (keys_add_record book
                (mkRecord (mkName name) (mkPhone <$> n1 :: numbers) None))
      as [?|[? ?]]; [by left|right; eauto].
  - do 2 rewrite decide_False by discriminate. rewrite decide_True by done.
    destruct args as [|name [|o [|n [|? ?]]]];
      try (intros [= <- _]; by left).
    destruct (change_contact_cases book name o n)
      as [(b' & ? & Hch & ->) | (? & _ & ->)]; intros [= <- _]; left;
      [by eapply keys_change_phone|done].
  - do 5 rewrite decide_False by discriminate. rewrite decide_True by done.
    destruct args as [|name [|b [|? ?]]]; try (intros [= <- _]; by left).
    destruct (add_contact_birthday_cases book name b)
      as [(b' & ? & Hch & ->) | (? & _ & ->)]; intros [= <- _]; left;
      [by eapply keys_add_birthday|done].
Qed.

Lemma dispatch_never_removes_contact_witness :
  dict_keys (AddressBook_data
     (AddressBook_add_record alice_and_bob
        (mkRecord (mkName (text "Carol")) [mkPhone (text "3333333333")] None)))
  = dict_keys (AddressBook_data alice_and_bob)
  \/ exists name,
       (name ∉ dict_keys (AddressBook_data alice_and_bob))
       /\ dict_keys (AddressBook_data
            (AddressBook_add_record alice_and_bob
               (mkRecord (mkName (text "Carol"))
                  [mkPhone (text "3333333333")] None)))
          = dict_keys (AddressBook_data alice_and_bob) ++ [name].
Proof.
  apply (dispatch_never_removes_contact (mkdate 2024 6 10) alice_and_bob
           (text "add") [text "Carol"; text "3333333333"]
           (AddressBook_add_record alice_and_bob
              (mkRecord (mkName (text "Carol"))
                 [mkPhone (text "3333333333")] None))
           [print_line
              (text "Contact 'Carol' with number(s) '3333333333' added successfully.")]).
  reflexivity.
Defined.

(** ** After "close" or "exit" *)

Lemma main_loop_app_exit lower h book files out pre line today rest :
  exit_line lower line ->
  main_loop lower h book files out (pre ++ (line, today) :: rest)
  = main_loop lower h book files out (pre ++ [(line, today)]).
Proof.
  intros Hexit. revert book out.
  induction pre as [|[l t] pre IH]; intros book out; cbn [app main_loop].
  - unfold exit_line in Hexit. by rewrite !bool_decide_eq_true_2.
  - case_bool_decide; [done|].
    destruct (parse_input lower (str_strip l)) as [cmd args].
    destruct (dispatch t book cmd args) as [[book1 lines]|e]; [|done].
    apply IH.
Qed.

(** X28 (main): nothing that follows a line "close" or "exit" is read: the
    run is the same, output, ending and files, whatever lines come after
    it. *)
Theorem main_stops_at_exit
    (lower : str -> str) (h : host) (files : filesystem)
    (pre rest : list (str * date)) (line : str) (today : date) :
  exit_line lower line ->
  main lower h files (pre ++ (line, today) :: rest)
  = main lower h files (pre ++ [(line, today)]).
Proof.
  intros Hexit. unfold main.
  destruct (load_data h default_filename files) as [obj|]; [|done].
  destruct (as_AddressBook obj); [|done].
  by apply main_loop_app_exit.
Qed.

Lemma main_stops_at_exit_witness :
  main (fun s => s) plain_host ∅
    ([(text "add Bob 1111111111", mkdate 2024 6 10)]
     ++ (text "close", mkdate 2024 6 10)
        :: [(text "add Bob 2222222222", mkdate 2024 6 10)])
  = main (fun s => s) plain_host ∅
      ([(text "add Bob 1111111111", mkdate 2024 6 10)]
       ++ [(text "close", mkdate 2024 6 10)]).
Proof.
  apply (main_stops_at_exit (fun s => s) plain_host ∅
           [(text "add Bob 1111111111", mkdate 2024 6 10)]
           [(text "add Bob 2222222222", mkdate 2024 6 10)]
           (text "close") (mkdate 2024 6 10)).
  unfold exit_line. apply elem_of_cons. left. reflexivity.
Defined.

(** ** Invariants of the records along a session *)

Section values.
Variable R : Record_ -> Prop.
Implicit Types (book : AddressBook) (record : Record_).

Lemma values_find book name record :
  Forall R (dict_values (AddressBook_data book)) ->
  AddressBook_find_record book name = Some record -> R record.
Proof.
  unfold dict_values. rewrite Forall_fmap, Forall_forall.
  intros H Hfind. rewrite find_record_get in Hfind.
  apply dict_get_Some_elem in Hfind. apply (H _ Hfind).
Qed.

Lemma values_mutate book name record :
  Forall R (dict_values (AddressBook_data book)) -> R record ->
  Forall R (dict_values (AddressBook_data (mutate_record book name record))).
Proof.
  unfold dict_values. rewrite !Forall_fmap. intros H Hr.
  by apply (dict_setitem_Forall (fun kv => R kv.2)).
Qed.

Lemma values_add_record book record :
  Forall R (dict_values (AddressBook_data book)) -> R record ->
  Forall R (dict_values (AddressBook_data (AddressBook_add_record book record))).
Proof.
  unfold dict_values. rewrite !Forall_fmap. intros H Hr.
  by apply (dict_setitem_Forall (fun kv => R kv.2)).
Qed.

Lemma values_delete_record book name book' :
  Forall R (dict_values (AddressBook_data book)) ->
  AddressBook_delete_record book name = Ok book' ->
  Forall R (dict_values (AddressBook_data book')).
Proof.
  unfold dict_values. rewrite !Forall_fmap.
  intros H (d & Hdel & [= <-])%bind_Ok. simpl.
  by eapply (dict_delitem_Forall (fun kv => R kv.2)).
Qed.
End values.

Section session_invariant.
Variable Q : AddressBook -> Prop.
Variable ok : operation -> Prop.
Variable h : host.
Hypothesis Hok : forall o, ok o -> wf_operation o.
Hypothesis Hinit : Q AddressBook_init.
Hypothesis Hstep :
  forall s o, ok o -> book_inv (session_book s) -> Q (session_book s) ->
              (forall filename, o <> op_load filename) ->
              Q (session_book (step h s o)).

Lemma session_inv_with_step s o :
  ok o -> session_inv_with Q s -> session_inv_with Q (step h s o).
Proof using Hok Hinit Hstep.
  intros Ho (Hinv & HQ & Hfiles).
  assert (session_inv s) as Hs.
  { split; [done|]. intros f blob Hf.
    destruct (Hfiles f blob Hf) as (b & ? & ? & _). by exists b. }
  destruct (session_inv_step h s o (Hok o Ho) Hs) as [Hinv' _].
  split; [done|].
  assert (forall files',
            (forall f blob,
                files' !! f = Some (Pickled blob) ->
                exists b,
                  Pickle.dumps (AddressBook_obj b) = Ok blob
                  /\ book_inv b /\ Q b) ->
            session_files (step h s o) = files' ->
            (forall filename, o <> op_load filename) ->
            Q (session_book (step h s o))
            /\ forall f blob,
                 session_files (step h s o) !! f = Some (Pickled blob) ->
                 exists b,
                   Pickle.dumps (AddressBook_obj b) = Ok blob
                   /\ book_inv b /\ Q b) as Hother.
  { intros files' Hf' <- Hnot. split; [by apply Hstep|done]. }
  destruct s as [book files]. cbn [session_book session_files] in *.
  destruct o as [record|name|name phone|name phone|name old new|name birthday
                |filename|filename];
    try (apply (Hother files); [done| |done];
         simpl; unfold keep; first [done | by case_match]).
  - apply (Hother (save_data h book filename files).1); [|done..].
    by apply save_data_inv.
  - simpl.
    destruct (loaded_book (load_data h filename files)) as [book'|] eqn:E;
      simpl; [|done].
    destruct (loaded_book_inv Q h filename files book' Hinit Hfiles E)
      as [_ HQ'].
    by split.
Qed.

Lemma session_inv_with_run ops :
  Forall ok ops -> Q (session_book (run h ops new_session)).
Proof using Hok Hinit Hstep.
  intros Hops.
  assert (session_inv_with Q new_session) as H0.
  { split; [apply book_inv_init|]. split; [done|].
    intros f blob. simpl. by rewrite lookup_empty. }
  unfold run. revert H0. generalize new_session.
  induction Hops as [|o ops Ho _ IH]; intros s Hs; simpl; [apply Hs|].
  apply IH. by apply session_inv_with_step.
Qed.
End session_invariant.

Lemma checked_operation_wf o : checked_operation o -> wf_operation o.
Proof. destruct o; simpl; try done. by intros [? _]. Qed.

Lemma phones_valid_init : phones_valid AddressBook_init.
Proof. constructor. Qed.

Lemma phones_valid_step h s o :
  checked_operation o -> book_inv (session_book s) ->
  phones_valid (session_book s) ->
  (forall filename, o <> op_load filename) ->
  phones_valid (session_book (step h s o)).
Proof.
  intros Ho _ HQ Hload. destruct s as [book files].
  cbn [session_book session_files] in *. unfold phones_valid in *.
  destruct o as [record|name|name phone|name phone|name old new|name birthday
                |filename|filename]; simpl.
  - destruct Ho as [_ Ho]. by apply values_add_record.
  - destruct (AddressBook_delete_record book name) as [book'|e] eqn:E;
      [|done].
    simpl. by eapply values_delete_record.
  - unfold AddressBook_add_phone.
    destruct (AddressBook_find_record book name) as [record|] eqn:Hfind.
    + unfold Record_add_phone.
      destruct (Phone_init phone) as [p|e] eqn:Hp; [|done]. simpl.
      apply values_mutate; [done|].
      apply Phone_init_Ok in Hp as (Hlen & Hdig & ->).
      unfold phone_numbers. simpl. rewrite fmap_app. apply Forall_app.
      split; [apply (values_find _ book name record HQ Hfind)|].
      by repeat constructor.
    + rewrite Record_init_no_birthday.
      destruct (mapM Phone_init [phone]) as [ps|e] eqn:Hps; [|done]. simpl.
      apply mapM_Phone_init_Ok in Hps as [Hall ->].
      apply (values_add_record _ book
               (mkRecord (mkName name) (mkPhone <$> [phone]) None));
        [done|].
      unfold phone_numbers. simpl. exact Hall.
  - unfold AddressBook_delete_phone.
    destruct (AddressBook_find_record book name) as [record|] eqn:Hfind;
      [|done].
    simpl. apply values_mutate; [done|].
    rewrite phone_numbers_remove_phone.
    pose proof (values_find _ book name record HQ Hfind) as Hr.
    rewrite Forall_forall in *. intros x [_ Hx]%list_elem_of_filter.
    by apply Hr.
  - unfold AddressBook_change_phone.
    destruct (AddressBook_find_record book name) as [record|] eqn:Hfind;
      [|done].
    unfold Record_edit_phone.
    destruct (edit_phone_loop (Record_phones record) old new)
      as [phones'|] eqn:Hedit; [|done].
    simpl. apply values_mutate; [done|].
    apply edit_phone_loop_Some in Hedit
      as (before & p & after & Heq & _ & _ & ->).
    pose proof (values_find _ book name record HQ Hfind) as Hr.
    unfold phone_numbers in *. simpl. rewrite Heq in Hr.
    rewrite fmap_app, fmap_cons in *.
    apply Forall_app in Hr as [Hb [_ Ha]%Forall_cons].
    apply Forall_app. split; [done|]. by constructor.
  - unfold AddressBook_add_birthday.
    destruct (AddressBook_find_record book name) as [record|] eqn:Hfind;
      [|done].
    unfold Record_add_birthday.
    destruct (Birthday_init birthday) as [b|e]; [|done]. simpl.
    apply values_mutate; [done|].
    apply (values_find _ book name record HQ Hfind).
  - done.
  - by destruct (Hload filename).
Qed.



Lemma birthday_parsed_wf record : birthday_parsed record -> wf_record record.
Proof.
  intros H b Hb. eapply StrptimeFacts.Birthday_init_valid_datetime.
  by apply H.
Qed.

Lemma parsed_operation_wf o : parsed_operation o -> wf_operation o.
Proof. destruct o; simpl; try done. apply birthday_parsed_wf. Qed.

Lemma birthdays_parsed_init : birthdays_parsed AddressBook_init.
Proof. constructor. Qed.

Lemma Birthday_init_value s b : Birthday_init s = Ok b -> Birthday_value b = s.
Proof.
  by intros (D & M & Y & d & m & y & _ & _ & ->)%StrptimeFacts.Birthday_init_Ok.
Qed.

Lemma birthdays_parsed_step h s o :
  parsed_operation o -> book_inv (session_book s) ->
  birthdays_parsed (session_book s) ->
  (forall filename, o <> op_load filename) ->
  birthdays_parsed (session_book (step h s o)).
Proof.
  intros Ho _ HQ Hload. destruct s as [book files].
  cbn [session_book session_files] in *. unfold birthdays_parsed in *.
  destruct o as [record|name|name phone|name phone|name old new|name birthday
                |filename|filename]; simpl.
  - by apply values_add_record.
  - destruct (AddressBook_delete_record book name) as [book'|e] eqn:E;
      [|done].
    simpl. by eapply values_delete_record.
  - unfold AddressBook_add_phone.
    destruct (AddressBook_find_record book name) as [record|] eqn:Hfind.
    + unfold Record_add_phone.
      destruct (Phone_init phone) as [p|e]; [|done]. simpl.
      apply values_mutate; [done|].
      apply (values_find _ book name record HQ Hfind).
    + rewrite Record_init_no_birthday.
      destruct (mapM Phone_init [phone]) as [ps|e]; [|done]. simpl.
      apply (values_add_record _ book (mkRecord (mkName name) ps None));
        [done|].
      by intros b.
  - unfold AddressBook_delete_phone.
    destruct (AddressBook_find_record book name) as [record|] eqn:Hfind;
      [|done].
    simpl. apply values_mutate; [done|].
    apply (values_find _ book name record HQ Hfind).
  - unfold AddressBook_change_phone.
    destruct (AddressBook_find_record book name) as [record|] eqn:Hfind;
      [|done].
    unfold Record_edit_phone.
    destruct (edit_phone_loop (Record_phones record) old new); [|done].
    simpl. apply values_mutate; [done|].
    apply (values_find _ book name record HQ Hfind).
  - unfold AddressBook_add_birthday.
    destruct (AddressBook_find_record book name) as [record|] eqn:Hfind;
      [|done].
    unfold Record_add_birthday.
    destruct (Birthday_init birthday) as [b|e] eqn:Hb; [|done]. simpl.
    apply values_mutate; [done|].
    intros b' [= <-]. by rewrite (Birthday_init_value _ _ Hb).
  - done.
  - by destruct (Hload filename).
Qed.


